(* ===================================================================== *)
(* Update-Libraries (update_libraries.py): a shallow embedding of the    *)
(* script's helpers and passes, and the properties checked against it.   *)
(*                                                                       *)
(* Python 2 byte strings are Rocq strings, exceptions are an error type  *)
(* threaded through a small result monad, the configuration files are    *)
(* ordered association lists (the parser's ordered dictionaries), and the *)
(* file system is a finite map from canonical paths to nodes on which    *)
(* path names are resolved component by component, following links.      *)
(* ===================================================================== *)
From stdpp Require Import gmap strings list fin_maps.
From Stdlib Require Import Ascii String.

Open Scope string_scope.
Open Scope nat_scope.
Open Scope stdpp_scope.

(* --------------------------------------------------------------------- *)
(* Exceptions and the result monad                                       *)
(* --------------------------------------------------------------------- *)

Inductive errno := EEXIST | ENOENT | ENOTDIR | EISDIR | ELOOP.

Inductive exn :=
| NoSectionError (section : string)
| NoOptionError (option section : string)
| KeyError (key : string)
| UnboundLocalError (variable : string)
| OSError (code : errno)
| IOError
| AttributeError
| TypeError
| ValueError.

Inductive result (A : Type) :=
| Ok (a : A)
| Raise (e : exn).
Arguments Ok {A} a.
Arguments Raise {A} e.

#[global] Instance result_ret : MRet result := fun A a => Ok a.

#[global] Instance result_bind : MBind result := fun A B k r =>
  match r with
  | Ok a => k a
  | Raise e => Raise e
  end.

#[global] Instance errno_eq_dec : EqDecision errno.
Proof. solve_decision. Defined.
#[global] Instance exn_eq_dec : EqDecision exn.
Proof. solve_decision. Defined.

(* --------------------------------------------------------------------- *)
(* Byte strings                                                          *)
(* --------------------------------------------------------------------- *)
Module Str.

Definition code (c : ascii) : nat := nat_of_ascii c.

Definition is_digit (c : ascii) : bool :=
  (48 <=? code c) && (code c <=? 57).

Definition is_upper (c : ascii) : bool :=
  (65 <=? code c) && (code c <=? 90).

Definition is_lower (c : ascii) : bool :=
  (97 <=? code c) && (code c <=? 122).

(* The class \w of the re module on byte strings: [a-zA-Z0-9_]. *)
Definition is_word (c : ascii) : bool :=
  is_digit c || is_upper c || is_lower c || (code c =? 95).

Definition lower_char (c : ascii) : ascii :=
  if is_upper c then ascii_of_nat (code c + 32) else c.

(* str.lower() *)
Fixpoint lower (s : string) : string :=
  match s with
  | EmptyString => EmptyString
  | String c s' => String (lower_char c) (lower s')
  end.

(* s.startswith(p), returning what follows the prefix *)
Fixpoint strip_prefix (p s : string) : option string :=
  match p with
  | EmptyString => Some s
  | String a p' =>
      match s with
      | EmptyString => None
      | String b s' => if decide (a = b) then strip_prefix p' s' else None
      end
  end.

Definition startswith (s p : string) : bool :=
  match strip_prefix p s with Some _ => true | None => false end.

Fixpoint endswith_char (s : string) (c : ascii) : bool :=
  match s with
  | EmptyString => false
  | String a EmptyString => bool_decide (a = c)
  | String _ s' => endswith_char s' c
  end.

(* the longest prefix of digits, and what follows it *)
Fixpoint span_digits (s : string) : string * string :=
  match s with
  | String c s' =>
      if is_digit c
      then let '(d, r) := span_digits s' in (String c d, r)
      else (EmptyString, s)
  | EmptyString => (EmptyString, EmptyString)
  end.

Fixpoint contains_char (c : ascii) (s : string) : bool :=
  match s with
  | EmptyString => false
  | String a s' => bool_decide (a = c) || contains_char c s'
  end.

(* str(n) for a natural number *)
Definition digit_char (d : nat) : ascii := ascii_of_nat (48 + d).

Fixpoint of_nat_fuel (fuel n : nat) (acc : string) : string :=
  match fuel with
  | O => acc
  | S fuel' =>
      let acc' := String (digit_char (n mod 10)) acc in
      if n <? 10 then acc' else of_nat_fuel fuel' (n / 10) acc'
  end.

Definition of_nat (n : nat) : string := of_nat_fuel (S n) n EmptyString.

Definition upper_char (c : ascii) : ascii :=
  if is_lower c then ascii_of_nat (code c - 32) else c.

(* str.capitalize() *)
Definition capitalize (s : string) : string :=
  match s with
  | EmptyString => EmptyString
  | String c s' => String (upper_char c) (lower s')
  end.

(* re.search("(\d+)", s).group(1): the first longest run of digits *)
Fixpoint search_digits (s : string) : option string :=
  match s with
  | EmptyString => None
  | String c s' =>
      if is_digit c then Some (fst (span_digits s)) else search_digits s'
  end.

(* s.replace('%%', '') *)
Fixpoint remove_double_percent (s : string) : string :=
  match s with
  | String "%" (String "%" r) => remove_double_percent r
  | String c r => String c (remove_double_percent r)
  | EmptyString => EmptyString
  end.

(* the longest prefix without a closing parenthesis, and the rest *)
Fixpoint span_not_rparen (s : string) : string * string :=
  match s with
  | String c s' =>
      if bool_decide (c = ")"%char) then (EmptyString, s)
      else let '(d, r) := span_not_rparen s' in (String c d, r)
  | EmptyString => (EmptyString, EmptyString)
  end.

(* re.compile(r"%\(([^)]+)\)s").sub('', s) *)
Fixpoint remove_interpvars (fuel : nat) (s : string) : string :=
  match fuel with
  | O => s
  | S fuel' =>
      match s with
      | EmptyString => EmptyString
      | String c r =>
          let keep := String c (remove_interpvars fuel' r) in
          match s with
          | String "%" (String "(" body) =>
              match span_not_rparen body with
              | (String _ _, String ")" (String "s" after)) =>
                  remove_interpvars fuel' after
              | _ => keep
              end
          | _ => keep
          end
      end
  end.

(* int(s) for a string of decimal digits *)
Fixpoint to_N_acc (s : string) (acc : N) : N :=
  match s with
  | EmptyString => acc
  | String c s' => to_N_acc s' (acc * 10 + N.of_nat (code c - 48))%N
  end.

Definition to_N (s : string) : N := to_N_acc s 0%N.

End Str.

(* "template" % args, for templates whose only conversions are %s and    *)
(* the escape %%; every other outcome is Python's TypeError/ValueError.  *)
Fixpoint percent_format (tmpl : string) (args : list string) : result string :=
  match tmpl with
  | EmptyString =>
      match args with
      | [] => Ok EmptyString
      | _ :: _ => Raise TypeError
      end
  | String "%" (String "s" rest) =>
      match args with
      | a :: args' => r ← percent_format rest args' ; Ok (a +:+ r)
      | [] => Raise TypeError
      end
  | String "%" (String "%" rest) =>
      r ← percent_format rest args ; Ok (String "%" r)
  | String "%" _ => Raise ValueError
  | String c rest =>
      r ← percent_format rest args ; Ok (String c r)
  end.

(* --------------------------------------------------------------------- *)
(* posixpath: the textual path functions                                 *)
(* --------------------------------------------------------------------- *)
Module Path.

(* os.path.join(a, b) *)
Definition join (a b : string) : string :=
  if Str.startswith b "/" then b
  else if bool_decide (a = "") || Str.endswith_char a "/" then a +:+ b
  else a +:+ "/" +:+ b.

(* os.path.join(a, b, c) *)
Definition join3 (a b c : string) : string := join (join a b) c.

(* s.rstrip('/') *)
Fixpoint rstrip_slash (s : string) : string :=
  match s with
  | EmptyString => EmptyString
  | String c s' =>
      let r := rstrip_slash s' in
      if bool_decide (r = "") && bool_decide (c = "/"%char) then EmptyString
      else String c r
  end.

(* s == '/' * len(s) *)
Fixpoint all_slashes (s : string) : bool :=
  match s with
  | EmptyString => true
  | String c s' => bool_decide (c = "/"%char) && all_slashes s'
  end.

(* the cut at the last slash: Some (h, t) when s is h + "/" + t and t  *)
(* has no slash, None when s has no slash at all                       *)
Fixpoint rcut (s : string) : option (string * string) :=
  match s with
  | EmptyString => None
  | String c s' =>
      match rcut s' with
      | Some (h, t) => Some (String c h, t)
      | None => if bool_decide (c = "/"%char) then Some (EmptyString, s') else None
      end
  end.

(* os.path.split(p) *)
Definition split (p : string) : string * string :=
  match rcut p with
  | None => ("", p)
  | Some (h, t) =>
      (if all_slashes h then h +:+ "/" else rstrip_slash h, t)
  end.

(* os.path.dirname(p) *)
Definition dirname (p : string) : string := fst (split p).

(* os.path.isabs(p) *)
Definition isabs (p : string) : bool := Str.startswith p "/".

(* p.split('/') *)
Fixpoint components (s : string) : list string :=
  match s with
  | EmptyString => [EmptyString]
  | String c s' =>
      if bool_decide (c = "/"%char) then EmptyString :: components s'
      else match components s' with
           | x :: xs => String c x :: xs
           | [] => [String c EmptyString]
           end
  end.

(* '/'.join(comps) *)
Fixpoint slash_join (comps : list string) : string :=
  match comps with
  | [] => ""
  | [x] => x
  | x :: xs => x +:+ "/" +:+ slash_join xs
  end.

(* the loop of normpath; new_comps is kept reversed *)
Fixpoint normpath_loop (initial_slashes : nat) (comps rev_new : list string)
  : list string :=
  match comps with
  | [] => rev rev_new
  | comp :: comps' =>
      if bool_decide (comp = "") || bool_decide (comp = ".")
      then normpath_loop initial_slashes comps' rev_new
      else if negb (bool_decide (comp = ".."))
              || (bool_decide (initial_slashes = 0) && bool_decide (rev_new = []))
              || match rev_new with
                 | top :: _ => bool_decide (top = "..")
                 | [] => false
                 end
      then normpath_loop initial_slashes comps' (comp :: rev_new)
      else normpath_loop initial_slashes comps' (tail rev_new)
  end.

(* os.path.normpath(path) *)
Definition normpath (path : string) : string :=
  if bool_decide (path = "") then "."
  else
    let initial_slashes :=
      if Str.startswith path "/"
      then if Str.startswith path "//" && negb (Str.startswith path "///")
           then 2 else 1
      else 0 in
    let body := slash_join (normpath_loop initial_slashes (components path) []) in
    let out := match initial_slashes with
               | 0 => body
               | 1 => "/" +:+ body
               | _ => "//" +:+ body
               end in
    if bool_decide (out = "") then "." else out.

End Path.

(* --------------------------------------------------------------------- *)
(* SafeConfigParser: sections of options, kept in file order             *)
(* --------------------------------------------------------------------- *)
(* Option names are stored as the parser stores them (optionxform lower- *)
(* cases them on reading); values are the strings `get` returns, that is *)
(* after interpolation, which the model does not unfold further.         *)
Module Config.

Definition options_t := list (string * string).

Record t := mk {
  defaults : options_t;
  sections_ : list (string * options_t)
}.

Fixpoint assoc {V} (k : string) (l : list (string * V)) : option V :=
  match l with
  | [] => None
  | (k', v) :: l' => if decide (k' = k) then Some v else assoc k l'
  end.

Definition has_key {V} (k : string) (l : list (string * V)) : bool :=
  match assoc k l with Some _ => true | None => false end.

Definition optionxform (o : string) : string := Str.lower o.

(* config.sections() *)
Definition sections (c : t) : list string := map fst (sections_ c).

(* config.has_section(s) *)
Definition has_section (c : t) (s : string) : bool := has_key s (sections_ c).

(* config.has_option(section, option) *)
Definition has_option (c : t) (section option : string) : bool :=
  if bool_decide (section = "") || bool_decide (section = "DEFAULT")
  then has_key (optionxform option) (defaults c)
  else match assoc section (sections_ c) with
       | None => false
       | Some d =>
           has_key (optionxform option) d
           || has_key (optionxform option) (defaults c)
       end.

(* config.get(section, option): the section's own value first, then    *)
(* the DEFAULT section's.                                              *)
Definition get (c : t) (section option : string) : result string :=
  d ← match assoc section (sections_ c) with
      | Some d => Ok d
      | None =>
          if bool_decide (section = "DEFAULT") then Ok []
          else Raise (NoSectionError section)
      end;
  match assoc (optionxform option) d with
  | Some v => Ok v
  | None =>
      match assoc (optionxform option) (defaults c) with
      | Some v => Ok v
      | None => Raise (NoOptionError (optionxform option) section)
      end
  end.

(* config.options(section): the section's keys in order, then the      *)
(* DEFAULT keys the section does not override.                         *)
Definition options (c : t) (section : string) : result (list string) :=
  match assoc section (sections_ c) with
  | None => Raise (NoSectionError section)
  | Some d =>
      Ok (map fst d
          ++ filter (fun k => has_key k d = false) (map fst (defaults c)))%list
  end.

(* set(d, k, v) on an ordered dictionary: in place when the key is     *)
(* there, appended otherwise.                                          *)
Fixpoint dict_set {V} (k : string) (v : V) (l : list (string * V))
  : list (string * V) :=
  match l with
  | [] => [(k, v)]
  | (k', v') :: l' =>
      if decide (k' = k) then (k, v) :: l' else (k', v') :: dict_set k v l'
  end.

(* SafeConfigParser.set(section, option, value) *)
Definition set (c : t) (section option value : string) : result t :=
  let tmp_value := Str.remove_double_percent value in
  let tmp_value := Str.remove_interpvars (String.length tmp_value) tmp_value in
  if Str.contains_char "%" tmp_value then Raise ValueError
  else if bool_decide (section = "") || bool_decide (section = "DEFAULT")
  then Ok (mk (dict_set (optionxform option) value (defaults c)) (sections_ c))
  else match assoc section (sections_ c) with
       | None => Raise (NoSectionError section)
       | Some d =>
           Ok (mk (defaults c)
                  (dict_set section (dict_set (optionxform option) value d)
                     (sections_ c)))
       end.

(* config.add_section(s), for a name that is not yet a section and is  *)
(* not the DEFAULT one                                                  *)
Definition add_section (c : t) (s : string) : t :=
  mk (defaults c) ((sections_ c ++ [(s, [])])%list).

End Config.

(* --------------------------------------------------------------------- *)
(* PROVIDERS                                                             *)
(* --------------------------------------------------------------------- *)
Record provider_data := {
  path_prefix : string;
  tarball_path : option string;
  zipball_path : option string;
  auth : option string
}.

Definition PROVIDERS : list (string * provider_data) :=
  [ ("github",
     {| path_prefix := "https://github.com/%s";
        tarball_path := Some "/tarball/%s";
        zipball_path := Some "/zipball/%s";
        auth := None |});
    ("gitorious",
     {| path_prefix := "http://gitorious.org/%s";
        tarball_path := Some "/archive-tarball/%s";
        zipball_path := None;
        auth := None |});
    ("bitbucket",
     {| path_prefix := "https://bitbucket.org/%s";
        tarball_path := Some "/get/%s.tar.gz";
        zipball_path := Some "/get/%s.zip";
        auth := None |}) ].

(* PROVIDERS[key] *)
Definition PROVIDERS_getitem (key : string) : result provider_data :=
  match Config.assoc key PROVIDERS with
  | Some d => Ok d
  | None => Raise (KeyError key)
  end.

(* key in PROVIDERS *)
Definition in_PROVIDERS (key : string) : bool := Config.has_key key PROVIDERS.

(* --------------------------------------------------------------------- *)
(* Command line arguments (self.args)                                    *)
(* --------------------------------------------------------------------- *)
Record Args := {
  quiet : bool;
  very_quiet : bool;
  extroot : string;
  libroot : string;
  force : bool;
  update : bool;
  link : bool;
  configfile : string
}.

(* _args, after parsing: very quiet implies quiet. *)
Definition args_after_parse (a : Args) : Args :=
  {| quiet := if very_quiet a then true else quiet a;
     very_quiet := very_quiet a;
     extroot := extroot a;
     libroot := libroot a;
     force := force a;
     update := update a;
     link := link a;
     configfile := configfile a |}.

(* --------------------------------------------------------------------- *)
(* Local helpers that only read the configuration                        *)
(* --------------------------------------------------------------------- *)

(* _type *)
Definition _type (config : Config.t) (library : string) : result string :=
  t ← Config.get config library "type"; Ok (Str.lower t).

(* _tag_or_branch *)
Definition _tag_or_branch (config : Config.t) (library : string)
  : result string :=
  if Config.has_option config library "tag"
  then Config.get config library "tag"
  else Config.get config library "branch".

(* re.compile("\W").sub("_", s): every match of the one-character class  *)
(* is replaced, scanning from the left.                                  *)
Fixpoint re_sub_nonword (s : string) : string :=
  match s with
  | EmptyString => EmptyString
  | String c s' =>
      if Str.is_word c
      then String c (re_sub_nonword s')
      else String "_" (re_sub_nonword s')
  end.

(* what the substitution does to one character *)
Definition filler_or_self (c : ascii) : ascii :=
  if Str.is_word c then c else "_"%char.

(* The storage namespace key as the specification words it: the locator  *)
(* itself for a repository, the base URL of the provider with the        *)
(* locator put in otherwise.                                             *)
Definition namespace_key (type_ url : string) : option string :=
  if bool_decide (type_ = "repo") then Some url
  else if bool_decide (type_ = "github") then Some ("https://github.com/" +:+ url)
  else if bool_decide (type_ = "gitorious") then Some ("http://gitorious.org/" +:+ url)
  else if bool_decide (type_ = "bitbucket") then Some ("https://bitbucket.org/" +:+ url)
  else None.

(* The normalisation as the specification words it: every maximal run of *)
(* non-word characters becomes one filler character.                     *)
Fixpoint collapse_nonword_runs (s : string) : string :=
  match s with
  | EmptyString => EmptyString
  | String c s' =>
      if Str.is_word c then String c (collapse_nonword_runs s')
      else match s' with
           | String c' _ =>
               if Str.is_word c' then String "_" (collapse_nonword_runs s')
               else collapse_nonword_runs s'
           | EmptyString => String "_" EmptyString
           end
  end.

(* _extdir_from_library *)
Definition _extdir_from_library (args : Args) (config : Config.t)
    (library : string) : result string :=
  url ← Config.get config library "url";
  repo_type ← _type config library;
  library_name ←
    (if bool_decide (repo_type = "repo") then Ok url
     else pd ← PROVIDERS_getitem repo_type;
          percent_format (path_prefix pd) [url]);
  Ok (Path.join (extroot args) (re_sub_nonword library_name)).

(* re.match(r"link_from(\.\d+)?", key): None when the key does not start *)
(* with link_from; otherwise the match, given by its group 1 (None when  *)
(* the optional group did not take part).                                *)
Definition match_link_from (key : string) : option (option string) :=
  match Str.strip_prefix "link_from" key with
  | None => None
  | Some rest =>
      match rest with
      | String c after =>
          let digits := fst (Str.span_digits after) in
          if bool_decide (c = "."%char) && negb (bool_decide (digits = ""))
          then Some (Some (String "." digits))
          else Some None
      | EmptyString => Some None
      end
  end.

(* the body of the loop of _get_links for one key *)
Definition link_pair_of_key (link_key : string) : list (string * string) :=
  match match_link_from link_key with
  | Some g =>
      let suffix := match g with
                    | Some s => if bool_decide (s = "") then "" else s
                    | None => ""
                    end in
      [("link_from" +:+ suffix, "link_to" +:+ suffix)]
  | None => []
  end.

Fixpoint get_links_loop (keys : list string) (links : list (string * string))
  : list (string * string) :=
  match keys with
  | [] => links
  | link_key :: keys' => get_links_loop keys' (links ++ link_pair_of_key link_key)%list
  end.

(* _get_links *)
Definition _get_links (config : Config.t) (library : string)
  : result (list (string * string)) :=
  keys ← Config.options config library;
  Ok (get_links_loop keys []).

(* --------------------------------------------------------------------- *)
(* The file system                                                       *)
(* --------------------------------------------------------------------- *)
(* A tree is a finite map from canonical paths (the names from the root  *)
(* down, the root being the empty list) to nodes. Path names are         *)
(* resolved the way the kernel does: one component at a time, each       *)
(* intermediate component being a directory, symbolic links followed up  *)
(* to a fixed number of times. Permissions are not modelled.             *)
Module FS.

Inductive node :=
| Dir
| File
| Link (target : string).

#[global] Instance node_eq_dec : EqDecision node.
Proof. solve_decision. Defined.

Abbreviation files := (gmap (list string) node).

Definition MAXSYMLINKS : nat := 40.

(* the node at a canonical path; the root is always a directory *)
Definition kind (t : files) (p : list string) : option node :=
  match p with
  | [] => Some Dir
  | _ => t !! p
  end.

Definition parent (p : list string) : list string := removelast p.

Definition special (c : string) : bool :=
  bool_decide (c = "") || bool_decide (c = ".") || bool_decide (c = "..").

(* Walk the components from the directory cur. The result is the       *)
(* canonical path reached and the number of link traversals left.       *)
Fixpoint walk (t : files) (budget : nat)
  : list string → list string → result (nat * list string) :=
  fix go (cur : list string) (comps : list string) {struct comps} :=
    match comps with
    | [] => Ok (budget, cur)
    | c :: rest =>
        match kind t cur with
        | None => Raise (OSError ENOENT)
        | Some File | Some (Link _) => Raise (OSError ENOTDIR)
        | Some Dir =>
            if bool_decide (c = "") || bool_decide (c = ".") then go cur rest
            else if bool_decide (c = "..") then go (parent cur) rest
            else
              match t !! (cur ++ [c])%list with
              | None => Raise (OSError ENOENT)
              | Some (Link target) =>
                  match budget with
                  | O => Raise (OSError ELOOP)
                  | S budget' =>
                      if bool_decide (target = "") then Raise (OSError ENOENT)
                      else
                        walk t budget'
                          (if Path.isabs target then [] else cur)
                          (Path.components target ++ rest)%list
                  end
              | Some _ => go (cur ++ [c])%list rest
              end
        end
    end.

Definition start (cwd : list string) (path : string) : list string :=
  if Path.isabs path then [] else cwd.

Fixpoint unsnoc {A} (l : list A) : option (list A * A) :=
  match l with
  | [] => None
  | x :: l' =>
      match unsnoc l' with
      | None => Some ([], x)
      | Some (init, z) => Some (x :: init, z)
      end
  end.

(* stat(path): every link followed *)
Definition stat (t : files) (cwd : list string) (path : string)
  : result (list string * node) :=
  if bool_decide (path = "") then Raise (OSError ENOENT)
  else
    '(_, p) ← walk t MAXSYMLINKS (start cwd path) (Path.components path);
    match kind t p with
    | Some n => Ok (p, n)
    | None => Raise (OSError ENOENT)
    end.

(* The directory and the name a path designates when its last          *)
(* component is an ordinary name; None when the path ends in a slash,  *)
(* in "." or in "..".                                                  *)
Definition entry (t : files) (cwd : list string) (path : string)
  : result (option (list string)) :=
  if bool_decide (path = "") then Raise (OSError ENOENT)
  else
    match unsnoc (Path.components path) with
    | None => Raise (OSError ENOENT)
    | Some (init, name) =>
        if special name then Ok None
        else
          '(_, d) ← walk t MAXSYMLINKS (start cwd path) init;
          match kind t d with
          | Some Dir => Ok (Some (d ++ [name])%list)
          | Some _ => Raise (OSError ENOTDIR)
          | None => Raise (OSError ENOENT)
          end
    end.

(* lstat(path): the last component is not followed when it is a name *)
Definition lstat (t : files) (cwd : list string) (path : string)
  : result (list string * node) :=
  e ← entry t cwd path;
  match e with
  | None => stat t cwd path
  | Some e =>
      match t !! e with
      | Some n => Ok (e, n)
      | None => Raise (OSError ENOENT)
      end
  end.

(* os.path.exists, os.path.isdir, os.path.islink *)
Definition exists_ (t : files) (cwd : list string) (path : string) : bool :=
  match stat t cwd path with Ok _ => true | Raise _ => false end.

Definition isdir (t : files) (cwd : list string) (path : string) : bool :=
  match stat t cwd path with Ok (_, Dir) => true | _ => false end.

Definition islink (t : files) (cwd : list string) (path : string) : bool :=
  match lstat t cwd path with Ok (_, Link _) => true | _ => false end.

(* the place where mkdir or symlink puts a new node: it must be free *)
Definition free_entry (t : files) (cwd : list string) (path : string)
  : result (list string) :=
  e ← entry t cwd path;
  match e with
  | None => _ ← stat t cwd path; Raise (OSError EEXIST)
  | Some e =>
      match t !! e with
      | Some _ => Raise (OSError EEXIST)
      | None => Ok e
      end
  end.

(* os.symlink(src, dst) *)
Definition symlink (t : files) (cwd : list string) (src dst : string)
  : result files :=
  if bool_decide (src = "") then Raise (OSError ENOENT)
  else e ← free_entry t cwd dst; Ok (<[e := Link src]> t).

(* os.mkdir(path); trailing slashes do not count *)
Definition mkdir (t : files) (cwd : list string) (path : string)
  : result files :=
  if bool_decide (path = "") then Raise (OSError ENOENT)
  else
    let p := Path.rstrip_slash path in
    if bool_decide (p = "") then Raise (OSError EEXIST)
    else e ← free_entry t cwd p; Ok (<[e := Dir]> t).

(* os.unlink(path) *)
Definition unlink (t : files) (cwd : list string) (path : string)
  : result files :=
  '(e, n) ← lstat t cwd path;
  match n with
  | Dir => Raise (OSError EISDIR)
  | _ => Ok (delete e t)
  end.

(* os.makedirs(name). A failure inside the recursive call leaves what  *)
(* was already created in place, so the tree is returned in every      *)
(* case, next to the outcome.                                          *)
Fixpoint makedirs_fuel (fuel : nat) (t : files) (cwd : list string)
    (name : string) : files * result unit :=
  match fuel with
  | O => (t, Raise (OSError ELOOP))
  | S fuel' =>
      let '(head, tail) := Path.split name in
      let '(head, tail) :=
        if bool_decide (tail = "") then Path.split head else (head, tail) in
      let do_mkdir (t : files) :=
        match mkdir t cwd name with
        | Ok t' => (t', Ok tt)
        | Raise e => (t, Raise e)
        end in
      if negb (bool_decide (head = "")) && negb (bool_decide (tail = ""))
         && negb (exists_ t cwd head)
      then
        match makedirs_fuel fuel' t cwd head with
        | (t1, Ok _) | (t1, Raise (OSError EEXIST)) =>
            if bool_decide (tail = ".") then (t1, Ok tt) else do_mkdir t1
        | (t1, Raise e) => (t1, Raise e)
        end
      else do_mkdir t
  end.

Definition makedirs (t : files) (cwd : list string) (name : string)
  : files * result unit :=
  makedirs_fuel (S (String.length name)) t cwd name.

(* the canonical path as os.getcwd() prints it *)
Definition getcwd (cwd : list string) : string :=
  "/" +:+ Path.slash_join cwd.

(* os.path.abspath(path) *)
Definition abspath (cwd : list string) (path : string) : string :=
  Path.normpath
    (if Path.isabs path then path else Path.join (getcwd cwd) path).

(* the target of os.chdir(path) *)
Definition chdir (t : files) (cwd : list string) (path : string)
  : result (list string) :=
  '(p, n) ← stat t cwd path;
  match n with
  | Dir => Ok p
  | _ => Raise (OSError ENOTDIR)
  end.

(* the effect of rm -rf on one path: the entry and all below it go;    *)
(* nothing happens when the path designates nothing                    *)
Definition rm_rf (t : files) (cwd : list string) (path : string) : files :=
  match lstat t cwd path with
  | Ok (e, _) =>
      match entry t cwd path with
      | Ok (Some _) => filter (fun kv => ¬ e `prefix_of` kv.1) t
      | _ => t
      end
  | Raise _ => t
  end.

End FS.

(* --------------------------------------------------------------------- *)
(* The world the script acts on                                          *)
(* --------------------------------------------------------------------- *)

(* What the process does to its surroundings, in order. *)
Inductive event :=
| EPrint (line : string)
| EUrlopen (url : string)
| ESystem (cmd : string)
| EMakedirs (path : string)
| EUnlink (path : string)
| ESymlink (src dst : string)
| EChdir (path : string).

#[global] Instance event_eq_dec : EqDecision event.
Proof. solve_decision. Defined.

Record World := mkWorld {
  tree : FS.files;
  cwd : list string;
  trace : list event;
  linkinfo : Config.t
}.

(* The collaborators outside the script: the HTTP client, of which only  *)
(* the value of the status header (when there is one) is looked at, and  *)
(* the shell, which may change the tree in any way.                      *)
Record Env := {
  urlopen : string → result (option string);
  os_system : string → FS.files → list string → FS.files
}.

Definition emit (e : event) (w : World) : World :=
  mkWorld (tree w) (cwd w) (trace w ++ [e]) (linkinfo w).

Definition with_tree (t : FS.files) (w : World) : World :=
  mkWorld t (cwd w) (trace w) (linkinfo w).

Definition with_cwd (d : list string) (w : World) : World :=
  mkWorld (tree w) d (trace w) (linkinfo w).

Definition with_linkinfo (l : Config.t) (w : World) : World :=
  mkWorld (tree w) (cwd w) (trace w) l.

(* os.system(cmd) *)
Definition system (env : Env) (cmd : string) (w : World) : World :=
  let w := emit (ESystem cmd) w in
  with_tree (os_system env cmd (tree w) (cwd w)) w.

(* os.makedirs(name) *)
Definition makedirs (name : string) (w : World) : result World :=
  let w := emit (EMakedirs name) w in
  match FS.makedirs (tree w) (cwd w) name with
  | (t, Ok _) => Ok (with_tree t w)
  | (_, Raise e) => Raise e
  end.

(* os.chdir(path) *)
Definition chdir (path : string) (w : World) : result World :=
  let w := emit (EChdir path) w in
  d ← FS.chdir (tree w) (cwd w) path; Ok (with_cwd d w).

(* os.unlink(path) *)
Definition unlink (path : string) (w : World) : result World :=
  let w := emit (EUnlink path) w in
  t ← FS.unlink (tree w) (cwd w) path; Ok (with_tree t w).

(* os.symlink(src, dst) *)
Definition symlink (src dst : string) (w : World) : result World :=
  let w := emit (ESymlink src dst) w in
  t ← FS.symlink (tree w) (cwd w) src dst; Ok (with_tree t w).

(* --------------------------------------------------------------------- *)
(* Local helpers with effects                                            *)
(* --------------------------------------------------------------------- *)

(* _message *)
Definition _message (args : Args) (message : string) (w : World) : World :=
  if negb (very_quiet args) then emit (EPrint message) w else w.

(* _check_and_run_cmd *)
Definition _check_and_run_cmd (env : Env) (args : Args) (cmd msg : string)
    (w : World) : World :=
  if negb (bool_decide (cmd = ""))
  then system env cmd (_message args msg w)
  else _message args
         ("No such url, check " +:+ configfile args +:+ " for errors.") w.

(* _check_url; url is None for Python's None *)
Definition _check_url (env : Env) (url : option string) (w : World)
  : result (bool * World) :=
  match url with
  | None => Ok (false, w)
  | Some url =>
      if bool_decide (url = "") then Ok (false, w)
      else if negb (Str.startswith url "http") then Ok (true, w)
      else
        let w := emit (EUrlopen url) w in
        header ← urlopen env url;
        let status := match header with
                      | Some s => s
                      | None => "200 OK"
                      end in
        match Str.search_digits status with
        | None => Raise AttributeError
        | Some d =>
            Ok ((200 <=? Str.to_N d)%N && (Str.to_N d <? 400)%N, w)
        end
  end.

(* _ensure_dir *)
Definition _ensure_dir (env : Env) (args : Args) (config : Config.t)
    (library subdir : string) (w : World) : result (bool * World) :=
  extdir ← _extdir_from_library args config library;
  let path := Path.join extdir subdir in
  let '(create, w) :=
    if FS.exists_ (tree w) (cwd w) path then
      if force args then
        (true,
         system env ("rm -rf " +:+ path)
           (_message args ("Removing old version of " +:+ path) w))
      else (false, _message args (path +:+ " already exists") w)
    else (true, w) in
  w ← (if create then makedirs path w else Ok w);
  w ← chdir extdir w;
  Ok (create, w).

(* _fetch_from_repo *)
Definition _fetch_from_repo (env : Env) (args : Args) (config : Config.t)
    (library tag_or_branch : string) (w : World) : result World :=
  url ← Config.get config library "url";
  let progress := if quiet args then "-q" else "" in
  '(created, w) ← _ensure_dir env args config library tag_or_branch w;
  let '(msg, cmd) :=
    if (created : bool) return (string * string) then
      ("Cloning " +:+ url +:+ " into " +:+ tag_or_branch,
       "git clone " +:+ progress +:+ " " +:+ url +:+ " " +:+ tag_or_branch
       +:+ " && cd " +:+ tag_or_branch
       +:+ " && git checkout " +:+ progress +:+ " " +:+ tag_or_branch
       +:+ " && git submodule update --init --recursive")
    else
      ("Updating " +:+ tag_or_branch +:+ " from repo " +:+ url,
       "cd " +:+ tag_or_branch +:+ " && git fetch -t " +:+ progress
       +:+ " && git checkout --force " +:+ tag_or_branch
       +:+ " && git submodule update --init --recursive") in
  Ok (_check_and_run_cmd env args cmd msg w).

(* reading a local variable that may not have been assigned *)
Definition read_local {A} (name : string) (v : option A) : result A :=
  match v with
  | Some a => Ok a
  | None => Raise (UnboundLocalError name)
  end.

(* "%s" % v for a value that is a string or None *)
Definition str_of (v : option string) : string :=
  match v with
  | Some s => s
  | None => "None"
  end.

(* _fetch_from_provider *)
Definition _fetch_from_provider (env : Env) (args : Args) (config : Config.t)
    (library tag_or_branch provider : string) (w : World) : result World :=
  '(created, w) ← _ensure_dir env args config library tag_or_branch w;
  if (created : bool) then
    provider_data ← PROVIDERS_getitem provider;
    path_slice ← Config.get config library "url";
    url_tarball ←
      match tarball_path provider_data with
      | Some p =>
          u ← percent_format (path_prefix provider_data +:+ p)
                [path_slice; tag_or_branch];
          Ok (Some u)
      | None => Ok None
      end;
    url_zipball ←
      match zipball_path provider_data with
      | Some p =>
          u ← percent_format (path_prefix provider_data +:+ p)
                [path_slice; tag_or_branch];
          Ok (Some u)
      | None => Ok None
      end;
    let auth_ := match auth provider_data with
                 | Some a => "--user " +:+ a
                 | None => ""
                 end in
    let progress := if quiet args then "--silent" else "--progress" in
    '(ok_tar, w) ← _check_url env url_tarball w;
    '(locals, w) ←
      ((if (ok_tar : bool) then
         let ball_url := str_of url_tarball in
         Ok (Some ("curl " +:+ progress +:+ " " +:+ auth_
                   +:+ " --insecure --location " +:+ ball_url
                   +:+ " | tar zxf - -C " +:+ tag_or_branch
                   +:+ " --strip-components 1",
                   "tarball"), w)
       else
         '(ok_zip, w) ← _check_url env url_zipball w;
         if (ok_zip : bool) then
           let ball_url := str_of url_zipball in
           Ok (Some ("curl " +:+ progress +:+ " " +:+ auth_
                     +:+ " --insecure --location " +:+ ball_url
                     +:+ " | xargs -0 unzip",
                     "zipball"), w)
         else Ok (None, w)) : result (option (string * string) * World));
    cmd ← read_local "cmd" (fst <$> locals);
    ball_type ← read_local "ball_type" (snd <$> locals);
    Ok (_check_and_run_cmd env args cmd
          ("Fetching " +:+ ball_type +:+ " " +:+ path_slice +:+ "/"
           +:+ tag_or_branch +:+ " from " +:+ Str.capitalize provider) w)
  else Ok w.

(* --------------------------------------------------------------------- *)
(* Action methods                                                        *)
(* --------------------------------------------------------------------- *)

(* the body of the loop of _do_update *)
Definition update_library (env : Env) (args : Args) (config : Config.t)
    (library : string) (w : World) : result World :=
  tag_or_branch ← _tag_or_branch config library;
  provider ← _type config library;
  if bool_decide (provider = "repo")
  then _fetch_from_repo env args config library tag_or_branch w
  else if in_PROVIDERS provider
  then _fetch_from_provider env args config library tag_or_branch provider w
  else Ok (_message args ("Unknown library type '" +:+ provider +:+ "'") w).

(* a for loop whose body may raise *)
Fixpoint for_each {A} (body : A → World → result World) (l : list A)
    (w : World) : result World :=
  match l with
  | [] => Ok w
  | x :: l' => w' ← body x w; for_each body l' w'
  end.

(* _do_update *)
Definition _do_update (env : Env) (args : Args) (config : Config.t)
    (w : World) : result World :=
  let curdir := FS.getcwd (cwd w) in
  w ← for_each (update_library env args config) (Config.sections config) w;
  chdir curdir w.

(* the registration of one link in the linkinfo file *)
Definition record_link (args : Args) (link_to : string) (w : World)
  : result World :=
  let sect := FS.abspath (cwd w) (libroot args) in
  '(count, li) ←
    match Config.options (linkinfo w) sect with
    | Ok opts => Ok (List.length opts, linkinfo w)
    | Raise (NoSectionError _) => Ok (0, Config.add_section (linkinfo w) sect)
    | Raise e => Raise e
    end;
  li ← Config.set li sect (Str.of_nat (count + 1)) (FS.abspath (cwd w) link_to);
  Ok (with_linkinfo li w).

(* the body of the inner loop of _do_link *)
Definition link_pair (args : Args) (config : Config.t) (library : string)
    (keys : string * string) (w : World) : result World :=
  let '(from_key, to_key) := keys in
  extdir ← _extdir_from_library args config library;
  tag_or_branch ← _tag_or_branch config library;
  from_value ← Config.get config library from_key;
  let link_from := Path.join3 extdir tag_or_branch from_value in
  to_value ← Config.get config library to_key;
  let link_to := Path.join (libroot args) to_value in
  w ← (if negb (FS.isdir (tree w) (cwd w) (Path.dirname link_to))
       then makedirs (Path.dirname link_to) w
       else Ok w);
  let w := _message args
             ("Creating symlink from " +:+ link_from +:+ " to " +:+ link_to) w in
  w ← (if FS.islink (tree w) (cwd w) link_to then unlink link_to w else Ok w);
  w ← (if negb (FS.exists_ (tree w) (cwd w) link_to)
       then symlink link_from link_to w
       else Ok w);
  record_link args link_to w.

(* the body of the outer loop of _do_link *)
Definition link_library (args : Args) (config : Config.t) (library : string)
    (w : World) : result World :=
  links ← _get_links config library;
  for_each (link_pair args config library) links w.

(* _do_link *)
Definition _do_link (args : Args) (config : Config.t) (w : World)
  : result World :=
  for_each (link_library args config) (Config.sections config) w.

(* --------------------------------------------------------------------- *)
(* Vocabulary of the statements                                          *)
(* --------------------------------------------------------------------- *)

(* The value a library's section gives an option, its own first and the  *)
(* DEFAULT section's otherwise; None when the option is not configured.  *)
Definition configured (config : Config.t) (library opt : string)
  : option string :=
  match Config.assoc library (Config.sections_ config) with
  | None => None
  | Some d =>
      match Config.assoc opt d with
      | Some v => Some v
      | None => Config.assoc opt (Config.defaults config)
      end
  end.

(* The names the parser gives sections: never empty, never DEFAULT. *)
Definition section_name (library : string) : Prop :=
  library ≠ "" ∧ library ≠ "DEFAULT".

(* link_from or link_from.N among the four keys of the example *)
Definition is_from_key (k : string) : bool :=
  bool_decide (k = "link_from") || bool_decide (k = "link_from.1").

(* the link_to key bearing the suffix of a link_from key *)
Definition to_key_of (k : string) : string :=
  match Str.strip_prefix "link_from" k with
  | Some suffix => "link_to" +:+ suffix
  | None => k
  end.

(* a dot and at least one digit come first *)
Definition dot_digits_first (rest : string) : bool :=
  match rest with
  | String d (String c _) => bool_decide (d = "."%char) && Str.is_digit c
  | _ => false
  end.



(* The two halves of the body of the inner loop of _do_link: the two    *)
(* path names, which only the configuration decides, and what is done   *)
(* with them.                                                           *)
Definition link_endpoints (args : Args) (config : Config.t)
    (library : string) (keys : string * string) : result (string * string) :=
  extdir ← _extdir_from_library args config library;
  tag_or_branch ← _tag_or_branch config library;
  from_value ← Config.get config library keys.1;
  to_value ← Config.get config library keys.2;
  Ok (Path.join3 extdir tag_or_branch from_value,
      Path.join (libroot args) to_value).

Definition link_at (args : Args) (link_from link_to : string) (w : World)
  : result World :=
  w ← (if negb (FS.isdir (tree w) (cwd w) (Path.dirname link_to))
       then makedirs (Path.dirname link_to) w
       else Ok w);
  let w := _message args
             ("Creating symlink from " +:+ link_from +:+ " to " +:+ link_to) w in
  w ← (if FS.islink (tree w) (cwd w) link_to then unlink link_to w else Ok w);
  w ← (if negb (FS.exists_ (tree w) (cwd w) link_to)
       then symlink link_from link_to w
       else Ok w);
  record_link args link_to w.

(* No symbolic link is removed in a stretch of the trace. *)
Definition removes_nothing (d : list event) : Prop :=
  ∀ p, EUnlink p ∉ d.

(* A link destination is settled in a tree when another visit of the    *)
(* link pass leaves the tree as it is: the directory part is there, and *)
(* either the destination is the link the pass makes (and taking it     *)
(* away does not disturb the way to it), or something that is not a     *)
(* link sits there.                                                     *)
Definition settled (t : FS.files) (cwd : list string)
    (link_from link_to : string) : Prop :=
  FS.isdir t cwd (Path.dirname link_to) = true
  ∧ ((∃ e, FS.entry t cwd link_to = Ok (Some e)
           ∧ t !! e = Some (FS.Link link_from)
           ∧ FS.entry (delete e t) cwd link_to = Ok (Some e)
           ∧ link_from ≠ "")
     ∨ (∃ e n, FS.lstat t cwd link_to = Ok (e, n) ∧ ∀ x, n ≠ FS.Link x)).

(* A step of a pass can be replayed when, having run once without       *)
(* removing a link, it succeeds again on every tree that contains the   *)
(* one it left and changes nothing there.                               *)
Definition replayable (f : World → result World) : Prop :=
  (∀ w w', f w = Ok w' → ∃ d, trace w' = (trace w ++ d)%list)
  ∧ (∀ w w' d, f w = Ok w' → trace w' = (trace w ++ d)%list →
       removes_nothing d →
       tree w ⊆ tree w' ∧ cwd w' = cwd w
       ∧ ∀ v, tree w' ⊆ tree v → cwd v = cwd w →
              ∃ v', f v = Ok v' ∧ tree v' = tree v ∧ cwd v' = cwd v).

(* --------------------------------------------------------------------- *)
(* Concrete configurations and worlds                                    *)
(* --------------------------------------------------------------------- *)

Definition dojo_config : Config.t :=
  Config.mk []
    [("Dojo", [("type", "Github"); ("url", "dojo/dojo"); ("tag", "1.7.1");
               ("link_from", "."); ("link_to", "vendor/dojo")])].

Definition dojo_args : Args :=
  {| quiet := false; very_quiet := false; extroot := "/ext";
     libroot := "/proj"; force := false; update := true; link := true;
     configfile := "libraries.ini" |}.




Definition branch_only_config : Config.t :=
  Config.mk []
    [("Lib", [("type", "repo"); ("url", "git://host/lib.git");
              ("branch", "master")])].

Definition four_keys_config : Config.t :=
  Config.mk []
    [("Lib", [("link_from", "."); ("link_to", "vendor/lib");
              ("link_from.1", "doc"); ("link_to.1", "vendor/lib-doc")])].


(* a server that answers every request with status 404, and a shell      *)
(* whose commands leave the tree alone                                   *)
Definition env_all_404 : Env :=
  {| urlopen := fun _ => Ok (Some "404 Not Found");
     os_system := fun _ t _ => t |}.

(* a server whose responses carry no status header *)
Definition env_no_status : Env :=
  {| urlopen := fun _ => Ok None;
     os_system := fun _ t _ => t |}.

(* /ext and /proj exist and are empty; the process runs in the root *)
Definition fresh_world : World :=
  mkWorld {[ ["ext"] := FS.Dir; ["proj"] := FS.Dir ]} [] [] (Config.mk [] []).

Definition unknown_type_config : Config.t :=
  Config.mk []
    [("Lib", [("type", "svn"); ("url", "svn://host/lib"); ("tag", "1.0");
              ("link_from", "."); ("link_to", "vendor/lib")])].

(* two destinations, the first inside the second *)
Definition nested_config : Config.t :=
  Config.mk []
    [("Lib", [("type", "repo"); ("url", "u"); ("tag", "t");
              ("link_from", "x"); ("link_to", "s/b");
              ("link_from.1", "y"); ("link_to.1", "s")])].

(* /proj/s is a link to the directory /real, left by an earlier          *)
(* configuration                                                         *)
Definition stale_link_world : World :=
  mkWorld {[ ["ext"] := FS.Dir; ["proj"] := FS.Dir; ["real"] := FS.Dir;
             ["proj"; "s"] := FS.Link "/real" ]}
          [] [] (Config.mk [] []).

(* the world a pass leaves, the starting world itself if the pass raises *)
Definition after (r : result World) (w : World) : World :=
  match r with
  | Ok w' => w'
  | Raise _ => w
  end.

(* no event of a stretch of the trace is the removal of a link *)
Definition no_unlink (d : list event) : bool :=
  forallb (fun e => match e with EUnlink _ => false | _ => true end) d.

(* the last component as makedirs sees it: that of the path without its *)
(* trailing slash when there is one                                      *)
Definition makedirs_tail (name : string) : string :=
  let '(head, tail) := Path.split name in
  if bool_decide (tail = "") then (Path.split head).2 else tail.

(* a shell that knows rm -rf of one path and nothing else *)
Definition env_rm_rf : Env :=
  {| urlopen := fun _ => Ok None;
     os_system := fun cmd t cwd =>
       match Str.strip_prefix "rm -rf " cmd with
       | Some path => FS.rm_rf t cwd path
       | None => t
       end |}.


(* the Dojo checkout is there, with a file in it *)
Definition checkout_world : World :=
  mkWorld {[ ["ext"] := FS.Dir; ["proj"] := FS.Dir;
             ["ext"; "https___github_com_dojo_dojo"] := FS.Dir;
             ["ext"; "https___github_com_dojo_dojo"; "1.7.1"] := FS.Dir;
             ["ext"; "https___github_com_dojo_dojo"; "1.7.1"; "dojo.js"] := FS.File ]}
          [] [] (Config.mk [] []).

(* what a call returns, a default standing in if it raises *)
Definition outcome {A} (r : result A) (d : A) : A :=
  match r with
  | Ok a => a
  | Raise _ => d
  end.

(* --------------------------------------------------------------------- *)
(* The unlink pass and the entry point                                   *)
(* --------------------------------------------------------------------- *)

(* config.items(section): the DEFAULT options first, each overridden in  *)
(* place by the section's value, then the section's other options. A     *)
(* value without a percent sign is returned as it is stored; the         *)
(* interpolation of the others is not unfolded, and what is stated about *)
(* the unlink pass is stated for registries without them.                *)
Definition Config_items (c : Config.t) (section : string)
  : result (list (string * string)) :=
  match Config.assoc section (Config.sections_ c) with
  | Some d =>
      Ok (fold_left (fun acc kv => Config.dict_set kv.1 kv.2 acc) d
            (Config.defaults c))
  | None =>
      if bool_decide (section = "DEFAULT") then Ok (Config.defaults c)
      else Raise (NoSectionError section)
  end.

(* del d[k] on an ordered dictionary (a key occurs once in a dictionary) *)
Fixpoint dict_del {V} (k : string) (l : list (string * V))
  : list (string * V) :=
  match l with
  | [] => []
  | (k', v) :: l' =>
      if decide (k' = k) then dict_del k l' else (k', v) :: dict_del k l'
  end.

(* config.remove_section(section) *)
Definition Config_remove_section (c : Config.t) (section : string)
  : Config.t :=
  Config.mk (Config.defaults c) (dict_del section (Config.sections_ c)).

(* No value that items returns for the section holds a percent sign:    *)
(* no interpolation takes place.                                         *)
Definition plain_items (c : Config.t) (section : string) : bool :=
  match Config_items c section with
  | Ok items => forallb (fun kv => negb (Str.contains_char "%" kv.2)) items
  | Raise _ => true
  end.

(* the world a link pass for the two nested destinations leaves *)
Definition linked_world : World :=
  after (_do_link dojo_args nested_config fresh_world) fresh_world.

(* a node lies strictly below the entry e *)
Definition below (e k : list string) : bool :=
  bool_decide (e `prefix_of` k) && negb (bool_decide (k = e)).

(* os.rmdir(path): the path must designate, by an ordinary last name     *)
(* that is not followed, a directory with nothing in it. Every failure   *)
(* is an OSError; its number is not kept, the one caller catching them   *)
(* all.                                                                  *)
Definition FS_rmdir (t : FS.files) (cwd : list string) (path : string)
  : option FS.files :=
  if bool_decide (path = "") then None
  else
    let p := Path.rstrip_slash path in
    if bool_decide (p = "") then None
    else
      match FS.entry t cwd p with
      | Ok (Some e) =>
          match t !! e with
          | Some FS.Dir =>
              if forallb (fun kv => negb (below e kv.1)) (map_to_list t)
              then Some (delete e t)
              else None
          | _ => None
          end
      | _ => None
      end.

(* the loop of os.removedirs: parents go as long as they can be removed *)
Fixpoint removedirs_loop (fuel : nat) (t : FS.files) (cwd : list string)
    (head tail : string) : FS.files :=
  match fuel with
  | O => t
  | S fuel' =>
      if negb (bool_decide (head = "")) && negb (bool_decide (tail = ""))
      then match FS_rmdir t cwd head with
           | None => t
           | Some t' =>
               let '(head', tail') := Path.split head in
               removedirs_loop fuel' t' cwd head' tail'
           end
      else t
  end.

(* os.removedirs(name), as its one caller sees it: whether it raises or  *)
(* not, what counts is the tree it leaves.                               *)
Definition FS_removedirs (t : FS.files) (cwd : list string) (name : string)
  : FS.files :=
  match FS_rmdir t cwd name with
  | None => t
  | Some t' =>
      let '(head, tail) := Path.split name in
      let '(head, tail) :=
        if bool_decide (tail = "") then Path.split head else (head, tail) in
      removedirs_loop (S (String.length name)) t' cwd head tail
  end.

(* the body of the loop of _do_unlink; removedirs leaves no event of its *)
(* own in the trace                                                      *)
Definition unlink_recorded (item : string * string) (w : World)
  : result World :=
  let link_ := item.2 in
  w ← (if FS.islink (tree w) (cwd w) link_ then unlink link_ w else Ok w);
  Ok (with_tree (FS_removedirs (tree w) (cwd w) (Path.dirname link_)) w).

(* _do_unlink *)
Definition _do_unlink (args : Args) (w : World) : result World :=
  let sect := FS.abspath (cwd w) (libroot args) in
  if Config.has_section (linkinfo w) sect then
    items ← Config_items (linkinfo w) sect;
    w ← for_each unlink_recorded items w;
    Ok (with_linkinfo (Config_remove_section (linkinfo w) sect) w)
  else Ok w.

(* _linkinfo_file *)
Definition _linkinfo_file (args : Args) : string :=
  Path.join (extroot args) "linkinfo.ini".

(* run, once _args has parsed the command line and read the two files *)
Definition run (env : Env) (args : Args) (config : Config.t) (w : World)
  : result World :=
  w ← (if update args then _do_update env args config w else Ok w);
  if link args then
    w ← _do_unlink args w;
    _do_link args config w
  else Ok w.

(* --------------------------------------------------------------------- *)
(* Further vocabulary                                                    *)
(* --------------------------------------------------------------------- *)

Fixpoint all_digits (s : string) : bool :=
  match s with
  | EmptyString => true
  | String c s' => Str.is_digit c && all_digits s'
  end.

(* the suffix of a link key: nothing, or a dot and one digit or more *)
Definition link_suffix (s : string) : bool :=
  match s with
  | EmptyString => true
  | String c digits =>
      bool_decide (c = "."%char) && negb (bool_decide (digits = ""))
      && all_digits digits
  end.


(* the candidate archive URLs of a provider, as _fetch_from_provider     *)
(* builds them                                                           *)
Definition candidate_url (pd : provider_data) (path : option string)
    (path_slice tag_or_branch : string) : result (option string) :=
  match path with
  | Some p =>
      u ← percent_format (path_prefix pd +:+ p) [path_slice; tag_or_branch];
      Ok (Some u)
  | None => Ok None
  end.

Fixpoint no_digit (s : string) : bool :=
  match s with
  | EmptyString => true
  | String c s' => negb (Str.is_digit c) && no_digit s'
  end.

Definition lone_backup_config : Config.t :=
  Config.mk []
    [("Lib", [("type", "repo"); ("url", "git://host/lib.git"); ("tag", "1.0");
              ("link_from.10x", "a"); ("link_to.10", "b");
              ("link_from.", "c"); ("link_target", "d")])].

(* a server whose status header has no digit in it *)
Definition env_odd_status : Env :=
  {| urlopen := fun _ => Ok (Some "Not Found");
     os_system := fun _ t _ => t |}.

(* a node that is not a symbolic link *)
Definition not_link (n : FS.node) : bool :=
  match n with
  | FS.Link _ => false
  | _ => true
  end.

(* what the link pass may do: print, make directories, remove and make  *)
(* links                                                                 *)
Definition link_event (e : event) : bool :=
  match e with
  | EPrint _ | EMakedirs _ | EUnlink _ | ESymlink _ _ => true
  | _ => false
  end.

(* what the update pass may do: everything but removing and making links *)
Definition update_event (e : event) : bool :=
  match e with
  | EUnlink _ | ESymlink _ _ => false
  | _ => true
  end.

(* the events of the unlink pass *)
Definition unlink_event (e : event) : bool :=
  match e with
  | EUnlink _ => true
  | _ => false
  end.

(* A step keeps the nodes that are not links, leaves the working         *)
(* directory alone and adds only events of one kind to the trace.        *)
Definition tame (allowed : event → bool) (f : World → result World) : Prop :=
  ∀ w w', f w = Ok w' →
    cwd w' = cwd w
    ∧ (∃ d, trace w' = (trace w ++ d)%list ∧ forallb allowed d = true)
    ∧ ∀ p n, tree w !! p = Some n → not_link n = true → tree w' !! p = Some n.

(* One tree is what is left of another when links and directories have  *)
(* been taken away: nothing is new, and every regular file is kept.      *)
Definition pruned (t t' : FS.files) : Prop :=
  t' ⊆ t ∧ ∀ p, t !! p = Some FS.File → t' !! p = Some FS.File.

(* The registry is as it was and the trace has grown by events of the   *)
(* update pass only.                                                     *)
Definition registry_kept (w w' : World) : Prop :=
  linkinfo w' = linkinfo w
  ∧ ∃ d, trace w' = (trace w ++ d)%list ∧ forallb update_event d = true.

(* a library with no version reference after one that has one *)
Definition missing_ref_config : Config.t :=
  Config.mk []
    [("First", [("type", "repo"); ("url", "git://host/first.git");
                ("tag", "1.0")]);
     ("Second", [("type", "repo"); ("url", "git://host/second.git")]);
     ("Third", [("type", "repo"); ("url", "git://host/third.git");
                ("branch", "master")])].

(* --------------------------------------------------------------------- *)
(* The link registry                                                     *)
(* --------------------------------------------------------------------- *)

(* the options "k", "k+1", ... with the given values *)
Fixpoint numbered_from (k : nat) (values : list string)
  : list (string * string) :=
  match values with
  | [] => []
  | v :: values' => (Str.of_nat k, v) :: numbered_from (S k) values'
  end.

(* the results of a loop whose body yields a list, in order *)
Fixpoint collect {A B} (f : A → result (list B)) (l : list A)
  : result (list B) :=
  match l with
  | [] => Ok []
  | x :: l' => ys ← f x; zs ← collect f l'; Ok (ys ++ zs)%list
  end.

(* the link destinations of the configuration, in the order in which    *)
(* _do_link visits them                                                  *)
Definition library_destinations (args : Args) (config : Config.t)
    (library : string) : result (list string) :=
  links ← _get_links config library;
  collect (fun keys => p ← link_endpoints args config library keys; Ok [p.2])
    links.

Definition link_destinations (args : Args) (config : Config.t)
  : result (list string) :=
  collect (library_destinations args config) (Config.sections config).

(* The registry reg holds, for the section sect, exactly the values      *)
(* numbered from 1 (no section at all when there is no value); it has no *)
(* DEFAULT options, and its other sections are those of reg0.            *)
Definition registered (reg0 : Config.t) (sect : string) (values : list string)
    (reg : Config.t) : Prop :=
  Config.defaults reg = []
  ∧ Config.assoc sect (Config.sections_ reg)
    = match values with
      | [] => None
      | _ => Some (numbered_from 1 values)
      end
  ∧ ∀ s, s ≠ sect →
      Config.assoc s (Config.sections_ reg) = Config.assoc s (Config.sections_ reg0).

(* A value SafeConfigParser.set refuses: it holds a percent sign that is *)
(* neither doubled nor the start of a reference "%(name)s".              *)
Definition refused_value (value : string) : bool :=
  let tmp_value := Str.remove_double_percent value in
  Str.contains_char "%"
    (Str.remove_interpvars (String.length tmp_value) tmp_value).

(* a destination with a percent sign in its name *)
Definition percent_config : Config.t :=
  Config.mk []
    [("Lib", [("type", "repo"); ("url", "u"); ("tag", "t");
              ("link_from", "x"); ("link_to", "100%")])].

(* --------------------------------------------------------------------- *)
(* The working directory                                                 *)
(* --------------------------------------------------------------------- *)

(* a name of a directory entry: not empty, not "." or "..", no slash *)
Definition ordinary_name (x : string) : bool :=
  negb (FS.special x) && negb (Str.contains_char "/" x).

(* From the directory cur, the names lead down through directories of   *)
(* the tree, none of them a link.                                        *)
Fixpoint directories_from (t : FS.files) (cur names : list string) : bool :=
  match names with
  | [] => true
  | x :: names' =>
      ordinary_name x
      && bool_decide (t !! (cur ++ [x])%list = Some FS.Dir)
      && directories_from t (cur ++ [x])%list names'
  end.

(* No command of the shell removes or replaces a directory. *)
Definition keeps_directories (env : Env) : Prop :=
  ∀ cmd t c p, t !! p = Some FS.Dir → os_system env cmd t c !! p = Some FS.Dir.

(* every directory of the first world is one of the second *)
Definition directories_kept (w w' : World) : Prop :=
  ∀ p, tree w !! p = Some FS.Dir → tree w' !! p = Some FS.Dir.

(* the process runs in /proj *)
Definition project_world : World :=
  mkWorld (tree fresh_world) ["proj"] [] (Config.mk [] []).

(* --------------------------------------------------------------------- *)
(* Fetching from a repository                                            *)
(* --------------------------------------------------------------------- *)

(* what the fetch from a repository may do before its command: print,   *)
(* run rm -rf, make directories and change directory                     *)
Definition local_event (e : event) : bool :=
  match e with
  | EUrlopen _ | EUnlink _ | ESymlink _ _ => false
  | _ => true
  end.

(* the trace has grown by events of one kind *)
Definition grows_by (allowed : event → bool) (w w' : World) : Prop :=
  ∃ d, trace w' = (trace w ++ d)%list ∧ forallb allowed d = true.

(* --------------------------------------------------------------------- *)
(* What the pattern of _get_links captures                               *)
(* --------------------------------------------------------------------- *)



(* --------------------------------------------------------------------- *)
(* The command line of a run with given quiet flags                      *)
(* --------------------------------------------------------------------- *)

(* -q and -Q as given, everything else as in dojo_args *)
Definition flag_args (q vq : bool) : Args :=
  {| quiet := q; very_quiet := vq; extroot := "/ext";
     libroot := "/proj"; force := false; update := true; link := true;
     configfile := "libraries.ini" |}.

(* --------------------------------------------------------------------- *)
(* The state in which _ensure_dir finds the storage                      *)
(* --------------------------------------------------------------------- *)






(* ===================================================================== *)
(* Properties                                                            *)
(* ===================================================================== *)

(* --------------------------------------------------------------------- *)
(* The storage directory name                                            *)
(* --------------------------------------------------------------------- *)
Lemma str_app_empty_r (s : string) : s +:+ "" = s.
Proof.
  induction s as [|c s IH]; [done|].
  change (String c (s +:+ "") = String c s). by rewrite IH.
Qed.

Lemma str_app_assoc (a b c : string) : (a +:+ b) +:+ c = a +:+ (b +:+ c).
Proof.
  induction a as [|x a IH]; [done|].
  change (String x ((a +:+ b) +:+ c) = String x (a +:+ (b +:+ c))).
  by rewrite IH.
Qed.

Section StorageDirectory.

Lemma re_sub_nonword_length (s : string) :
  String.length (re_sub_nonword s) = String.length s.
Proof.
  induction s as [|c s IH]; simpl; [done|].
  destruct (Str.is_word c); simpl; by rewrite IH.
Qed.

Lemma re_sub_nonword_get (s : string) (i : nat) :
  String.get i (re_sub_nonword s) = filler_or_self <$> String.get i s.
Proof.
  revert i. induction s as [|c s IH]; intros i; simpl; [done|].
  unfold filler_or_self at 1.
  destruct (Str.is_word c) eqn:Hc; destruct i as [|i]; simpl;
    rewrite ?IH; try done; unfold filler_or_self; by rewrite Hc.
Qed.

Lemma re_sub_nonword_all_word (s : string) (i : nat) (c : ascii) :
  String.get i (re_sub_nonword s) = Some c → Str.is_word c = true.
Proof.
  rewrite re_sub_nonword_get. destruct (String.get i s) as [a|]; [|done].
  simpl. intros [= <-]. unfold filler_or_self.
  destruct (Str.is_word a) eqn:Ha; [done|]. reflexivity.
Qed.

Lemma namespace_key_render (ty url key : string) :
  namespace_key ty url = Some key →
  (if bool_decide (ty = "repo") then Ok url
   else pd ← PROVIDERS_getitem ty; percent_format (path_prefix pd) [url])
  = Ok key.
Proof.
  unfold namespace_key. case_bool_decide as Hrepo; [by intros [= ->]|].
  repeat (case_bool_decide;
          [subst ty; intros [= <-]; cbv -[String.append];
           by rewrite str_app_empty_r|]).
  done.
Qed.

(** C1, as amended: for a library of type repo or of a known provider,
    the storage directory is the external-libraries root joined with the
    namespace key in which every single non-word character has been
    replaced by one filler character (same length, changed position by
    position, so a run of k such characters gives k fillers); the result
    depends on the root, the type and the locator only. *)
Theorem extdir_replaces_each_nonword_char
    (args : Args) (config : Config.t) (library url ty key : string) :
  Config.get config library "url" = Ok url →
  Config.get config library "type" = Ok ty →
  namespace_key (Str.lower ty) url = Some key →
  _extdir_from_library args config library
    = Ok (Path.join (extroot args) (re_sub_nonword key))
  ∧ String.length (re_sub_nonword key) = String.length key
  ∧ (∀ i, String.get i (re_sub_nonword key)
          = filler_or_self <$> String.get i key)
  ∧ (∀ args' config' library',
       Config.get config' library' "url" = Ok url →
       Config.get config' library' "type" = Ok ty →
       extroot args' = extroot args →
       _extdir_from_library args' config' library'
       = _extdir_from_library args config library).
Proof.
  intros Hurl Hty Hkey.
  assert (Hgen : ∀ a c l,
    Config.get c l "url" = Ok url → Config.get c l "type" = Ok ty →
    _extdir_from_library a c l
    = Ok (Path.join (extroot a) (re_sub_nonword key))).
  { intros a c l Hu Ht. unfold _extdir_from_library, _type.
    rewrite Hu, Ht. cbn.
    pose proof (namespace_key_render _ _ _ Hkey) as Hr.
    cbn in Hr. by rewrite Hr. }
  split; [by apply Hgen|].
  split; [apply re_sub_nonword_length|].
  split; [apply re_sub_nonword_get|].
  intros a c l Hu Ht He. rewrite (Hgen a c l Hu Ht), (Hgen _ _ _ Hurl Hty).
  by rewrite He.
Qed.

End StorageDirectory.

Lemma extdir_replaces_each_nonword_char_witness :
  _extdir_from_library dojo_args dojo_config "Dojo"
  = Ok "/ext/https___github_com_dojo_dojo".
Proof.
  destruct (extdir_replaces_each_nonword_char dojo_args dojo_config "Dojo"
              "dojo/dojo" "Github" "https://github.com/dojo/dojo")
    as [H _]; [reflexivity | reflexivity | reflexivity |].
  exact H.
Defined.

(** C1, as stated, fails: for the key https://github.com/dojo/dojo the
    code yields https___github_com_dojo_dojo, one filler for each of the
    three characters of the run, where collapsing runs would give
    https_github_com_dojo_dojo. *)
Lemma extdir_does_not_collapse_runs :
  collapse_nonword_runs "https://github.com/dojo/dojo"
    = "https_github_com_dojo_dojo"
  ∧ re_sub_nonword "https://github.com/dojo/dojo"
    ≠ collapse_nonword_runs "https://github.com/dojo/dojo"
  ∧ _extdir_from_library dojo_args dojo_config "Dojo"
    ≠ Ok (Path.join "/ext" "https_github_com_dojo_dojo").
Proof. split; [reflexivity|]. split; by vm_compute. Qed.

(* --------------------------------------------------------------------- *)
(* Version references                                                    *)
(* --------------------------------------------------------------------- *)
Section VersionReference.

Lemma has_option_configured (config : Config.t) (library opt : string) :
  section_name library →
  Config.optionxform opt = opt →
  Config.has_option config library opt
  = bool_decide (is_Some (configured config library opt)).
Proof.
  intros [Hne Hnd] Hopt. unfold Config.has_option, configured.
  rewrite !bool_decide_eq_false_2 by done. simpl. rewrite Hopt.
  unfold Config.has_key.
  destruct (Config.assoc library _) as [d|]; [|done].
  destruct (Config.assoc opt d); [done|].
  by destruct (Config.assoc opt _).
Qed.

Lemma get_configured (config : Config.t) (library opt : string) :
  Config.has_section config library = true →
  Config.optionxform opt = opt →
  Config.get config library opt
  = match configured config library opt with
    | Some v => Ok v
    | None => Raise (NoOptionError opt library)
    end.
Proof.
  unfold Config.has_section, Config.has_key, Config.get, configured.
  intros Hs Hopt. rewrite Hopt.
  destruct (Config.assoc library _) as [d|]; [|done]. cbn.
  destruct (Config.assoc opt d); [done|].
  by destruct (Config.assoc opt _).
Qed.


End VersionReference.


(* --------------------------------------------------------------------- *)
(* Link pairs                                                            *)
(* --------------------------------------------------------------------- *)
Section LinkPairs.

Lemma get_links_loop_flat_map (keys : list string) (acc : list (string * string)) :
  get_links_loop keys acc = (acc ++ flat_map link_pair_of_key keys)%list.
Proof.
  revert acc. induction keys as [|k keys IH]; intros acc; simpl.
  - by rewrite app_nil_r.
  - by rewrite IH, <- app_assoc.
Qed.

Lemma get_links_unfold (config : Config.t) (library : string)
    (keys : list string) :
  Config.options config library = Ok keys →
  _get_links config library = Ok (flat_map link_pair_of_key keys).
Proof.
  intros H. unfold _get_links. rewrite H. cbn.
  by rewrite get_links_loop_flat_map.
Qed.


Lemma link_pair_of_key_prefix (rest : string) :
  ∃ p, link_pair_of_key ("link_from" +:+ rest) = [p].
Proof.
  unfold link_pair_of_key, match_link_from.
  change (Str.strip_prefix "link_from" ("link_from" +:+ rest)) with (Some rest).
  destruct rest as [|c after]; [by eexists|].
  destruct (_ && _); by eexists.
Qed.

Lemma link_pair_of_key_base (rest : string) :
  dot_digits_first rest = false →
  link_pair_of_key ("link_from" +:+ rest) = [("link_from", "link_to")].
Proof.
  intros H. unfold link_pair_of_key, match_link_from.
  change (Str.strip_prefix "link_from" ("link_from" +:+ rest)) with (Some rest).
  destruct rest as [|c after]; [done|].
  destruct after as [|c' after]; simpl in *.
  - by rewrite andb_false_r.
  - destruct (bool_decide (c = "."%char)); simpl in *; [|done].
    by rewrite H.
Qed.

Lemma link_pair_of_four_keys (k : string) :
  k ∈ ["link_from"; "link_to"; "link_from.1"; "link_to.1"] →
  link_pair_of_key k
  = if is_from_key k then [(k, to_key_of k)] else [].
Proof.
  intros H. repeat (apply elem_of_cons in H as [->|H]; [reflexivity|]).
  by apply elem_of_nil in H.
Qed.

Lemma flat_map_four_keys (keys : list string) :
  Forall (λ k, k ∈ ["link_from"; "link_to"; "link_from.1"; "link_to.1"]) keys →
  flat_map link_pair_of_key keys
  = (λ k, (k, to_key_of k)) <$> filter (λ k, is_from_key k = true) keys.
Proof.
  induction 1 as [|k keys Hk _ IH]; [done|].
  simpl. rewrite IH, (link_pair_of_four_keys k Hk), filter_cons.
  destruct (is_from_key k) eqn:E; case_decide; try done.
Qed.

(** C7: for a library whose option keys are exactly link_from, link_to,
    link_from.1 and link_to.1 (in whatever order the file lists them),
    _get_links returns exactly two pairs: each link_from key with the
    link_to key of the same suffix, in the relative order of the
    link_from keys. *)
Theorem get_links_four_keys
    (config : Config.t) (library : string) (keys : list string) :
  Config.options config library = Ok keys →
  keys ≡ₚ ["link_from"; "link_to"; "link_from.1"; "link_to.1"] →
  ∃ links,
    _get_links config library = Ok links
    ∧ List.length links = 2
    ∧ links = (λ k, (k, to_key_of k)) <$> filter (λ k, is_from_key k = true) keys
    ∧ (links = [("link_from", "link_to"); ("link_from.1", "link_to.1")]
       ∨ links = [("link_from.1", "link_to.1"); ("link_from", "link_to")]).
Proof.
  intros Hopts Hperm.
  assert (Hall : Forall (λ k, k ∈ ["link_from"; "link_to"; "link_from.1"; "link_to.1"]) keys).
  { apply Forall_forall. intros k Hk. by rewrite <- Hperm. }
  assert (Hf : filter (λ k, is_from_key k = true) keys
               ≡ₚ ["link_from"; "link_from.1"]).
  { rewrite Hperm. reflexivity. }
  eexists. split; [by apply get_links_unfold|].
  rewrite flat_map_four_keys by done.
  split; [by rewrite length_fmap, Hf|]. split; [done|].
  symmetry in Hf.
  apply Permutation_length_2_inv in Hf as [-> | ->]; [left|right]; reflexivity.
Qed.

End LinkPairs.

Lemma get_links_four_keys_witness :
  ∃ links,
    _get_links four_keys_config "Lib" = Ok links
    ∧ List.length links = 2
    ∧ links = (λ k, (k, to_key_of k))
              <$> filter (λ k, is_from_key k = true)
                    ["link_from"; "link_to"; "link_from.1"; "link_to.1"]
    ∧ (links = [("link_from", "link_to"); ("link_from.1", "link_to.1")]
       ∨ links = [("link_from.1", "link_to.1"); ("link_from", "link_to")]).
Proof.
  apply (get_links_four_keys four_keys_config "Lib"
           ["link_from"; "link_to"; "link_from.1"; "link_to.1"]);
    reflexivity.
Defined.

(* --------------------------------------------------------------------- *)
(* Diagnostics and URL validation                                        *)
(* --------------------------------------------------------------------- *)
Section Diagnostics.

Lemma message_trace (args : Args) (m : string) (w : World) :
  trace (_message args m w)
  = (trace w ++ if very_quiet args then [] else [EPrint m])%list.
Proof.
  unfold _message. destruct (very_quiet args); simpl; [|done].
  by rewrite app_nil_r.
Qed.

Lemma message_tree (args : Args) (m : string) (w : World) :
  tree (_message args m w) = tree w.
Proof. unfold _message. by destruct (very_quiet args). Qed.

Lemma message_cwd (args : Args) (m : string) (w : World) :
  cwd (_message args m w) = cwd w.
Proof. unfold _message. by destruct (very_quiet args). Qed.

Lemma message_linkinfo (args : Args) (m : string) (w : World) :
  linkinfo (_message args m w) = linkinfo w.
Proof. unfold _message. by destruct (very_quiet args). Qed.

End Diagnostics.

(* --------------------------------------------------------------------- *)
(* Failures that stop the run                                            *)
(* --------------------------------------------------------------------- *)

(** C2 at its failing input: the Dojo library (type Github) on a fresh
    storage root, both the tarball and the zipball URL answering 404. The
    update pass does not reach the diagnostic: reading the local variable
    cmd, which no branch has assigned, raises UnboundLocalError. *)
Theorem update_raises_when_no_archive_url_validates :
  _do_update env_all_404 dojo_args dojo_config fresh_world
  = Raise (UnboundLocalError "cmd").
Proof. by vm_compute. Qed.

(** C3 at its failing input: the Dojo library (type Github) on a fresh
    storage root, both candidate URLs answering 404, under each of the
    four settings of the quiet and very-quiet flags. The diagnostic that
    names the configuration file is never reached, whatever the flags:
    the fetch, hence the update pass and the run, raises
    UnboundLocalError when the arguments of _check_and_run_cmd are
    evaluated, before that function (and its branch for an empty
    command, the only place that prints the diagnostic) is entered. *)
Theorem no_url_diagnostic_is_never_reached (q vq : bool) :
  let args := args_after_parse (flag_args q vq) in
  _fetch_from_provider env_all_404 args dojo_config "Dojo" "1.7.1" "github"
    fresh_world
  = Raise (UnboundLocalError "cmd")
  ∧ _do_update env_all_404 args dojo_config fresh_world
    = Raise (UnboundLocalError "cmd")
  ∧ run env_all_404 args dojo_config fresh_world
    = Raise (UnboundLocalError "cmd").
Proof. destruct q, vq; repeat split; by vm_compute. Qed.

(** C5 at its failing input: a library of the unknown type svn that has a
    link pair. The update pass prints the diagnostic and carries on, but
    the link pass over the same configuration raises KeyError when it
    looks the type up in PROVIDERS. *)
Theorem link_pass_raises_on_unknown_type :
  ∃ w,
    _do_update env_all_404 dojo_args unknown_type_config fresh_world = Ok w
    ∧ EPrint "Unknown library type 'svn'" ∈ trace w
    ∧ _do_link dojo_args unknown_type_config w = Raise (KeyError "svn").
Proof.
  eexists. split; [by vm_compute|]. split; [|by vm_compute].
  apply list_elem_of_In. simpl. tauto.
Qed.

(* --------------------------------------------------------------------- *)
(* Path resolution                                                       *)
(* --------------------------------------------------------------------- *)
Module Resolve.
Import FS.

(* one step of the walk, written out *)
Lemma walk_nil (t : files) (b : nat) (cur : list string) :
  walk t b cur [] = Ok (b, cur).
Proof. by destruct b. Qed.

Lemma walk_cons (t : files) (b : nat) (cur : list string) (c : string)
    (rest : list string) :
  walk t b cur (c :: rest)
  = match kind t cur with
    | None => Raise (OSError ENOENT)
    | Some File | Some (Link _) => Raise (OSError ENOTDIR)
    | Some Dir =>
        if bool_decide (c = "") || bool_decide (c = ".") then walk t b cur rest
        else if bool_decide (c = "..") then walk t b (parent cur) rest
        else
          match t !! (cur ++ [c])%list with
          | None => Raise (OSError ENOENT)
          | Some (Link target) =>
              match b with
              | O => Raise (OSError ELOOP)
              | S b' =>
                  if bool_decide (target = "") then Raise (OSError ENOENT)
                  else walk t b' (if Path.isabs target then [] else cur)
                         (Path.components target ++ rest)%list
              end
          | Some _ => walk t b (cur ++ [c])%list rest
          end
    end.
Proof. by destruct b. Qed.

#[global] Arguments walk : simpl never.
#[global] Arguments MAXSYMLINKS : simpl never.

Lemma kind_mono (t t' : files) (p : list string) (n : node) :
  t ⊆ t' → kind t p = Some n → kind t' p = Some n.
Proof.
  intros Hsub H. destruct p; [done|]. simpl in *. by eapply lookup_weaken.
Qed.

(* Adding nodes to a tree does not change where a path that resolves   *)
(* leads to.                                                           *)
Lemma walk_mono (t t' : files) (b : nat) (cur comps : list string)
    (r : nat * list string) :
  t ⊆ t' → walk t b cur comps = Ok r → walk t' b cur comps = Ok r.
Proof.
  intros Hsub. revert cur comps.
  induction b as [b IHb] using lt_wf_ind.
  intros cur comps. revert cur.
  induction comps as [|c rest IH]; intros cur.
  - by rewrite !walk_nil.
  - rewrite !walk_cons.
    destruct (kind t cur) as [[| |x]|] eqn:Hk; try done.
    rewrite (kind_mono _ _ _ _ Hsub Hk).
    destruct (_ || _); [apply IH|].
    destruct (bool_decide (c = "..")); [apply IH|].
    destruct (t !! (cur ++ [c])%list) as [[| |target]|] eqn:Hl; try done;
      rewrite (lookup_weaken _ _ _ _ Hl Hsub); try apply IH.
    destruct b as [|b']; [done|].
    destruct (bool_decide (target = "")); [done|].
    apply IHb. lia.
Qed.

(* Resolution composes: the rest of a path is walked from where its    *)
(* beginning ends, with the link traversals that are left.             *)
Lemma walk_app (t : files) (b : nat) (cur xs ys : list string) :
  walk t b cur (xs ++ ys)
  = '(b', mid) ← walk t b cur xs; walk t b' mid ys.
Proof.
  revert cur xs.
  induction b as [b IHb] using lt_wf_ind.
  intros cur xs. revert cur.
  induction xs as [|c rest IH]; intros cur.
  - by rewrite walk_nil.
  - simpl. rewrite !walk_cons.
    destruct (kind t cur) as [[| |x]|]; try done.
    destruct (_ || _); [apply IH|].
    destruct (bool_decide (c = "..")); [apply IH|].
    destruct (t !! (cur ++ [c])%list) as [[| |target]|]; try done;
      try apply IH.
    destruct b as [|b']; [done|].
    destruct (bool_decide (target = "")); [done|].
    rewrite app_assoc. apply IHb. lia.
Qed.

(* empty components keep the walk where it is *)
Lemma walk_empties (t : files) (b : nat) (cur : list string) (k : nat) :
  kind t cur = Some Dir →
  walk t b cur (replicate k "") = Ok (b, cur).
Proof.
  intros Hk. induction k as [|k IH]; simpl; [apply walk_nil|].
  rewrite walk_cons, Hk. simpl. apply IH.
Qed.

Lemma walk_empties_inv (t : files) (b b' : nat) (cur d : list string) (k : nat) :
  walk t b cur (replicate k "") = Ok (b', d) → b' = b ∧ d = cur.
Proof.
  induction k as [|k IH]; simpl.
  - rewrite walk_nil. by intros [= -> ->].
  - rewrite walk_cons. destruct (kind t cur) as [[| |x]|]; try done.
Qed.

End Resolve.

(* --------------------------------------------------------------------- *)
(* Path names as lists of components                                     *)
(* --------------------------------------------------------------------- *)
Module PathFacts.
Import Path.

Local Abbreviation slash := ("/"%char).

Lemma components_nonempty (s : string) : components s ≠ [].
Proof.
  destruct s as [|c s]; simpl; [done|].
  case_bool_decide; [done|]. by destruct (components s).
Qed.

Lemma components_cons_noslash (c : ascii) (s : string) :
  c ≠ slash →
  ∃ x xs, components s = x :: xs ∧ components (String c s) = String c x :: xs.
Proof.
  intros Hc. simpl. rewrite bool_decide_eq_false_2 by done.
  destruct (components s) as [|x xs] eqn:E.
  - by apply components_nonempty in E.
  - by exists x, xs.
Qed.

Lemma components_noslash (s : string) :
  Str.contains_char slash s = false → components s = [s].
Proof.
  induction s as [|c s IH]; simpl; [done|].
  intros H. apply orb_false_iff in H as [Hc Hs].
  rewrite Hc. by rewrite (IH Hs).
Qed.

Lemma components_app_slash (a b : string) :
  components (a +:+ String slash b) = (components a ++ components b)%list.
Proof.
  induction a as [|c a IH].
  - reflexivity.
  - change (String c a +:+ String slash b) with (String c (a +:+ String slash b)).
    simpl. rewrite IH. case_bool_decide; [done|].
    destruct (components a) as [|x xs] eqn:E; [|done].
    by apply components_nonempty in E.
Qed.

Lemma unsnoc_snoc {A} (l : list A) (x : A) :
  FS.unsnoc (l ++ [x]) = Some (l, x).
Proof. induction l as [|y l IH]; simpl; [done|]. by rewrite IH. Qed.

Lemma rcut_some (s h t : string) :
  rcut s = Some (h, t) →
  s = h +:+ String slash t ∧ Str.contains_char slash t = false.
Proof.
  revert h. induction s as [|c s IH]; intros h; simpl; [done|].
  destruct (rcut s) as [[h' t']|] eqn:E.
  - intros [= <- <-]. destruct (IH h' eq_refl) as [-> Ht]. done.
  - case_bool_decide as Hc; [|done]. intros [= <- <-]. subst c.
    split; [done|]. clear IH. induction s as [|c s IH]; simpl in *; [done|].
    destruct (rcut s) as [[h' t']|]; [done|].
    case_bool_decide; [done|]. by rewrite IH.
Qed.

Lemma rcut_none (s : string) :
  rcut s = None → Str.contains_char slash s = false.
Proof.
  induction s as [|c s IH]; simpl; [done|].
  destruct (rcut s) as [[h' t']|]; [done|].
  case_bool_decide; [done|]. intros _. by rewrite IH.
Qed.

(* the directory part and the last component of a path with a slash *)
Lemma unsnoc_components (s h t : string) :
  rcut s = Some (h, t) →
  FS.unsnoc (components s) = Some (components h, t).
Proof.
  intros H. apply rcut_some in H as [-> Ht].
  rewrite components_app_slash, (components_noslash t Ht).
  apply unsnoc_snoc.
Qed.

Lemma unsnoc_components_noslash (s : string) :
  rcut s = None → FS.unsnoc (components s) = Some ([], s).
Proof.
  intros H. apply rcut_none in H. by rewrite (components_noslash s H).
Qed.

Lemma components_all_slashes (s : string) :
  all_slashes s = true → components s = replicate (S (String.length s)) "".
Proof.
  induction s as [|c s IH]; simpl; [done|].
  intros H. apply andb_true_iff in H as [Hc Hs]. rewrite Hc.
  by rewrite (IH Hs).
Qed.

Lemma rstrip_slash_empty (s : string) :
  rstrip_slash s = "" ↔ all_slashes s = true.
Proof.
  induction s as [|c s IH]; simpl; [done|].
  destruct (bool_decide (rstrip_slash s = "")) eqn:E1;
    destruct (bool_decide (c = "/"%char)) eqn:E2; simpl.
  - apply bool_decide_eq_true in E1. split; [|done]. intros _. by apply IH.
  - split; [done|]. done.
  - apply bool_decide_eq_false in E1. split; [done|].
    intros H. destruct E1. by apply IH.
  - split; done.
Qed.

(* stripping trailing slashes removes empty components at the end *)
Lemma components_rstrip (s : string) :
  rstrip_slash s ≠ "" →
  ∃ k, components s = (components (rstrip_slash s) ++ replicate k "")%list.
Proof.
  induction s as [|c s IH]; simpl; [done|].
  destruct (bool_decide (rstrip_slash s = "")) eqn:E1.
  - apply bool_decide_eq_true in E1.
    destruct (bool_decide (c = "/"%char)) eqn:E2; simpl; [done|].
    intros _. rewrite E1. simpl.
    apply rstrip_slash_empty, components_all_slashes in E1.
    rewrite E1. simpl. exists (String.length s). by rewrite E2.
  - apply bool_decide_eq_false in E1. rewrite andb_false_l. simpl.
    intros _. destruct (IH E1) as [k Hk]. rewrite Hk.
    destruct (bool_decide (c = "/"%char)); [by exists k|].
    destruct (components (rstrip_slash s)) as [|x xs] eqn:E;
      [by apply components_nonempty in E|].
    by exists k.
Qed.

Lemma isabs_app (a b : string) :
  a ≠ "" → isabs (a +:+ b) = isabs a.
Proof.
  destruct a as [|c a]; [done|]. intros _.
  unfold isabs, Str.startswith. simpl. by case_decide.
Qed.

Lemma isabs_rstrip (s : string) :
  rstrip_slash s ≠ "" → isabs (rstrip_slash s) = isabs s.
Proof.
  destruct s as [|c s]; simpl; [done|].
  destruct (_ && _); [done|]. intros _.
  unfold isabs, Str.startswith. simpl. by case_decide.
Qed.

Lemma isabs_all_slashes (s : string) :
  all_slashes s = true → s ≠ "" → isabs s = true.
Proof.
  destruct s as [|c s]; simpl; [done|].
  intros H _. apply andb_true_iff in H as [Hc _].
  apply bool_decide_eq_true in Hc. subst c. reflexivity.
Qed.

End PathFacts.

(* --------------------------------------------------------------------- *)
(* The file system calls                                                 *)
(* --------------------------------------------------------------------- *)
Module FSFacts.
Import FS Resolve PathFacts.

(* case analysis on the outcome of a call under a bind *)
Ltac case_result H :=
  match goal with
  | |- context [mbind _ ?r] =>
      let e := fresh "e" in
      destruct r as [?|e] eqn:H; cbn; [|try done]
  | _ : context [mbind _ ?r] |- _ =>
      let e := fresh "e" in
      destruct r as [?|e] eqn:H; cbn in *; [|try done]
  end.

Lemma stat_mono (t t' : files) (cwd : list string) (p : string)
    (r : list string * node) :
  t ⊆ t' → stat t cwd p = Ok r → stat t' cwd p = Ok r.
Proof.
  intros Hsub. unfold stat. case_bool_decide; [done|].
  destruct (walk t _ _ _) as [[b d]|] eqn:Hw; cbn; [|done].
  rewrite (walk_mono _ _ _ _ _ _ Hsub Hw). cbn.
  destruct (kind t d) as [n|] eqn:Hk; [|done].
  by rewrite (kind_mono _ _ _ _ Hsub Hk).
Qed.

Lemma entry_mono (t t' : files) (cwd : list string) (p : string)
    (e : option (list string)) :
  t ⊆ t' → entry t cwd p = Ok e → entry t' cwd p = Ok e.
Proof.
  intros Hsub. unfold entry. case_bool_decide; [done|].
  destruct (unsnoc _) as [[init name]|]; [|done].
  destruct (special name); [done|].
  destruct (walk t _ _ _) as [[b d]|] eqn:Hw; cbn; [|done].
  rewrite (walk_mono _ _ _ _ _ _ Hsub Hw). cbn.
  destruct (kind t d) as [[| |x]|] eqn:Hk; try done.
  by rewrite (kind_mono _ _ _ _ Hsub Hk).
Qed.

Lemma lstat_mono (t t' : files) (cwd : list string) (p : string)
    (r : list string * node) :
  t ⊆ t' → lstat t cwd p = Ok r → lstat t' cwd p = Ok r.
Proof.
  intros Hsub. unfold lstat.
  destruct (entry t cwd p) as [[e|]|] eqn:He; cbn; [| |done];
    rewrite (entry_mono _ _ _ _ _ Hsub He); cbn.
  - destruct (t !! e) as [n|] eqn:Hl; [|done].
    by rewrite (lookup_weaken _ _ _ _ Hl Hsub).
  - by apply stat_mono.
Qed.

Lemma isdir_mono (t t' : files) (cwd : list string) (p : string) :
  t ⊆ t' → isdir t cwd p = true → isdir t' cwd p = true.
Proof.
  intros Hsub. unfold isdir.
  destruct (stat t cwd p) as [[d n]|] eqn:Hs; [|done].
  by rewrite (stat_mono _ _ _ _ _ Hsub Hs).
Qed.

Lemma exists_mono (t t' : files) (cwd : list string) (p : string) :
  t ⊆ t' → exists_ t cwd p = true → exists_ t' cwd p = true.
Proof.
  intros Hsub. unfold exists_.
  destruct (stat t cwd p) as [r|] eqn:Hs; [|done].
  by rewrite (stat_mono _ _ _ _ _ Hsub Hs).
Qed.

Lemma kind_snoc (t : files) (d : list string) (x : string) :
  kind t (d ++ [x]) = t !! (d ++ [x])%list.
Proof. by destruct d. Qed.

(* what entry says, in terms of the walk *)
Lemma entry_some_inv (t : files) (cwd : list string) (p : string)
    (e : list string) :
  entry t cwd p = Ok (Some e) →
  ∃ init name b d,
    unsnoc (Path.components p) = Some (init, name)
    ∧ special name = false
    ∧ walk t MAXSYMLINKS (start cwd p) init = Ok (b, d)
    ∧ kind t d = Some Dir
    ∧ e = (d ++ [name])%list.
Proof.
  unfold entry. case_bool_decide; [done|].
  destruct (unsnoc _) as [[init name]|]; [|done].
  destruct (special name) eqn:Hsp; [done|].
  destruct (walk t _ _ _) as [[b d]|] eqn:Hw; cbn; [|done].
  destruct (kind t d) as [[| |x]|] eqn:Hk; try done.
  intros [= <-]. by exists init, name, b, d.
Qed.

Lemma unsnoc_inv {A} (l init : list A) (x : A) :
  unsnoc l = Some (init, x) → l = (init ++ [x])%list.
Proof.
  revert init. induction l as [|y l IH]; intros init; simpl; [done|].
  destruct (unsnoc l) as [[i z]|] eqn:E.
  - intros [= <- <-]. by rewrite (IH i eq_refl).
  - intros [= <- <-]. by destruct l as [|? l'];
      [|simpl in E; destruct (unsnoc l') as [[]|]].
Qed.

(* a path whose entry holds no link is where stat arrives as well *)
Lemma stat_of_entry (t : files) (cwd : list string) (p : string)
    (e : list string) (n : node) :
  entry t cwd p = Ok (Some e) → t !! e = Some n →
  (∀ x, n ≠ Link x) →
  stat t cwd p = Ok (e, n).
Proof.
  intros He Hl Hn.
  assert (p ≠ "") as Hp.
  { intros ->. done. }
  apply entry_some_inv in He as (init & name & b & d & Hu & Hsp & Hw & Hk & ->).
  unfold stat. rewrite bool_decide_eq_false_2 by done.
  rewrite (unsnoc_inv _ _ _ Hu), walk_app, Hw. cbn.
  rewrite walk_cons, Hk.
  unfold special in Hsp. apply orb_false_iff in Hsp as [Hsp Hdd].
  rewrite Hsp, Hdd, Hl.
  destruct n as [| |x]; [| |by destruct (Hn x)]; rewrite walk_nil; cbn;
    by rewrite kind_snoc, Hl.
Qed.

(* with the entry gone, the path designates nothing *)
Lemma stat_absent (t : files) (cwd : list string) (p : string)
    (e : list string) :
  entry t cwd p = Ok (Some e) → t !! e = None →
  exists_ t cwd p = false.
Proof.
  intros He Hl.
  assert (p ≠ "") as Hp.
  { intros ->. done. }
  apply entry_some_inv in He as (init & name & b & d & Hu & Hsp & Hw & Hk & ->).
  unfold exists_, stat. rewrite bool_decide_eq_false_2 by done.
  rewrite (unsnoc_inv _ _ _ Hu), walk_app, Hw. cbn.
  rewrite walk_cons, Hk.
  unfold special in Hsp. apply orb_false_iff in Hsp as [Hsp Hdd].
  by rewrite Hsp, Hdd, Hl.
Qed.

(* when stat succeeds, so does lstat *)
Lemma lstat_of_stat (t : files) (cwd : list string) (p : string)
    (r : list string * node) :
  stat t cwd p = Ok r → ∃ r', lstat t cwd p = Ok r'.
Proof.
  intros Hs. unfold lstat, entry.
  assert (p ≠ "") as Hp.
  { intros ->. done. }
  rewrite bool_decide_eq_false_2 by done.
  destruct (unsnoc (Path.components p)) as [[init name]|] eqn:Hu.
  2:{ destruct (Path.components p) as [|x l] eqn:E;
        [by apply components_nonempty in E|].
      simpl in Hu. by destruct (unsnoc l) as [[]|]. }
  destruct (special name) eqn:Hsp; cbn; [by rewrite Hs; eauto|].
  revert Hs. unfold stat. rewrite bool_decide_eq_false_2 by done.
  rewrite (unsnoc_inv _ _ _ Hu), walk_app.
  destruct (walk t _ _ init) as [[b d]|]; cbn; [|done].
  rewrite walk_cons.
  destruct (kind t d) as [[| |x]|]; try done.
  unfold special in Hsp. apply orb_false_iff in Hsp as [Hsp Hdd].
  rewrite Hsp, Hdd. cbn.
  destruct (t !! (d ++ [name])%list) as [n|]; [eauto|done].
Qed.

End FSFacts.

Module FSOps.
Import FS Resolve PathFacts FSFacts.

(* the directory part of a path resolves when the path's parent does *)
Lemma parent_walk_isdir (t : files) (cwd : list string) (p h tl : string)
    (b : nat) (d : list string) :
  Path.rcut p = Some (h, tl) →
  walk t MAXSYMLINKS (start cwd p) (Path.components h) = Ok (b, d) →
  kind t d = Some Dir →
  isdir t cwd (Path.dirname p) = true.
Proof.
  intros Hcut Hw Hk. unfold Path.dirname, Path.split. rewrite Hcut. simpl.
  apply rcut_some in Hcut as [-> _].
  destruct (Path.all_slashes h) eqn:Hall.
  - unfold isdir, stat.
    assert (h +:+ "/" ≠ "") as Hne by (by destruct h).
    rewrite bool_decide_eq_false_2 by done.
    assert (start cwd (h +:+ "/") = []) as ->.
    { unfold start. destruct h as [|c h']; [done|].
      rewrite isabs_app by done. by rewrite isabs_all_slashes. }
    rewrite components_app_slash, (components_all_slashes h Hall).
    replace (replicate (S (String.length h)) "" ++ Path.components "")%list
      with (replicate (S (S (String.length h))) "").
    2:{ change (Path.components "") with (replicate 1 "").
        rewrite <- replicate_add. f_equal. lia. }
    by rewrite walk_empties.
  - assert (Path.rstrip_slash h ≠ "") as Hne.
    { intros E. apply rstrip_slash_empty in E. congruence. }
    assert (h ≠ "") as Hh by (by intros ->).
    destruct (components_rstrip h Hne) as [k Hk'].
    rewrite Hk', walk_app in Hw.
    destruct (walk t _ _ (Path.components (Path.rstrip_slash h)))
      as [[b1 d1]|] eqn:Hw1; cbn in Hw; [|done].
    apply walk_empties_inv in Hw as [-> ->].
    unfold isdir, stat. rewrite bool_decide_eq_false_2 by done.
    assert (start cwd (Path.rstrip_slash h) = start cwd (h +:+ String "/" tl)) as ->.
    { unfold start. by rewrite isabs_rstrip, isabs_app. }
    rewrite Hw1. cbn. by rewrite Hk.
Qed.

Lemma entry_isdir_dirname (t : files) (cwd : list string) (p h tl : string)
    (e : list string) :
  Path.rcut p = Some (h, tl) →
  entry t cwd p = Ok (Some e) →
  isdir t cwd (Path.dirname p) = true.
Proof.
  intros Hcut He.
  apply entry_some_inv in He as (init & name & b & d & Hu & _ & Hw & Hk & _).
  rewrite (unsnoc_components _ _ _ Hcut) in Hu. injection Hu as <- <-.
  by eapply parent_walk_isdir.
Qed.

Lemma stat_isdir_dirname (t : files) (cwd : list string) (p h tl : string)
    (r : list string * node) :
  Path.rcut p = Some (h, tl) →
  stat t cwd p = Ok r →
  isdir t cwd (Path.dirname p) = true.
Proof.
  intros Hcut. unfold stat. case_bool_decide; [done|].
  pose proof (unsnoc_components _ _ _ Hcut) as Hu.
  rewrite (unsnoc_inv _ _ _ Hu), walk_app.
  destruct (walk t _ _ (Path.components h)) as [[b d]|] eqn:Hw; cbn; [|done].
  rewrite walk_cons.
  destruct (kind t d) as [[| |x]|] eqn:Hk; try done.
  intros _. by eapply parent_walk_isdir.
Qed.

Lemma free_entry_inv (t : files) (cwd : list string) (p : string)
    (e : list string) :
  free_entry t cwd p = Ok e →
  entry t cwd p = Ok (Some e) ∧ t !! e = None.
Proof.
  unfold free_entry.
  destruct (entry t cwd p) as [[e'|]|]; cbn; [| |done].
  - destruct (t !! e') eqn:E; [done|]. by intros [= <-].
  - by destruct (stat t cwd p).
Qed.

Lemma free_entry_intro (t : files) (cwd : list string) (p : string)
    (e : list string) :
  entry t cwd p = Ok (Some e) → t !! e = None → free_entry t cwd p = Ok e.
Proof. intros He Hl. unfold free_entry. rewrite He. cbn. by rewrite Hl. Qed.

Lemma symlink_inv (t t' : files) (cwd : list string) (src dst : string) :
  symlink t cwd src dst = Ok t' →
  src ≠ "" ∧ ∃ e, entry t cwd dst = Ok (Some e) ∧ t !! e = None
                  ∧ t' = <[e := Link src]> t.
Proof.
  unfold symlink. case_bool_decide; [done|].
  destruct (free_entry t cwd dst) as [e|] eqn:Hf; cbn; [|done].
  intros [= <-]. apply free_entry_inv in Hf as [He Hl]. eauto.
Qed.

Lemma mkdir_inv (t t' : files) (cwd : list string) (p : string) :
  mkdir t cwd p = Ok t' →
  Path.rstrip_slash p ≠ ""
  ∧ ∃ e, entry t cwd (Path.rstrip_slash p) = Ok (Some e) ∧ t !! e = None
         ∧ t' = <[e := Dir]> t.
Proof.
  unfold mkdir. case_bool_decide; [done|]. case_bool_decide; [done|].
  destruct (free_entry t cwd _) as [e|] eqn:Hf; cbn; [|done].
  intros [= <-]. apply free_entry_inv in Hf as [He Hl]. eauto.
Qed.

Lemma mkdir_subseteq (t t' : files) (cwd : list string) (p : string) :
  mkdir t cwd p = Ok t' → t ⊆ t'.
Proof.
  intros H. apply mkdir_inv in H as (_ & e & _ & Hl & ->).
  by apply insert_subseteq.
Qed.

Lemma symlink_subseteq (t t' : files) (cwd : list string) (src dst : string) :
  symlink t cwd src dst = Ok t' → t ⊆ t'.
Proof.
  intros H. apply symlink_inv in H as (_ & e & _ & Hl & ->).
  by apply insert_subseteq.
Qed.

(* makedirs only ever adds directories, whatever its outcome *)
Lemma makedirs_fuel_subseteq (fuel : nat) (t : files) (cwd : list string)
    (name : string) :
  t ⊆ (makedirs_fuel fuel t cwd name).1.
Proof.
  revert t name. induction fuel as [|fuel IH]; intros t name; simpl; [done|].
  destruct (Path.split name) as [head tail].
  destruct (if bool_decide (tail = "") then Path.split head else (head, tail))
    as [head' tail'].
  assert (Hmk : ∀ t0, t ⊆ t0 →
            t ⊆ (match mkdir t0 cwd name with
                 | Ok t' => (t', Ok tt)
                 | Raise e => (t0, Raise e)
                 end).1).
  { intros t0 H0. destruct (mkdir t0 cwd name) eqn:E; simpl; [|done].
    etrans; [done|]. by eapply mkdir_subseteq. }
  destruct (_ && _); [|by apply Hmk].
  specialize (IH t head').
  destruct (makedirs_fuel fuel t cwd head') as [t1 [[]|e]]; simpl in IH.
  - destruct (bool_decide (tail' = ".")); [done|]. by apply Hmk.
  - destruct e as [| | | |code| | | |]; simpl; try done.
    destruct code; simpl; try done.
    destruct (bool_decide (tail' = ".")); [done|]. by apply Hmk.
Qed.

Lemma makedirs_subseteq (t : files) (cwd : list string) (name : string) :
  t ⊆ (FS.makedirs t cwd name).1.
Proof. apply makedirs_fuel_subseteq. Qed.

Lemma makedirs_empty (t : files) (cwd : list string) :
  (FS.makedirs t cwd "").2 = Raise (OSError ENOENT).
Proof. reflexivity. Qed.

Lemma unlink_inv (t t' : files) (cwd : list string) (p : string) :
  unlink t cwd p = Ok t' →
  ∃ e n, lstat t cwd p = Ok (e, n) ∧ n ≠ Dir ∧ t' = delete e t.
Proof.
  unfold unlink. destruct (lstat t cwd p) as [[e n]|]; cbn; [|done].
  destruct n; [done| |]; intros [= <-]; eauto.
Qed.

End FSOps.

(* --------------------------------------------------------------------- *)
(* The link pass                                                         *)
(* --------------------------------------------------------------------- *)
Module LinkPass.
Import Resolve PathFacts FSFacts FSOps.

#[global] Arguments Str.of_nat : simpl never.
#[global] Arguments FS.abspath : simpl never.
#[global] Arguments Path.join : simpl never.
#[global] Arguments Path.dirname : simpl never.

Lemma link_pair_split (args : Args) (config : Config.t) (library : string)
    (keys : string * string) (w : World) :
  link_pair args config library keys w
  = '(lf, lt) ← link_endpoints args config library keys; link_at args lf lt w.
Proof.
  unfold link_pair, link_endpoints, link_at. destruct keys as [fk tk]. simpl.
  destruct (_extdir_from_library _ _ _); cbn; [|done].
  destruct (_tag_or_branch _ _); cbn; [|done].
  destruct (Config.get config library fk); cbn; [|done].
  destruct (Config.get config library tk); cbn; done.
Qed.

Lemma assoc_app_last {V} (k : string) (v : V) (l : list (string * V)) :
  is_Some (Config.assoc k (l ++ [(k, v)])).
Proof.
  induction l as [|[k' v'] l IH]; simpl.
  - rewrite decide_True by done. eauto.
  - case_decide; eauto.
Qed.

Lemma set_succeeds (c c1 c' : Config.t) (s k k' v : string) :
  Config.set c s k v = Ok c1 →
  is_Some (Config.assoc s (Config.sections_ c')) →
  ∃ c2, Config.set c' s k' v = Ok c2.
Proof.
  unfold Config.set. destruct (Str.contains_char _ _); [done|].
  intros _ [d Hd]. destruct (_ || _); [eauto|]. rewrite Hd. eauto.
Qed.

Lemma record_link_fields (args : Args) (lt : string) (w w' : World) :
  record_link args lt w = Ok w' →
  tree w' = tree w ∧ cwd w' = cwd w ∧ trace w' = trace w.
Proof.
  unfold record_link.
  destruct (match Config.options _ _ with Ok _ => _ | Raise _ => _ end)
    as [[count li]|]; cbn; [|done].
  destruct (Config.set _ _ _ _); cbn; [|done]. by intros [= <-].
Qed.

Lemma record_link_replay (args : Args) (lt : string) (w w' v : World) :
  record_link args lt w = Ok w' → cwd v = cwd w →
  ∃ v', record_link args lt v = Ok v'
        ∧ tree v' = tree v ∧ cwd v' = cwd v ∧ trace v' = trace v.
Proof.
  unfold record_link. intros H Hc. rewrite Hc.
  destruct (match Config.options (linkinfo w) _ with Ok _ => _ | Raise _ => _ end)
    as [[count li]|]; cbn in H; [|done].
  destruct (Config.set li _ _ _) as [c1|] eqn:Hset; cbn in H; [|done].
  set (sect := FS.abspath (cwd w) (libroot args)) in *.
  assert (∃ count' li',
    match Config.options (linkinfo v) sect with
    | Ok opts => Ok (List.length opts, linkinfo v)
    | Raise (NoSectionError _) => Ok (0, Config.add_section (linkinfo v) sect)
    | Raise e => Raise e
    end = Ok (count', li')
    ∧ is_Some (Config.assoc sect (Config.sections_ li')))
    as (count' & li' & -> & Hsome).
  { unfold Config.options.
    destruct (Config.assoc sect (Config.sections_ (linkinfo v))) as [d|] eqn:E.
    - eexists _, _. split; [done|]. rewrite E. eauto.
    - eexists _, _. split; [done|]. simpl. apply assoc_app_last. }
  destruct (set_succeeds _ _ li' _ _ (Str.of_nat (count' + 1)) _ Hset Hsome)
    as [c2 Hc2].
  cbn. rewrite Hc2. cbn. eauto.
Qed.

(* the calls, as seen from the world *)
Lemma makedirs_world (name : string) (w w' : World) :
  makedirs name w = Ok w' →
  tree w ⊆ tree w' ∧ cwd w' = cwd w
  ∧ trace w' = (trace w ++ [EMakedirs name])%list ∧ name ≠ "".
Proof.
  unfold makedirs. simpl.
  pose proof (makedirs_subseteq (tree w) (cwd w) name) as Hsub.
  destruct (decide (name = "")) as [->|Hne]; [done|].
  destruct (FS.makedirs _ _ _) as [t [[]|e]]; [|done].
  by intros [= <-].
Qed.

Lemma unlink_world (p : string) (w w' : World) :
  unlink p w = Ok w' → trace w' = (trace w ++ [EUnlink p])%list.
Proof.
  unfold unlink. simpl. destruct (FS.unlink _ _ _); cbn; [|done].
  by intros [= <-].
Qed.

Lemma symlink_world (src dst : string) (w w' : World) :
  symlink src dst w = Ok w' →
  cwd w' = cwd w ∧ trace w' = (trace w ++ [ESymlink src dst])%list
  ∧ src ≠ ""
  ∧ ∃ e, FS.entry (tree w) (cwd w) dst = Ok (Some e) ∧ tree w !! e = None
         ∧ tree w' = <[e   := FS.Link src]> (tree w).
Proof.
  unfold symlink. simpl.
  destruct (FS.symlink _ _ _ _) as [t|] eqn:Hs; cbn; [|done].
  intros [= <-]. simpl. apply symlink_inv in Hs as (Hsrc & e & He & Hl & ->).
  eauto 10.
Qed.

Lemma dirname_nonempty_rcut (p : string) :
  Path.dirname p ≠ "" → ∃ h tl, Path.rcut p = Some (h, tl).
Proof.
  unfold Path.dirname, Path.split.
  destruct (Path.rcut p) as [[h tl]|]; [eauto|done].
Qed.

Lemma isdir_nonempty (t : FS.files) (cwd : list string) (p : string) :
  FS.isdir t cwd p = true → p ≠ "".
Proof. by intros H ->. Qed.

Lemma settled_mono (t t' : FS.files) (cwd : list string) (lf lt : string) :
  t ⊆ t' → settled t cwd lf lt → settled t' cwd lf lt.
Proof.
  intros Hsub [Hdir Hcase]. split; [exact (isdir_mono t t' _ _ Hsub Hdir)|].
  destruct Hcase as [(e & He & Hl & Hd & Hlf) | (e & n & Hs & Hn)].
  - left. exists e. split; [exact (entry_mono t t' _ _ _ Hsub He)|].
    split; [exact (lookup_weaken t t' _ _ Hl Hsub)|]. split; [|exact Hlf].
    exact (entry_mono (delete e t) (delete e t') _ _ _
             (delete_mono t t' e Hsub) Hd).
  - right. exists e, n. split; [exact (lstat_mono t t' _ _ _ Hsub Hs)|exact Hn].
Qed.

(* on a tree where the destination is settled, a visit changes nothing *)
Lemma link_at_settled (args : Args) (lf lt : string) (v w0 w0' : World) :
  settled (tree v) (cwd v) lf lt →
  record_link args lt w0 = Ok w0' → cwd v = cwd w0 →
  ∃ v', link_at args lf lt v = Ok v' ∧ tree v' = tree v ∧ cwd v' = cwd v.
Proof.
  intros [Hdir Hcase] Hrec Hcwd. unfold link_at. rewrite Hdir. cbn.
  set (m := "Creating symlink from " +:+ lf +:+ " to " +:+ lt).
  assert (Hrep : ∀ u, tree u = tree v → cwd u = cwd v →
            ∃ v', record_link args lt u = Ok v'
                  ∧ tree v' = tree v ∧ cwd v' = cwd v).
  { intros u Ht Hc.
    destruct (record_link_replay args lt w0 w0' u Hrec) as (v' & -> & ? & ? & _);
      [congruence|].
    exists v'. split; [done|]. split; congruence. }
  rewrite message_tree, message_cwd.
  destruct Hcase as [(e & He & Hl & Hd & Hlf) | (e & n & Hs & Hn)].
  - assert (FS.lstat (tree v) (cwd v) lt = Ok (e, FS.Link lf)) as Hls.
    { unfold FS.lstat. rewrite He. cbn. by rewrite Hl. }
    unfold FS.islink. rewrite Hls.
    unfold unlink, FS.unlink. simpl. rewrite message_tree, message_cwd, Hls.
    cbn. rewrite message_cwd.
    rewrite (stat_absent _ _ _ _ Hd) by apply lookup_delete_eq.
    cbn. unfold symlink, FS.symlink. simpl. rewrite message_cwd.
    rewrite bool_decide_eq_false_2 by done.
    rewrite (free_entry_intro _ _ _ _ Hd) by apply lookup_delete_eq.
    cbn. apply Hrep; simpl; [|apply message_cwd].
    rewrite insert_delete_eq. by apply insert_id.
  - assert (FS.islink (tree v) (cwd v) lt = false) as ->.
    { unfold FS.islink. rewrite Hs. destruct n as [| |x]; [done|done|].
      by destruct (Hn x). }
    cbn. rewrite message_tree, message_cwd.
    assert (FS.exists_ (tree v) (cwd v) lt = true) as ->.
    { unfold FS.exists_. revert Hs. unfold FS.lstat.
      destruct (FS.entry (tree v) (cwd v) lt) as [[e'|]|] eqn:He; cbn; [| |done].
      - destruct (tree v !! e') as [n'|] eqn:Hl; [|done]. intros [= -> ->].
        by rewrite (stat_of_entry _ _ _ _ _ He Hl Hn).
      - by intros ->. }
    cbn. apply Hrep; [apply message_tree | apply message_cwd].
Qed.

End LinkPass.

Module Idempotence.
Import Resolve PathFacts FSFacts FSOps LinkPass.

(* the last two steps of a visit *)
Lemma link_tail_trace (args : Args) (lf lt : string) (w w' : World) :
  (w1 ← (if negb (FS.exists_ (tree w) (cwd w) lt)
         then symlink lf lt w else Ok w);
   record_link args lt w1) = Ok w' →
  ∃ d, trace w' = (trace w ++ d)%list.
Proof.
  destruct (negb _).
  - destruct (symlink lf lt w) as [w1|] eqn:Hs; cbn; [|done].
    intros H. apply record_link_fields in H as (_ & _ & ->).
    apply symlink_world in Hs as (_ & -> & _). eauto.
  - cbn. intros H. apply record_link_fields in H as (_ & _ & ->).
    exists []. by rewrite app_nil_r.
Qed.

Lemma link_at_first_step (lt : string) (w wa : World) :
  (if negb (FS.isdir (tree w) (cwd w) (Path.dirname lt))
   then makedirs (Path.dirname lt) w else Ok w) = Ok wa →
  tree w ⊆ tree wa ∧ cwd wa = cwd w
  ∧ (∃ d, trace wa = (trace w ++ d)%list ∧ removes_nothing d)
  ∧ Path.dirname lt ≠ "".
Proof.
  destruct (FS.isdir _ _ _) eqn:Hd; simpl.
  - intros [= <-]. split; [done|]. split; [done|]. split.
    + exists []. split; [by rewrite app_nil_r|]. intros p. apply not_elem_of_nil.
    + by eapply isdir_nonempty.
  - intros H. apply makedirs_world in H as (Hs & Hc & Ht & Hn).
    split; [done|]. split; [done|]. split; [|done].
    eexists. split; [done|]. intros p Hp.
    apply list_elem_of_singleton in Hp. done.
Qed.

Lemma link_at_trace (args : Args) (lf lt : string) (w w' : World) :
  link_at args lf lt w = Ok w' → ∃ d, trace w' = (trace w ++ d)%list.
Proof.
  unfold link_at.
  destruct (if negb _ then _ else _) as [wa|] eqn:Ha; cbn; [|done].
  apply link_at_first_step in Ha as (_ & _ & (da & Hda & _) & _).
  set (wb := _message args _ wa).
  assert (∃ db, trace wb = (trace w ++ db)%list) as [db Hdb].
  { unfold wb. rewrite message_trace, Hda, <- app_assoc. eauto. }
  destruct (FS.islink _ _ _).
  - destruct (unlink lt wb) as [wc|] eqn:Hu; cbn; [|done].
    intros H. apply link_tail_trace in H as [d ->].
    apply unlink_world in Hu as ->. rewrite Hdb, <- !app_assoc. eauto.
  - cbn. intros H. apply link_tail_trace in H as [d ->].
    rewrite Hdb, <- !app_assoc. eauto.
Qed.

(* A visit that removes no link only adds to the tree, and leaves the  *)
(* destination settled.                                                *)
Lemma link_at_run (args : Args) (lf lt : string) (w w' : World)
    (d : list event) :
  link_at args lf lt w = Ok w' →
  trace w' = (trace w ++ d)%list → removes_nothing d →
  tree w ⊆ tree w' ∧ cwd w' = cwd w ∧ settled (tree w') (cwd w) lf lt
  ∧ ∃ w0, record_link args lt w0 = Ok w' ∧ cwd w0 = cwd w.
Proof.
  unfold link_at. intros H Htr Hno.
  destruct (if negb _ then _ else _) as [wa|] eqn:Ha; cbn in H; [|done].
  apply link_at_first_step in Ha as (Hta & Hca & (da & Hda & _) & Hdn).
  destruct (dirname_nonempty_rcut _ Hdn) as (h & tl & Hcut).
  set (wb := _message args _ wa) in *.
  assert (tree wb = tree wa) as Htb by apply message_tree.
  assert (cwd wb = cwd w) as Hcb by (unfold wb; by rewrite message_cwd).
  assert (∃ db, trace wb = (trace w ++ db)%list) as [db Hdb].
  { unfold wb. rewrite message_trace, Hda, <- app_assoc. eauto. }
  destruct (FS.islink (tree wb) (cwd wb) lt) eqn:Hlink.
  { (* a link would have been removed *)
    destruct (unlink lt wb) as [wc|] eqn:Hu; cbn in H; [|done].
    apply link_tail_trace in H as [d' Hd'].
    apply unlink_world in Hu. rewrite Hd', Hu, Hdb, <- !app_assoc in Htr.
    apply app_inv_head in Htr. destruct (Hno lt). rewrite <- Htr.
    apply elem_of_app. right. apply elem_of_app. left.
    by apply list_elem_of_singleton. }
  cbn in H.
  destruct (FS.exists_ (tree wb) (cwd wb) lt) eqn:Hex; simpl in H.
  - (* something that is not a link is there *)
    pose proof (record_link_fields _ _ _ _ H) as (Ht & Hc & _).
    rewrite Ht, Hc, Htb, Hcb. split; [exact Hta|]. split; [reflexivity|].
    split; [|exists wb; split; [exact H | exact Hcb]].
    unfold FS.exists_ in Hex. rewrite Htb, Hcb in Hex.
    destruct (FS.stat (tree wa) (cwd w) lt) as [r|] eqn:Hs; [|done].
    split; [exact (stat_isdir_dirname _ _ _ _ _ _ Hcut Hs)|]. right.
    destruct (lstat_of_stat _ _ _ _ Hs) as [[e n] Hl].
    exists e, n. split; [exact Hl|]. intros x ->.
    unfold FS.islink in Hlink. by rewrite Htb, Hcb, Hl in Hlink.
  - (* the link is made *)
    destruct (symlink lf lt wb) as [wd|] eqn:Hsy; cbn in H; [|done].
    apply symlink_world in Hsy as (Hcd & _ & Hlf & e & He & Hl & Htd).
    pose proof (record_link_fields _ _ _ _ H) as (Ht & Hc & _).
    rewrite Htb, Hcb in He. rewrite Htb in Hl, Htd.
    assert (tree wa ⊆ tree wd) as Hsub.
    { rewrite Htd. apply insert_subseteq. exact Hl. }
    rewrite Ht, Hc, Hcd, Hcb.
    split; [transitivity (tree wa); [exact Hta | exact Hsub]|].
    split; [reflexivity|].
    split; [|exists wd; split; [exact H | congruence]].
    pose proof (entry_mono _ _ _ _ _ Hsub He) as He'.
    split; [exact (entry_isdir_dirname _ _ _ _ _ _ Hcut He')|]. left.
    exists e. split; [exact He'|]. rewrite Htd.
    split; [apply lookup_insert_eq|]. split; [|exact Hlf].
    rewrite delete_insert_id by exact Hl. exact He.
Qed.

Lemma link_at_replayable (args : Args) (lf lt : string) :
  replayable (link_at args lf lt).
Proof.
  split; [apply link_at_trace|].
  intros w w' d H Htr Hno.
  destruct (link_at_run _ _ _ _ _ _ H Htr Hno) as (Hsub & Hc & Hset & w0 & Hrec & Hc0).
  split; [done|]. split; [done|].
  intros v Hv Hcv.
  eapply link_at_settled; [|done|congruence].
  rewrite Hcv. by eapply settled_mono.
Qed.

End Idempotence.

Module Replay.
Import Idempotence.

Lemma no_unlink_sound (d : list event) :
  no_unlink d = true → removes_nothing d.
Proof.
  intros H p Hp. unfold no_unlink in H.
  rewrite forallb_forall in H. apply list_elem_of_In in Hp.
  by specialize (H _ Hp).
Qed.

Lemma removes_nothing_app (d1 d2 : list event) :
  removes_nothing (d1 ++ d2) → removes_nothing d1 ∧ removes_nothing d2.
Proof.
  intros H. split; intros p Hp; apply (H p), elem_of_app; eauto.
Qed.

Lemma replayable_ext (f g : World → result World) :
  (∀ w, f w = g w) → replayable g → replayable f.
Proof.
  intros Hfg [Ht Hr]. split.
  - intros w w' H. rewrite Hfg in H. eauto.
  - intros w w' d H Htr Hno. rewrite Hfg in H.
    destruct (Hr _ _ _ H Htr Hno) as (Hs & Hc & Hv).
    split; [done|]. split; [done|]. intros v H1 H2. rewrite Hfg. eauto.
Qed.

(* a step whose first part only reads the configuration *)
Lemma replayable_bind {A} (r : result A) (f : A → World → result World) :
  (∀ a, replayable (f a)) → replayable (λ w, a ← r; f a w).
Proof.
  intros Hf. destruct r as [a|e]; cbn; [apply Hf|].
  split; [done|]. done.
Qed.

Lemma for_each_trace {A} (body : A → World → result World) (l : list A) :
  (∀ x, replayable (body x)) →
  ∀ w w', for_each body l w = Ok w' → ∃ d, trace w' = (trace w ++ d)%list.
Proof.
  intros Hb. induction l as [|x l IH]; intros w w'; simpl.
  - intros [= <-]. exists []. by rewrite app_nil_r.
  - destruct (body x w) as [w1|] eqn:H1; cbn; [|done]. intros H2.
    destruct (Hb x) as [Ht _]. destruct (Ht _ _ H1) as [d1 Hd1].
    destruct (IH _ _ H2) as [d2 Hd2].
    exists (d1 ++ d2)%list. by rewrite Hd2, Hd1, app_assoc.
Qed.

(* a loop of steps that can be replayed can be replayed *)
Lemma replayable_for_each {A} (body : A → World → result World) (l : list A) :
  (∀ x, replayable (body x)) → replayable (for_each body l).
Proof.
  intros Hb. split; [by apply for_each_trace|].
  induction l as [|x l IH]; intros w w' d; simpl.
  - intros [= <-] _ _. split; [done|]. split; [done|]. eauto.
  - destruct (body x w) as [w1|] eqn:H1; cbn; [|done]. intros H2 Htr Hno.
    destruct (Hb x) as [Ht Hr]. destruct (Ht _ _ H1) as [d1 Hd1].
    destruct (for_each_trace body l Hb _ _ H2) as [d2 Hd2].
    assert (d = (d1 ++ d2)%list) as ->.
    { rewrite Hd2, Hd1, <- app_assoc in Htr. by apply app_inv_head in Htr. }
    apply removes_nothing_app in Hno as [Hn1 Hn2].
    destruct (Hr _ _ _ H1 Hd1 Hn1) as (Hs1 & Hc1 & Hv1).
    destruct (IH _ _ _ H2 Hd2 Hn2) as (Hs2 & Hc2 & Hv2).
    split; [transitivity (tree w1); [exact Hs1 | exact Hs2]|].
    split; [congruence|].
    intros v Hv Hcv.
    destruct (Hv1 v) as (v1 & -> & Htv1 & Hcv1);
      [transitivity (tree w'); [exact Hs2 | exact Hv] | exact Hcv |].
    cbn. destruct (Hv2 v1) as (v2 & -> & Htv2 & Hcv2);
      [rewrite Htv1; exact Hv | congruence |].
    exists v2. split; [done|]. split; congruence.
Qed.

Lemma link_pair_replayable (args : Args) (config : Config.t)
    (library : string) (keys : string * string) :
  replayable (link_pair args config library keys).
Proof.
  eapply replayable_ext; [intros w; apply LinkPass.link_pair_split|].
  apply (replayable_bind (link_endpoints args config library keys)
           (λ p w, let '(lf, lt) := p in link_at args lf lt w)).
  intros [lf lt]. apply link_at_replayable.
Qed.

Lemma link_library_replayable (args : Args) (config : Config.t)
    (library : string) :
  replayable (link_library args config library).
Proof.
  unfold link_library.
  apply (replayable_bind (_get_links config library)
           (λ links, for_each (link_pair args config library) links)).
  intros links. apply replayable_for_each. intros keys.
  apply link_pair_replayable.
Qed.

Lemma do_link_replayable (args : Args) (config : Config.t) :
  replayable (_do_link args config).
Proof.
  unfold _do_link. apply replayable_for_each. intros library.
  apply link_library_replayable.
Qed.

(** C8, as amended: when a link pass completes and has not had to
    remove a symbolic link already sitting at one of its destinations,
    running the pass again with the same configuration does not raise
    and leaves the file system, hence its set of symbolic links, exactly
    as the first pass left it. *)
Theorem link_pass_twice_same_tree
    (args : Args) (config : Config.t) (w w1 : World) (d : list event) :
  _do_link args config w = Ok w1 →
  trace w1 = (trace w ++ d)%list →
  no_unlink d = true →
  ∃ w2, _do_link args config w1 = Ok w2
        ∧ tree w2 = tree w1 ∧ cwd w2 = cwd w1.
Proof.
  intros H Htr Hno. apply no_unlink_sound in Hno.
  destruct (do_link_replayable args config) as [_ Hr].
  destruct (Hr _ _ _ H Htr Hno) as (_ & Hc & Hv).
  by apply Hv.
Qed.

End Replay.

Lemma link_pass_twice_same_tree_witness :
  ∃ w2,
    _do_link dojo_args dojo_config
      (after (_do_link dojo_args dojo_config fresh_world) fresh_world) = Ok w2
    ∧ tree w2
      = tree (after (_do_link dojo_args dojo_config fresh_world) fresh_world)
    ∧ cwd w2
      = cwd (after (_do_link dojo_args dojo_config fresh_world) fresh_world).
Proof.
  apply (Replay.link_pass_twice_same_tree dojo_args dojo_config fresh_world _
           [EMakedirs "/proj/vendor";
            EPrint "Creating symlink from /ext/https___github_com_dojo_dojo/1.7.1/. to /proj/vendor/dojo";
            ESymlink "/ext/https___github_com_dojo_dojo/1.7.1/." "/proj/vendor/dojo"]).
  - by vm_compute.
  - by vm_compute.
  - reflexivity.
Defined.

(** C8, as stated, fails: with the destination s/b listed before the
    destination s, and /proj/s a link to the directory /real when the
    pass starts, the first pass completes (it puts the first link inside
    /real and then points /proj/s at a path that does not exist), and
    the second pass raises: the directory part /proj/s of the first
    destination is no directory any more, and makedirs finds the link in
    its way. *)
Lemma link_pass_twice_raises :
  ∃ w1,
    _do_link dojo_args nested_config stale_link_world = Ok w1
    ∧ tree w1 !! ["proj"; "s"] = Some (FS.Link "/ext/u/t/y")
    ∧ tree w1 !! ["real"; "b"] = Some (FS.Link "/ext/u/t/x")
    ∧ _do_link dojo_args nested_config w1 = Raise (OSError EEXIST).
Proof.
  eexists. split; [by vm_compute|]. repeat split; by vm_compute.
Qed.

(* --------------------------------------------------------------------- *)
(* The storage directory of a checkout                                   *)
(* --------------------------------------------------------------------- *)
Module EnsureDir.
Import Resolve PathFacts FSFacts FSOps LinkPass.

#[global] Arguments FS.makedirs : simpl never.

Lemma stat_inv (t : FS.files) (cwd : list string) (p : string)
    (d : list string) (n : FS.node) :
  FS.stat t cwd p = Ok (d, n) →
  p ≠ ""
  ∧ ∃ b, FS.walk t FS.MAXSYMLINKS (FS.start cwd p) (Path.components p) = Ok (b, d)
         ∧ FS.kind t d = Some n.
Proof.
  unfold FS.stat. case_bool_decide; [done|].
  destruct (FS.walk _ _ _ _) as [[b d']|]; cbn; [|done].
  destruct (FS.kind t d') as [n'|] eqn:Hk; [|done].
  intros [= <- <-]. eauto.
Qed.

(* trailing slashes do not matter for a directory *)
Lemma stat_rstrip (t : FS.files) (cwd : list string) (p : string)
    (d : list string) :
  Path.rstrip_slash p ≠ "" →
  FS.stat t cwd (Path.rstrip_slash p) = Ok (d, FS.Dir) →
  FS.stat t cwd p = Ok (d, FS.Dir).
Proof.
  intros Hne Hs. apply stat_inv in Hs as (_ & b & Hw & Hk).
  assert (p ≠ "") as Hp by (by intros ->).
  unfold FS.stat. rewrite bool_decide_eq_false_2 by done.
  destruct (components_rstrip p Hne) as [k ->].
  unfold FS.start in *. rewrite isabs_rstrip in Hw by done.
  rewrite walk_app, Hw. cbn. rewrite walk_empties by done. cbn.
  by rewrite Hk.
Qed.

Lemma stat_rstrip_inv (t : FS.files) (cwd : list string) (p : string)
    (r : list string * FS.node) :
  Path.rstrip_slash p ≠ "" →
  FS.stat t cwd p = Ok r →
  ∃ r', FS.stat t cwd (Path.rstrip_slash p) = Ok r'.
Proof.
  intros Hne Hs. destruct r as [d n].
  apply stat_inv in Hs as (_ & b & Hw & Hk).
  destruct (components_rstrip p Hne) as [k Hc].
  rewrite Hc, walk_app in Hw.
  destruct (FS.walk t _ _ (Path.components (Path.rstrip_slash p)))
    as [[b1 d1]|] eqn:Hw1; cbn in Hw; [|done].
  apply walk_empties_inv in Hw as [-> ->].
  unfold FS.stat. rewrite bool_decide_eq_false_2 by done.
  unfold FS.start in *. rewrite isabs_rstrip by done.
  rewrite Hw1. cbn. rewrite Hk. eauto.
Qed.

(* mkdir makes a directory where there was nothing *)
Lemma mkdir_isdir (t t' : FS.files) (cwd : list string) (name : string) :
  FS.mkdir t cwd name = Ok t' →
  FS.exists_ t cwd name = false ∧ FS.isdir t' cwd name = true.
Proof.
  intros H. pose proof (mkdir_subseteq _ _ _ _ H) as Hsub.
  apply mkdir_inv in H as (Hne & e & He & Hl & ->).
  split.
  - pose proof (stat_absent _ _ _ _ He Hl) as Habs.
    unfold FS.exists_ in *.
    destruct (FS.stat t cwd name) as [r|] eqn:Hs; [|done].
    destruct (stat_rstrip_inv _ _ _ _ Hne Hs) as [r' Hr'].
    by rewrite Hr' in Habs.
  - unfold FS.isdir. erewrite stat_rstrip; [done|done|].
    eapply stat_of_entry; [by eapply entry_mono|apply lookup_insert_eq|done].
Qed.

(* a successful makedirs ends in a successful mkdir, unless the path   *)
(* ends in a dot                                                       *)
Lemma makedirs_ends_in_mkdir (t t' : FS.files) (cwd : list string)
    (name : string) :
  FS.makedirs t cwd name = (t', Ok tt) →
  makedirs_tail name ≠ "." →
  ∃ t1, t ⊆ t1 ∧ FS.mkdir t1 cwd name = Ok t'.
Proof.
  unfold FS.makedirs, makedirs_tail. simpl.
  destruct (Path.split name) as [head tail].
  destruct (bool_decide (tail = "")) eqn:Et.
  - destruct (Path.split head) as [head' tail'] eqn:Es. simpl.
    intros H Hdot. revert H.
    destruct (_ && _).
    + pose proof (makedirs_fuel_subseteq (String.length name) t cwd head') as Hsub.
      destruct (FS.makedirs_fuel _ t cwd head') as [t1 [[]|e]]; simpl in Hsub.
      * rewrite bool_decide_eq_false_2 by done.
        destruct (FS.mkdir t1 cwd name) eqn:Hm; [|done].
        intros [= <-]. eauto.
      * destruct e as [| | | |code| | | |]; try done.
        destruct code; try done.
        rewrite bool_decide_eq_false_2 by done.
        destruct (FS.mkdir t1 cwd name) eqn:Hm; [|done].
        intros [= <-]. eauto.
    + destruct (FS.mkdir t cwd name) eqn:Hm; [|done].
      intros [= <-]. eauto.
  - intros H Hdot. revert H.
    destruct (_ && _).
    + pose proof (makedirs_fuel_subseteq (String.length name) t cwd head) as Hsub.
      destruct (FS.makedirs_fuel _ t cwd head) as [t1 [[]|e]]; simpl in Hsub.
      * rewrite bool_decide_eq_false_2 by done.
        destruct (FS.mkdir t1 cwd name) eqn:Hm; [|done].
        intros [= <-]. eauto.
      * destruct e as [| | | |code| | | |]; try done.
        destruct code; try done.
        rewrite bool_decide_eq_false_2 by done.
        destruct (FS.mkdir t1 cwd name) eqn:Hm; [|done].
        intros [= <-]. eauto.
    + destruct (FS.mkdir t cwd name) eqn:Hm; [|done].
      intros [= <-]. eauto.
Qed.

Lemma makedirs_world_isdir (name : string) (w w' : World) :
  makedirs name w = Ok w' →
  makedirs_tail name ≠ "." →
  FS.exists_ (tree w) (cwd w) name = false
  ∧ FS.isdir (tree w') (cwd w) name = true.
Proof.
  unfold makedirs. simpl.
  destruct (FS.makedirs (tree w) (cwd w) name) as [t' [[]|e]] eqn:Hm; [|done].
  intros [= <-] Hdot. simpl.
  destruct (makedirs_ends_in_mkdir _ _ _ _ Hm Hdot) as (t1 & Hsub & Hmk).
  apply mkdir_isdir in Hmk as [Habs Hdir]. split; [|done].
  destruct (FS.exists_ (tree w) (cwd w) name) eqn:E; [|done].
  by rewrite (exists_mono _ _ _ _ Hsub E) in Habs.
Qed.

Lemma chdir_world (path : string) (w w' : World) :
  chdir path w = Ok w' →
  tree w' = tree w ∧ trace w' = (trace w ++ [EChdir path])%list
  ∧ FS.isdir (tree w) (cwd w) path = true
  ∧ FS.chdir (tree w) (cwd w) path = Ok (cwd w').
Proof.
  unfold chdir. simpl.
  destruct (FS.chdir _ _ _) as [d|] eqn:Hc; cbn; [|done].
  intros [= <-]. simpl. repeat split; try done.
  unfold FS.chdir in Hc. unfold FS.isdir.
  destruct (FS.stat _ _ _) as [[p n]|]; cbn in Hc; [|done].
  by destruct n.
Qed.

End EnsureDir.

(* ===================================================================== *)
(* Further properties of the helpers                                     *)
(* ===================================================================== *)
Module Helpers.

Lemma span_digits_spec (s : string) :
  all_digits (Str.span_digits s).1 = true
  ∧ s = (Str.span_digits s).1 +:+ (Str.span_digits s).2.
Proof.
  induction s as [|c s [IH1 IH2]]; simpl; [done|].
  destruct (Str.is_digit c) eqn:Hc; [|done].
  destruct (Str.span_digits s) as [d r]. simpl in *.
  rewrite Hc, IH1. split; [done|]. by rewrite IH2 at 1.
Qed.

Lemma strip_prefix_spec (p s r : string) :
  Str.strip_prefix p s = Some r → s = p +:+ r.
Proof.
  revert s. induction p as [|a p IH]; intros s; simpl.
  - by intros [= ->].
  - destruct s as [|b s]; [done|]. case_decide; [|done]. subst b.
    intros H. by rewrite (IH _ H).
Qed.

Lemma strip_prefix_app (p r : string) :
  Str.strip_prefix p (p +:+ r) = Some r.
Proof.
  induction p as [|a p IH]; simpl; [done|]. by rewrite decide_True.
Qed.

Lemma startswith_app (p r : string) : Str.startswith (p +:+ r) p = true.
Proof. unfold Str.startswith. by rewrite strip_prefix_app. Qed.

(* what one option key contributes to the list of link pairs *)
Lemma link_pair_of_key_cases (key : string) :
  (Str.startswith key "link_from" = false ∧ link_pair_of_key key = [])
  ∨ (∃ s rest,
       link_suffix s = true
       ∧ key = "link_from" +:+ s +:+ rest
       ∧ link_pair_of_key key = [("link_from" +:+ s, "link_to" +:+ s)]).
Proof.
  unfold link_pair_of_key, match_link_from, Str.startswith.
  destruct (Str.strip_prefix "link_from" key) as [rest|] eqn:Hp; [|by left].
  right. apply strip_prefix_spec in Hp. subst key.
  destruct rest as [|c after].
  { exists "", "". by split. }
  destruct (bool_decide (c = "."%char)) eqn:Hc; simpl.
  - destruct (span_digits_spec after) as [Hd Hs].
    destruct (bool_decide ((Str.span_digits after).1 = "")) eqn:He; simpl.
    + exists "", (String c after). by split.
    + apply bool_decide_eq_true in Hc. subst c.
      exists (String "." (Str.span_digits after).1), (Str.span_digits after).2.
      split; [simpl; by rewrite He, Hd|]. split; [|done].
      rewrite Hs at 1. reflexivity.
  - exists "", (String c after). by split.
Qed.

Lemma link_pair_of_key_length (key : string) :
  List.length (link_pair_of_key key)
  = if Str.startswith key "link_from" then 1 else 0.
Proof.
  destruct (link_pair_of_key_cases key) as [[-> ->]|(s & rest & _ & -> & ->)];
    [done|].
  by rewrite startswith_app.
Qed.

(** X1: every pair _get_links returns is (link_from + s, link_to + s) for
    a suffix s that is empty or a dot followed by digits, and comes from
    an option key that begins with link_from + s; there is exactly one
    pair for each option key that begins with link_from and none for the
    other keys. *)
Theorem get_links_pairs_well_formed
    (config : Config.t) (library : string) (keys : list string) :
  Config.options config library = Ok keys →
  ∃ links,
    _get_links config library = Ok links
    ∧ List.length links
      = List.length (filter (λ k, Str.startswith k "link_from" = true) keys)
    ∧ ∀ p, p ∈ links →
        ∃ s key rest,
          link_suffix s = true
          ∧ p = ("link_from" +:+ s, "link_to" +:+ s)
          ∧ key ∈ keys
          ∧ key = "link_from" +:+ s +:+ rest.
Proof.
  intros Hopts. eexists. split; [by apply get_links_unfold|]. split.
  - clear Hopts. induction keys as [|k keys IH]; [done|].
    simpl. rewrite length_app, IH, link_pair_of_key_length, filter_cons.
    destruct (Str.startswith k "link_from"); by case_decide.
  - intros p Hp. apply list_elem_of_In, in_flat_map in Hp as (key & Hk & Hp).
    destruct (link_pair_of_key_cases key) as [[_ E]|(s & rest & Hs & -> & E)];
      rewrite E in Hp; simpl in Hp; [done|].
    destruct Hp as [<-|[]]. exists s, ("link_from" +:+ s +:+ rest), rest.
    split; [done|]. split; [done|]. split; [by apply list_elem_of_In|done].
Qed.






(* the concatenation of two literal templates, computed *)
Ltac literal_template :=
  match goal with
  | |- context [percent_format (?a +:+ ?b) _] =>
      let t := eval vm_compute in (a +:+ b) in
      change (a +:+ b) with t
  end.

Lemma candidate_url_http
    (provider : string) (pd : provider_data) (p path_slice tag_or_branch : string) :
  PROVIDERS_getitem provider = Ok pd →
  tarball_path pd = Some p ∨ zipball_path pd = Some p →
  ∃ u, candidate_url pd (Some p) path_slice tag_or_branch = Ok (Some u)
       ∧ Str.startswith u "http" = true.
Proof.
  intros Hpd Hp. unfold PROVIDERS_getitem in Hpd.
  destruct (Config.assoc provider PROVIDERS) as [pd'|] eqn:E; [|done].
  injection Hpd as ->. unfold PROVIDERS in E. simpl in E.
  repeat (case_decide; [injection E as <-; simpl in Hp;
                        destruct Hp as [Hp|Hp]; try done;
                        injection Hp as <-;
                        eexists;
                        (split; [unfold candidate_url; simpl path_prefix;
                                 literal_template;
                                 cbv -[String.append]; reflexivity
                                |reflexivity])|]).
  done.
Qed.

(** X3: the candidate archive URLs of every built-in provider can always
    be rendered (formatting never fails) and begin with http, so that
    validating one always opens it: the shortcut for other schemes is
    never taken for them. *)
Theorem provider_candidates_are_http
    (provider : string) (pd : provider_data) (p path_slice tag_or_branch : string) :
  PROVIDERS_getitem provider = Ok pd →
  tarball_path pd = Some p ∨ zipball_path pd = Some p →
  ∃ u,
    candidate_url pd (Some p) path_slice tag_or_branch = Ok (Some u)
    ∧ Str.startswith u "http" = true
    ∧ ∀ env w valid w',
        _check_url env (Some u) w = Ok (valid, w') →
        w' = emit (EUrlopen u) w.
Proof.
  intros Hpd Hp.
  destruct (candidate_url_http provider pd p path_slice tag_or_branch Hpd Hp)
    as (u & Hu & Hhttp).
  exists u. split; [done|]. split; [done|].
  intros env w valid w'. unfold _check_url.
  assert (u ≠ "") as Hne by (by intros ->).
  rewrite bool_decide_eq_false_2 by done. rewrite Hhttp. simpl.
  destruct (urlopen env u) as [header|]; cbn; [|done].
  destruct (Str.search_digits _); [|done]. by intros [= _ <-].
Qed.

Lemma search_digits_none (s : string) :
  Str.search_digits s = None ↔ no_digit s = true.
Proof.
  induction s as [|c s IH]; simpl; [done|].
  destruct (Str.is_digit c); simpl; [done|]. apply IH.
Qed.

(** X4: validation of an http URL raises, instead of answering, when the
    request itself fails (the exception of urlopen goes through) and when
    the status header holds no digit (AttributeError from the missing
    match). *)
Theorem check_url_raises
    (env : Env) (u : string) (w : World) :
  Str.startswith u "http" = true →
  (∀ e, urlopen env u = Raise e → _check_url env (Some u) w = Raise e)
  ∧ (∀ h, urlopen env u = Ok (Some h) → no_digit h = true →
          _check_url env (Some u) w = Raise AttributeError).
Proof.
  intros Hp. assert (u ≠ "") as Hne by (by intros ->).
  unfold _check_url. rewrite bool_decide_eq_false_2 by done. rewrite Hp. simpl.
  split.
  - intros e ->. done.
  - intros h -> Hd. cbn. apply search_digits_none in Hd. by rewrite Hd.
Qed.

End Helpers.

Lemma get_links_pairs_well_formed_witness :
  ∃ links,
    _get_links lone_backup_config "Lib" = Ok links
    ∧ List.length links
      = List.length (filter (λ k, Str.startswith k "link_from" = true)
                       ["type"; "url"; "tag"; "link_from.10x"; "link_to.10";
                        "link_from."; "link_target"])
    ∧ ∀ p, p ∈ links →
        ∃ s key rest,
          link_suffix s = true
          ∧ p = ("link_from" +:+ s, "link_to" +:+ s)
          ∧ key ∈ ["type"; "url"; "tag"; "link_from.10x"; "link_to.10";
                   "link_from."; "link_target"]
          ∧ key = "link_from" +:+ s +:+ rest.
Proof.
  apply (Helpers.get_links_pairs_well_formed lone_backup_config "Lib").
  reflexivity.
Defined.


Lemma provider_candidates_are_http_witness :
  ∃ u,
    candidate_url
      {| path_prefix := "http://gitorious.org/%s";
         tarball_path := Some "/archive-tarball/%s";
         zipball_path := None; auth := None |}
      (Some "/archive-tarball/%s") "proj/repo" "master" = Ok (Some u)
    ∧ Str.startswith u "http" = true
    ∧ ∀ env w valid w',
        _check_url env (Some u) w = Ok (valid, w') →
        w' = emit (EUrlopen u) w.
Proof.
  apply (Helpers.provider_candidates_are_http "gitorious");
    [reflexivity | left; reflexivity].
Defined.

Lemma check_url_raises_witness :
  (∀ e, urlopen env_odd_status "http://host/a" = Raise e →
        _check_url env_odd_status (Some "http://host/a") fresh_world = Raise e)
  ∧ (∀ h, urlopen env_odd_status "http://host/a" = Ok (Some h) →
          no_digit h = true →
          _check_url env_odd_status (Some "http://host/a") fresh_world
          = Raise AttributeError).
Proof.
  apply (Helpers.check_url_raises env_odd_status "http://host/a" fresh_world).
  reflexivity.
Defined.

(* ===================================================================== *)
(* Keys that begin with link_from                                        *)
(* ===================================================================== *)
Module LinkKeys.
Import Helpers.






End LinkKeys.



(* ===================================================================== *)
(* Validation of the candidate archive URLs                              *)
(* ===================================================================== *)
Module Validation.
Import Helpers.





End Validation.


(* ===================================================================== *)
(* The storage directory: when _ensure_dir returns                       *)
(* ===================================================================== *)
Module Storage.
Import Resolve PathFacts FSFacts FSOps LinkPass EnsureDir Helpers.

Local Abbreviation slash := ("/"%char).

(* --- a name joined to a directory ------------------------------------ *)









(* --- what a name in a directory resolves to --------------------------- *)









(* --- os.makedirs of a name in a directory ----------------------------- *)








(* --- the namespace directory ------------------------------------------ *)







(* --- the calls, when they go through ---------------------------------- *)







End Storage.



(* ===================================================================== *)
(* What the passes never do                                              *)
(* ===================================================================== *)
Module Tame.
Import Resolve PathFacts FSFacts FSOps LinkPass.

Lemma tame_for_each {A} (allowed : event → bool)
    (body : A → World → result World) (l : list A) :
  (∀ x, tame allowed (body x)) → tame allowed (for_each body l).
Proof.
  intros Hb. induction l as [|x l IH]; intros w w'; simpl.
  - intros [= <-]. split; [done|]. split; [|done].
    exists []. by rewrite app_nil_r.
  - destruct (body x w) as [w1|] eqn:H1; cbn; [|done]. intros H2.
    destruct (Hb x _ _ H1) as (Hc1 & (d1 & Hd1 & Ha1) & Hk1).
    destruct (IH _ _ H2) as (Hc2 & (d2 & Hd2 & Ha2) & Hk2).
    split; [congruence|]. split.
    + exists (d1 ++ d2)%list. rewrite Hd2, Hd1, app_assoc. split; [done|].
      by rewrite forallb_app, Ha1, Ha2.
    + intros p n Hp Hn. apply Hk2; [|done]. by apply Hk1.
Qed.

Lemma tame_bind {A} (allowed : event → bool) (r : result A)
    (f : A → World → result World) :
  (∀ a, tame allowed (f a)) → tame allowed (λ w, a ← r; f a w).
Proof. intros Hf. destruct r as [a|e]; cbn; [apply Hf|]. by intros w w'. Qed.

Lemma tame_ext (allowed : event → bool) (f g : World → result World) :
  (∀ w, f w = g w) → tame allowed g → tame allowed f.
Proof. intros Hfg Hg w w' H. rewrite Hfg in H. by apply Hg. Qed.

(* the node lstat finds is the one the tree holds at that place *)
Lemma lstat_link_lookup (t : FS.files) (cwd : list string) (p : string)
    (e : list string) (x : string) :
  FS.lstat t cwd p = Ok (e, FS.Link x) → t !! e = Some (FS.Link x).
Proof.
  unfold FS.lstat.
  destruct (FS.entry t cwd p) as [[e'|]|]; cbn; [| |done].
  - destruct (t !! e') as [n|] eqn:E; [|done]. by intros [= <- <-].
  - unfold FS.stat. case_bool_decide; [done|].
    destruct (FS.walk _ _ _ _) as [[b d]|]; cbn; [|done].
    destruct (FS.kind t d) as [n|] eqn:Hk; [|done]. intros [= -> ->].
    by destruct e.
Qed.

(* os.unlink of what os.path.islink accepts removes that link and        *)
(* nothing else                                                          *)
Lemma unlink_of_link (p : string) (w : World) :
  FS.islink (tree w) (cwd w) p = true →
  ∃ e x, tree w !! e = Some (FS.Link x)
         ∧ unlink p w = Ok (with_tree (delete e (tree w)) (emit (EUnlink p) w)).
Proof.
  unfold FS.islink.
  destruct (FS.lstat (tree w) (cwd w) p) as [[e n]|] eqn:Hl; [|done].
  destruct n as [| |x]; [done|done|]. intros _.
  exists e, x. split; [by eapply lstat_link_lookup|].
  unfold unlink, FS.unlink. simpl. by rewrite Hl.
Qed.

Lemma delete_link_keeps (t : FS.files) (e p : list string) (x : string)
    (n : FS.node) :
  t !! e = Some (FS.Link x) → t !! p = Some n → not_link n = true →
  delete e t !! p = Some n.
Proof.
  intros He Hp Hn. rewrite lookup_delete_ne; [done|].
  intros ->. rewrite He in Hp. injection Hp as <-. done.
Qed.

Lemma link_at_tame (args : Args) (lf lt : string) :
  tame link_event (link_at args lf lt).
Proof.
  intros w w'. unfold link_at.
  destruct (if negb _ then _ else _) as [wa|] eqn:Ha; cbn; [|done].
  assert (cwd wa = cwd w
          ∧ (∃ d, trace wa = (trace w ++ d)%list ∧ forallb link_event d = true)
          ∧ tree w ⊆ tree wa) as (Hca & (da & Hda & Hea) & Hta).
  { destruct (negb _).
    - apply makedirs_world in Ha as (Hs & Hc & Ht & _).
      split; [done|]. split; [|done]. eexists. split; [done|done].
    - injection Ha as <-. split; [done|]. split; [|done].
      exists []. by rewrite app_nil_r. }
  set (wb := _message args _ wa).
  assert (cwd wb = cwd w) as Hcb by (unfold wb; by rewrite message_cwd).
  assert (tree wb = tree wa) as Htb by apply message_tree.
  assert (∃ d, trace wb = (trace w ++ d)%list ∧ forallb link_event d = true)
    as (db & Hdb & Heb).
  { unfold wb. rewrite message_trace, Hda, <- app_assoc. eexists.
    split; [done|]. rewrite forallb_app, Hea. by destruct (very_quiet args). }
  assert (∃ wc, (if FS.islink (tree wb) (cwd wb) lt then unlink lt wb else Ok wb)
                = Ok wc
          ∧ cwd wc = cwd w
          ∧ (∃ d, trace wc = (trace w ++ d)%list ∧ forallb link_event d = true)
          ∧ ∀ p n, tree wb !! p = Some n → not_link n = true →
                   tree wc !! p = Some n) as (wc & -> & Hcc & (dc & Hdc & Hec) & Hkc).
  { destruct (FS.islink _ _ _) eqn:Hl.
    - destruct (unlink_of_link _ _ Hl) as (e & x & He & ->).
      eexists. split; [done|]. simpl. split; [done|]. split.
      + rewrite Hdb, <- app_assoc. eexists. split; [done|].
        by rewrite forallb_app, Heb.
      + intros p n Hp Hn. by eapply delete_link_keeps.
    - exists wb. split; [done|]. split; [done|]. split; [eauto|done]. }
  cbn. clear Ha.
  destruct (if negb (FS.exists_ _ _ _) then _ else _) as [wd|] eqn:Hd;
    cbn; [|done].
  assert (cwd wd = cwd w
          ∧ (∃ d, trace wd = (trace w ++ d)%list ∧ forallb link_event d = true)
          ∧ tree wc ⊆ tree wd) as (Hcd & (dd & Hdd & Hed) & Htd).
  { destruct (negb _).
    - apply symlink_world in Hd as (Hc & Ht & _ & e & _ & Hl & Hins).
      split; [congruence|]. split.
      + rewrite Ht, Hdc, <- app_assoc. eexists. split; [done|].
        by rewrite forallb_app, Hec.
      + rewrite Hins. apply insert_subseteq. exact Hl.
    - injection Hd as <-. split; [done|]. split; [eauto|done]. }
  intros H. apply record_link_fields in H as (Ht & Hc & Htr).
  split; [congruence|]. split; [rewrite Htr; eauto|].
  intros p n Hp Hn. rewrite Ht.
  apply (lookup_weaken (tree wc) (tree wd) p n); [|exact Htd].
  apply Hkc; [|done]. rewrite Htb.
  exact (lookup_weaken (tree w) (tree wa) p n Hp Hta).
Qed.

Lemma do_link_tame (args : Args) (config : Config.t) :
  tame link_event (_do_link args config).
Proof.
  unfold _do_link. apply tame_for_each. intros library. unfold link_library.
  apply (tame_bind link_event (_get_links config library)
           (λ links, for_each (link_pair args config library) links)).
  intros links. apply tame_for_each. intros keys.
  eapply tame_ext; [intros w; apply link_pair_split|].
  apply (tame_bind link_event (link_endpoints args config library keys)
           (λ p w, let '(lf, lt) := p in link_at args lf lt w)).
  intros [lf lt]. apply link_at_tame.
Qed.

(** X5: the link pass never removes or replaces a regular file or a
    directory: every node of the tree that is not a symbolic link is
    still there, unchanged, when the pass returns. It opens no URL, runs
    no command and does not change the working directory: all it does is
    print, make directories, remove links and make links. *)
Theorem link_pass_keeps_files_and_directories
    (args : Args) (config : Config.t) (w w' : World) :
  _do_link args config w = Ok w' →
  (∀ p n, tree w !! p = Some n → not_link n = true → tree w' !! p = Some n)
  ∧ cwd w' = cwd w
  ∧ ∃ d, trace w' = (trace w ++ d)%list ∧ forallb link_event d = true.
Proof.
  intros H. destruct (do_link_tame args config _ _ H) as (Hc & Hd & Hk).
  done.
Qed.

End Tame.

Lemma link_pass_keeps_files_and_directories_witness :
  let w' := after (_do_link dojo_args nested_config stale_link_world)
              fresh_world in
  (∀ p n, tree stale_link_world !! p = Some n → not_link n = true →
          tree w' !! p = Some n)
  ∧ cwd w' = cwd stale_link_world
  ∧ ∃ d, trace w' = (trace stale_link_world ++ d)%list
         ∧ forallb link_event d = true.
Proof.
  apply (Tame.link_pass_keeps_files_and_directories dojo_args nested_config).
  vm_compute. reflexivity.
Defined.

(* ===================================================================== *)
(* The unlink pass                                                       *)
(* ===================================================================== *)
Module UnlinkPass.
Import Tame.

Lemma pruned_refl (t : FS.files) : pruned t t.
Proof. split; [reflexivity|done]. Qed.

Lemma pruned_trans (t1 t2 t3 : FS.files) :
  pruned t1 t2 → pruned t2 t3 → pruned t1 t3.
Proof.
  intros [Hs1 Hf1] [Hs2 Hf2]. split.
  - transitivity t2; [exact Hs2 | exact Hs1].
  - intros p Hp. apply Hf2, Hf1, Hp.
Qed.

Lemma pruned_delete (t : FS.files) (e : list string) (n : FS.node) :
  t !! e = Some n → n ≠ FS.File → pruned t (delete e t).
Proof.
  intros He Hn. split; [apply delete_subseteq|].
  intros p Hp. rewrite lookup_delete_ne; [done|].
  intros ->. rewrite He in Hp. by injection Hp.
Qed.

Lemma rmdir_pruned (t t' : FS.files) (cwd : list string) (path : string) :
  FS_rmdir t cwd path = Some t' → pruned t t'.
Proof.
  unfold FS_rmdir. case_bool_decide; [done|]. case_bool_decide; [done|].
  destruct (FS.entry t cwd _) as [[e|]|]; [|done|done].
  destruct (t !! e) as [[| |x]|] eqn:He; try done.
  destruct (forallb _ _); [|done]. intros [= <-].
  by eapply pruned_delete.
Qed.

Lemma removedirs_loop_pruned (fuel : nat) (t : FS.files) (cwd : list string)
    (head tail : string) :
  pruned t (removedirs_loop fuel t cwd head tail).
Proof.
  revert t head tail.
  induction fuel as [|fuel IH]; intros t head tail; simpl;
    [apply pruned_refl|].
  destruct (_ && _); [|apply pruned_refl].
  destruct (FS_rmdir t cwd head) as [t'|] eqn:Hr; [|apply pruned_refl].
  destruct (Path.split head) as [head' tail'].
  eapply pruned_trans; [by eapply rmdir_pruned|apply IH].
Qed.

(* os.removedirs takes directories away and nothing else *)
Lemma removedirs_pruned (t : FS.files) (cwd : list string) (name : string) :
  pruned t (FS_removedirs t cwd name).
Proof.
  unfold FS_removedirs.
  destruct (FS_rmdir t cwd name) as [t'|] eqn:Hr; [|apply pruned_refl].
  destruct (Path.split name) as [head tail].
  destruct (if bool_decide (tail = "") then _ else _) as [head' tail'].
  eapply pruned_trans; [by eapply rmdir_pruned|apply removedirs_loop_pruned].
Qed.

(* one recorded link: the step always succeeds *)
Lemma unlink_recorded_spec (item : string * string) (w : World) :
  ∃ w', unlink_recorded item w = Ok w'
        ∧ pruned (tree w) (tree w')
        ∧ cwd w' = cwd w
        ∧ linkinfo w' = linkinfo w
        ∧ ∃ d, trace w' = (trace w ++ d)%list ∧ forallb unlink_event d = true.
Proof.
  unfold unlink_recorded.
  destruct (FS.islink (tree w) (cwd w) item.2) eqn:Hl.
  - destruct (unlink_of_link _ _ Hl) as (e & x & He & ->). cbn.
    eexists. split; [done|]. simpl. split; [|split; [done|split; [done|]]].
    + eapply pruned_trans; [|apply removedirs_pruned].
      by eapply pruned_delete.
    + by exists [EUnlink item.2].
  - cbn. eexists. split; [done|]. simpl.
    split; [apply removedirs_pruned|]. split; [done|]. split; [done|].
    exists []. by rewrite app_nil_r.
Qed.

Lemma unlink_all_spec (items : list (string * string)) (w : World) :
  ∃ w', for_each unlink_recorded items w = Ok w'
        ∧ pruned (tree w) (tree w')
        ∧ cwd w' = cwd w
        ∧ linkinfo w' = linkinfo w
        ∧ ∃ d, trace w' = (trace w ++ d)%list ∧ forallb unlink_event d = true.
Proof.
  revert w. induction items as [|item items IH]; intros w; simpl.
  - exists w. split; [done|]. split; [apply pruned_refl|].
    split; [done|]. split; [done|]. exists []. by rewrite app_nil_r.
  - destruct (unlink_recorded_spec item w)
      as (w1 & -> & Hp1 & Hc1 & Hl1 & d1 & Hd1 & He1). cbn.
    destruct (IH w1) as (w2 & -> & Hp2 & Hc2 & Hl2 & d2 & Hd2 & He2).
    exists w2. split; [done|]. split; [by eapply pruned_trans|].
    split; [congruence|]. split; [congruence|].
    exists (d1 ++ d2)%list. rewrite Hd2, Hd1, app_assoc. split; [done|].
    by rewrite forallb_app, He1, He2.
Qed.

Lemma assoc_dict_del {V} (k : string) (l : list (string * V)) :
  Config.assoc k (dict_del k l) = None.
Proof.
  induction l as [|[k' v] l IH]; simpl; [done|].
  case_decide; [done|]. simpl. by rewrite decide_False.
Qed.

Lemma assoc_dict_del_ne {V} (k k' : string) (l : list (string * V)) :
  k' ≠ k → Config.assoc k' (dict_del k l) = Config.assoc k' l.
Proof.
  intros Hne. induction l as [|[k0 v] l IH]; simpl; [done|].
  destruct (decide (k0 = k)) as [->|Hk]; simpl.
  - rewrite IH. by rewrite decide_False.
  - by rewrite IH.
Qed.

(* the unlink pass on the registry and the tree *)
Lemma do_unlink_spec (args : Args) (w : World) :
  ∃ w',
    _do_unlink args w = Ok w'
    ∧ pruned (tree w) (tree w')
    ∧ cwd w' = cwd w
    ∧ Config.defaults (linkinfo w') = Config.defaults (linkinfo w)
    ∧ Config.assoc (FS.abspath (cwd w) (libroot args))
        (Config.sections_ (linkinfo w')) = None
    ∧ (∀ s, s ≠ FS.abspath (cwd w) (libroot args) →
            Config.assoc s (Config.sections_ (linkinfo w'))
            = Config.assoc s (Config.sections_ (linkinfo w)))
    ∧ (∃ d, trace w' = (trace w ++ d)%list ∧ forallb unlink_event d = true)
    ∧ (Config.has_section (linkinfo w) (FS.abspath (cwd w) (libroot args))
       = false → w' = w).
Proof.
  unfold _do_unlink. set (sect := FS.abspath (cwd w) (libroot args)).
  destruct (Config.has_section (linkinfo w) sect) eqn:Hs.
  - assert (∃ items, Config_items (linkinfo w) sect = Ok items) as [items ->].
    { unfold Config.has_section, Config.has_key in Hs. unfold Config_items.
      destruct (Config.assoc sect _); [eauto|done]. }
    cbn. destruct (unlink_all_spec items w)
      as (w1 & -> & Hp & Hc & Hl & Hd). cbn.
    eexists. split; [done|]. simpl. split; [done|]. split; [done|].
    rewrite Hl. split; [done|]. split; [|split; [|split; [done|done]]].
    + by rewrite assoc_dict_del.
    + intros s Hne. by apply assoc_dict_del_ne.
  - exists w. split; [done|]. split; [apply pruned_refl|]. split; [done|].
    split; [done|]. split.
    { unfold Config.has_section, Config.has_key in Hs.
      by destruct (Config.assoc sect _). }
    split; [done|]. split; [|done].
    exists []. by rewrite app_nil_r.
Qed.

(** X6: the unlink pass completes. On a registry whose values for the
    section of the library root hold no percent sign (they are then read
    back as they were stored), the pass never raises, whatever the
    registry and the tree hold otherwise. It only takes links and
    directories away (nothing is added, every regular file stays), does
    not move the process, and afterwards the registry has no section for
    the library root while its other sections are as before. If there was
    no such section to begin with, nothing at all changes. *)
Theorem unlink_pass_completes (args : Args) (w : World) :
  plain_items (linkinfo w) (FS.abspath (cwd w) (libroot args)) = true →
  ∃ w',
    _do_unlink args w = Ok w'
    ∧ pruned (tree w) (tree w')
    ∧ cwd w' = cwd w
    ∧ Config.has_section (linkinfo w') (FS.abspath (cwd w) (libroot args))
      = false
    ∧ (∀ s, s ≠ FS.abspath (cwd w) (libroot args) →
            Config.assoc s (Config.sections_ (linkinfo w'))
            = Config.assoc s (Config.sections_ (linkinfo w)))
    ∧ (∃ d, trace w' = (trace w ++ d)%list ∧ forallb unlink_event d = true)
    ∧ (Config.has_section (linkinfo w) (FS.abspath (cwd w) (libroot args))
       = false → w' = w).
Proof.
  intros _.
  destruct (do_unlink_spec args w)
    as (w' & H & Hp & Hc & _ & Hs & Ho & Hd & Hn).
  exists w'. split; [done|]. split; [done|]. split; [done|].
  split; [|done]. unfold Config.has_section, Config.has_key. by rewrite Hs.
Qed.

End UnlinkPass.

Lemma unlink_pass_completes_witness :
  ∃ w',
    _do_unlink dojo_args linked_world = Ok w'
    ∧ pruned (tree linked_world) (tree w')
    ∧ cwd w' = cwd linked_world
    ∧ Config.has_section (linkinfo w')
        (FS.abspath (cwd linked_world) (libroot dojo_args)) = false
    ∧ (∀ s, s ≠ FS.abspath (cwd linked_world) (libroot dojo_args) →
            Config.assoc s (Config.sections_ (linkinfo w'))
            = Config.assoc s (Config.sections_ (linkinfo linked_world)))
    ∧ (∃ d, trace w' = (trace linked_world ++ d)%list
            ∧ forallb unlink_event d = true)
    ∧ (Config.has_section (linkinfo linked_world)
         (FS.abspath (cwd linked_world) (libroot dojo_args)) = false →
       w' = linked_world).
Proof.
  apply (UnlinkPass.unlink_pass_completes dojo_args linked_world).
  vm_compute. reflexivity.
Defined.

(* ===================================================================== *)
(* The update pass                                                       *)
(* ===================================================================== *)
Module UpdatePass.

(* What holds between the world before and the world after every step of *)
(* the update pass holds between the worlds before and after the pass.   *)
Section Steps.

Variable env : Env.
Variable R : World → World → Prop.
Hypothesis R_refl : ∀ w, R w w.
Hypothesis R_trans : ∀ w1 w2 w3, R w1 w2 → R w2 w3 → R w1 w3.
Hypothesis R_print : ∀ m w, R w (emit (EPrint m) w).
Hypothesis R_urlopen : ∀ u w, R w (emit (EUrlopen u) w).
Hypothesis R_system : ∀ cmd w, R w (system env cmd w).
Hypothesis R_makedirs : ∀ name w w', makedirs name w = Ok w' → R w w'.
Hypothesis R_chdir : ∀ path w w', chdir path w = Ok w' → R w w'.

Lemma message_step (args : Args) (m : string) (w : World) :
  R w (_message args m w).
Proof. unfold _message. destruct (negb _); [apply R_print|apply R_refl]. Qed.

Lemma check_and_run_cmd_step (args : Args) (cmd msg : string) (w : World) :
  R w (_check_and_run_cmd env args cmd msg w).
Proof.
  unfold _check_and_run_cmd. destruct (negb _); [|apply message_step].
  eapply R_trans; [apply message_step|apply R_system].
Qed.

Lemma check_url_step (url : option string) (w w' : World) (valid : bool) :
  _check_url env url w = Ok (valid, w') → R w w'.
Proof.
  unfold _check_url. destruct url as [u|]; [|intros [= _ <-]; apply R_refl].
  case_bool_decide; [intros [= _ <-]; apply R_refl|].
  destruct (negb _); [intros [= _ <-]; apply R_refl|].
  destruct (urlopen env u); cbn; [|done].
  destruct (Str.search_digits _); [|done]. intros [= _ <-].
  apply R_urlopen.
Qed.

Lemma ensure_dir_step (args : Args) (config : Config.t)
    (library subdir : string) (w w' : World) (created : bool) :
  _ensure_dir env args config library subdir w = Ok (created, w') → R w w'.
Proof.
  unfold _ensure_dir.
  destruct (_extdir_from_library args config library) as [extdir|]; [|done].
  cbn. set (path := Path.join extdir subdir).
  assert (∀ (c : bool) (w0 : World), R w w0 →
            (w1 ← (if c then makedirs path w0 else Ok w0);
             w2 ← chdir extdir w1; Ok (c, w2)) = Ok (created, w') →
            R w w') as Hrest.
  { intros c w0 H0.
    destruct (if c then _ else _) as [w1|] eqn:H1; cbn; [|done].
    destruct (chdir extdir w1) as [w2|] eqn:H2; cbn; [|done].
    intros [= _ <-]. eapply R_trans; [|by eapply R_chdir].
    eapply R_trans; [exact H0|].
    destruct c; [by eapply R_makedirs|].
    injection H1 as <-. apply R_refl. }
  destruct (FS.exists_ _ _ _); [destruct (force args)|].
  - apply (Hrest true).
    eapply R_trans; [apply message_step|apply R_system].
  - apply (Hrest false). apply message_step.
  - apply (Hrest true). apply R_refl.
Qed.

Lemma fetch_from_repo_step (args : Args) (config : Config.t)
    (library tag : string) (w w' : World) :
  _fetch_from_repo env args config library tag w = Ok w' → R w w'.
Proof.
  unfold _fetch_from_repo.
  destruct (Config.get config library "url") as [url|]; [|done]. cbn.
  destruct (_ensure_dir _ _ _ _ _ _) as [[created w1]|] eqn:He; cbn; [|done].
  apply ensure_dir_step in He.
  destruct created; intros [= <-];
    (eapply R_trans; [exact He|apply check_and_run_cmd_step]).
Qed.

Lemma fetch_from_provider_step (args : Args) (config : Config.t)
    (library tag provider : string) (w w' : World) :
  _fetch_from_provider env args config library tag provider w = Ok w' →
  R w w'.
Proof.
  unfold _fetch_from_provider.
  destruct (_ensure_dir _ _ _ _ _ _) as [[created w1]|] eqn:He; cbn; [|done].
  apply ensure_dir_step in He.
  destruct created; [|by intros [= <-]].
  destruct (PROVIDERS_getitem provider) as [pd|]; cbn; [|done].
  destruct (Config.get config library "url") as [slice|]; cbn; [|done].
  destruct (match tarball_path pd with Some _ => _ | None => _ end)
    as [url_tarball|]; cbn; [|done].
  destruct (match zipball_path pd with Some _ => _ | None => _ end)
    as [url_zipball|]; cbn; [|done].
  destruct (_check_url env url_tarball w1) as [[ok_tar w2]|] eqn:Ht; cbn; [|done].
  apply check_url_step in Ht.
  destruct ok_tar; cbn.
  - intros [= <-]. eapply R_trans; [exact He|].
    eapply R_trans; [exact Ht|apply check_and_run_cmd_step].
  - destruct (_check_url env url_zipball w2) as [[ok_zip w3]|] eqn:Hz; cbn; [|done].
    apply check_url_step in Hz.
    destruct ok_zip; cbn; [|done].
    intros [= <-]. eapply R_trans; [exact He|].
    eapply R_trans; [exact Ht|].
    eapply R_trans; [exact Hz|apply check_and_run_cmd_step].
Qed.

Lemma update_library_step (args : Args) (config : Config.t)
    (library : string) (w w' : World) :
  update_library env args config library w = Ok w' → R w w'.
Proof.
  unfold update_library.
  destruct (_tag_or_branch config library) as [tag|]; cbn; [|done].
  destruct (_type config library) as [provider|]; cbn; [|done].
  case_bool_decide; [apply fetch_from_repo_step|].
  destruct (in_PROVIDERS provider); [apply fetch_from_provider_step|].
  intros [= <-]. apply message_step.
Qed.

Lemma for_each_step {A} (body : A → World → result World) (l : list A) :
  (∀ x w w', body x w = Ok w' → R w w') →
  ∀ w w', for_each body l w = Ok w' → R w w'.
Proof.
  intros Hb. induction l as [|x l IH]; intros w w'; simpl.
  - intros [= <-]. apply R_refl.
  - destruct (body x w) as [w1|] eqn:H1; cbn; [|done]. intros H2.
    eapply R_trans; [by eapply Hb|by eapply IH].
Qed.

(* the libraries one after the other, before the return to the starting *)
(* directory                                                             *)
Lemma update_loop_step (args : Args) (config : Config.t) (w w' : World) :
  for_each (update_library env args config) (Config.sections config) w
    = Ok w' →
  R w w'.
Proof. apply for_each_step. intros x. apply update_library_step. Qed.

Lemma do_update_step (args : Args) (config : Config.t) (w w' : World) :
  _do_update env args config w = Ok w' → R w w'.
Proof.
  unfold _do_update.
  destruct (for_each _ _ w) as [w1|] eqn:H1; cbn; [|done]. intros H2.
  apply (R_trans w w1 w'); [by eapply update_loop_step|by eapply R_chdir].
Qed.

End Steps.

Lemma registry_kept_refl (w : World) : registry_kept w w.
Proof. split; [done|]. exists []. by rewrite app_nil_r. Qed.

Lemma registry_kept_trans (w1 w2 w3 : World) :
  registry_kept w1 w2 → registry_kept w2 w3 → registry_kept w1 w3.
Proof.
  intros [Hl1 (d1 & Hd1 & He1)] [Hl2 (d2 & Hd2 & He2)]. split; [congruence|].
  exists (d1 ++ d2)%list. rewrite Hd2, Hd1, app_assoc. split; [done|].
  by rewrite forallb_app, He1, He2.
Qed.

Lemma registry_kept_emit (e : event) (w : World) :
  update_event e = true → registry_kept w (emit e w).
Proof. intros He. split; [done|]. exists [e]. simpl. by rewrite He. Qed.

Lemma system_kept (env : Env) (cmd : string) (w : World) :
  registry_kept w (system env cmd w).
Proof. split; [done|]. by exists [ESystem cmd]. Qed.

Lemma makedirs_kept (name : string) (w w' : World) :
  makedirs name w = Ok w' → registry_kept w w'.
Proof.
  unfold makedirs. simpl.
  destruct (FS.makedirs _ _ _) as [t [[]|e]]; [|done].
  intros [= <-]. split; [done|]. by exists [EMakedirs name].
Qed.

Lemma chdir_kept (path : string) (w w' : World) :
  chdir path w = Ok w' → registry_kept w w'.
Proof.
  unfold chdir. simpl. destruct (FS.chdir _ _ _); cbn; [|done].
  intros [= <-]. split; [done|]. by exists [EChdir path].
Qed.

Lemma do_update_kept (env : Env) (args : Args) (config : Config.t)
    (w w' : World) :
  _do_update env args config w = Ok w' → registry_kept w w'.
Proof.
  apply (do_update_step env registry_kept registry_kept_refl
           registry_kept_trans).
  - intros m v. by apply registry_kept_emit.
  - intros u v. by apply registry_kept_emit.
  - apply system_kept.
  - apply makedirs_kept.
  - apply chdir_kept.
Qed.

(** X7: the update pass leaves the link registry as it found it and
    neither removes nor makes a symbolic link itself: whatever it does to
    the world goes through printing, making directories, changing the
    working directory, opening URLs and running commands. *)
Theorem update_pass_keeps_registry
    (env : Env) (args : Args) (config : Config.t) (w w' : World) :
  _do_update env args config w = Ok w' →
  linkinfo w' = linkinfo w
  ∧ ∃ d, trace w' = (trace w ++ d)%list ∧ forallb update_event d = true.
Proof.
  intros H. apply do_update_kept in H as [Hl (d & Hd & He)].
  split; [exact Hl|]. exists d. by split.
Qed.

End UpdatePass.

Lemma update_pass_keeps_registry_witness :
  let w' := after (_do_update env_no_status dojo_args dojo_config fresh_world)
              fresh_world in
  linkinfo w' = linkinfo fresh_world
  ∧ ∃ d, trace w' = (trace fresh_world ++ d)%list
         ∧ forallb update_event d = true.
Proof.
  apply (UpdatePass.update_pass_keeps_registry env_no_status dojo_args
           dojo_config).
  vm_compute. reflexivity.
Defined.

Module Fetch.
Import UpdatePass.

Lemma for_each_app {A} (body : A → World → result World) (l1 l2 : list A)
    (w : World) :
  for_each body (l1 ++ l2) w = w1 ← for_each body l1 w; for_each body l2 w1.
Proof.
  revert w. induction l1 as [|x l1 IH]; intros w; simpl; [done|].
  destruct (body x w) as [w1|]; cbn; [apply IH|done].
Qed.

Lemma has_section_of_sections (config : Config.t) (library : string) :
  library ∈ Config.sections config →
  Config.has_section config library = true.
Proof.
  unfold Config.sections, Config.has_section, Config.has_key.
  induction (Config.sections_ config) as [|[k v] l IH]; simpl.
  - intros H. by apply elem_of_nil in H.
  - intros H. case_decide; [done|].
    apply elem_of_cons in H as [->|H]; [done|]. by apply IH.
Qed.

(** X8: a library with neither tag nor branch stops the whole update
    pass: once the libraries listed before it have been updated, the pass
    raises the parser's NoOptionError for the option branch of that
    library, before doing anything for it; the libraries after it are not
    reached. *)
Theorem update_pass_stops_at_missing_reference
    (env : Env) (args : Args) (config : Config.t)
    (before rest : list string) (library : string) (w w1 : World) :
  Config.sections config = (before ++ library :: rest)%list →
  section_name library →
  configured config library "tag" = None →
  configured config library "branch" = None →
  for_each (update_library env args config) before w = Ok w1 →
  update_library env args config library w1
    = Raise (NoOptionError "branch" library)
  ∧ _do_update env args config w = Raise (NoOptionError "branch" library).
Proof.
  intros Hsec Hname Htag Hbranch Hbefore.
  assert (Config.has_section config library = true) as Hhas.
  { apply has_section_of_sections. rewrite Hsec.
    apply elem_of_app. right. apply elem_of_cons. by left. }
  assert (update_library env args config library w1
          = Raise (NoOptionError "branch" library)) as Hlib.
  { unfold update_library, _tag_or_branch.
    rewrite has_option_configured by done.
    rewrite !get_configured by done. rewrite Htag, Hbranch.
    by rewrite bool_decide_eq_false_2 by (by intros [? ?]). }
  split; [done|].
  unfold _do_update. rewrite Hsec, for_each_app, Hbefore. cbn.
  by rewrite Hlib.
Qed.

(** X9: for an archive provider, a checkout that is already there is left
    alone when force is unset: no URL is opened, no command is run and the
    tree does not change; the call only prints that the directory already
    exists and moves to the namespace directory. *)
Theorem provider_fetch_skipped_when_present
    (env : Env) (args : Args) (config : Config.t)
    (library tag provider extdir : string) (w w' : World) :
  _extdir_from_library args config library = Ok extdir →
  FS.exists_ (tree w) (cwd w) (Path.join extdir tag) = true →
  force args = false →
  _fetch_from_provider env args config library tag provider w = Ok w' →
  tree w' = tree w
  ∧ linkinfo w' = linkinfo w
  ∧ trace w'
    = (trace w
       ++ (if very_quiet args then []
           else [EPrint (Path.join extdir tag +:+ " already exists")])
       ++ [EChdir extdir])%list.
Proof.
  intros Hext Hex Hf. unfold _fetch_from_provider, _ensure_dir.
  rewrite Hext. cbn. rewrite Hex, Hf. cbn.
  destruct (chdir extdir _) as [w2|] eqn:Hc; cbn; [|done].
  intros [= <-]. unfold chdir in Hc. simpl in Hc.
  destruct (FS.chdir _ _ _) as [d|]; cbn in Hc; [|done].
  injection Hc as <-. simpl.
  rewrite message_tree, message_linkinfo, message_trace, <- app_assoc. done.
Qed.

#[local] Arguments _check_url : simpl never.
#[local] Arguments _check_and_run_cmd : simpl never.
#[local] Arguments percent_format : simpl never.

(** X10: the tarball is preferred: when the directory is newly made and
    the tarball URL validates, the zipball URL is never opened, and the
    one command run fetches the tarball with curl and unpacks it with tar
    into the version directory, after the progress message. *)
Theorem provider_fetch_prefers_tarball
    (env : Env) (args : Args) (config : Config.t)
    (library tag provider slice p u : string) (pd : provider_data)
    (w w1 w2 : World) :
  _ensure_dir env args config library tag w = Ok (true, w1) →
  PROVIDERS_getitem provider = Ok pd →
  Config.get config library "url" = Ok slice →
  tarball_path pd = Some p →
  candidate_url pd (Some p) slice tag = Ok (Some u) →
  _check_url env (Some u) w1 = Ok (true, w2) →
  ∃ w',
    _fetch_from_provider env args config library tag provider w = Ok w'
    ∧ trace w'
      = (trace w1 ++ [EUrlopen u]
         ++ (if very_quiet args then []
             else [EPrint ("Fetching tarball " +:+ slice +:+ "/" +:+ tag
                           +:+ " from " +:+ Str.capitalize provider)])
         ++ [ESystem ("curl " +:+ (if quiet args then "--silent" else "--progress")
                      +:+ " " +:+ (match auth pd with
                                   | Some a => "--user " +:+ a
                                   | None => ""
                                   end)
                      +:+ " --insecure --location " +:+ u
                      +:+ " | tar zxf - -C " +:+ tag
                      +:+ " --strip-components 1")])%list.
Proof.
  intros He Hpd Hurl Hp Hu Hck.
  assert (∃ z, match zipball_path pd with
               | Some p0 =>
                   u0 ← percent_format (path_prefix pd +:+ p0) [slice; tag];
                   Ok (Some u0)
               | None => Ok None
               end = Ok z) as [z Hz].
  { destruct (zipball_path pd) as [p0|] eqn:Ez; [|eauto].
    destruct (Helpers.candidate_url_http provider pd p0 slice tag Hpd)
      as (u0 & Hu0 & _); [by right|]. unfold candidate_url in Hu0. eauto. }
  assert (trace w2 = (trace w1 ++ [EUrlopen u])%list
          ∧ Str.startswith u "http" = true) as [Htr2 _].
  { destruct (Helpers.candidate_url_http provider pd p slice tag Hpd)
      as (u' & Hu' & Hhttp); [by left|].
    rewrite Hu in Hu'. injection Hu' as <-.
    revert Hck. unfold _check_url.
    assert (u ≠ "") as Hne by (by intros ->).
    rewrite bool_decide_eq_false_2 by done. rewrite Hhttp. simpl.
    destruct (urlopen env u); cbn; [|done].
    destruct (Str.search_digits _); [|done]. by intros [= _ <-]. }
  unfold _fetch_from_provider. rewrite He. cbn. rewrite Hpd. cbn.
  rewrite Hurl. cbn. unfold candidate_url in Hu. rewrite Hp, Hu. cbn.
  rewrite Hz. cbn. rewrite Hck. cbn.
  eexists. split; [reflexivity|].
  unfold _check_and_run_cmd.
  rewrite bool_decide_eq_false_2 by (by destruct (quiet args)).
  simpl. rewrite message_trace, Htr2, <- !app_assoc. done.
Qed.

End Fetch.

Lemma update_pass_stops_at_missing_reference_witness :
  update_library env_rm_rf dojo_args missing_ref_config "Second"
    (after (for_each (update_library env_rm_rf dojo_args missing_ref_config)
              ["First"] fresh_world) fresh_world)
    = Raise (NoOptionError "branch" "Second")
  ∧ _do_update env_rm_rf dojo_args missing_ref_config fresh_world
    = Raise (NoOptionError "branch" "Second").
Proof.
  apply (Fetch.update_pass_stops_at_missing_reference env_rm_rf dojo_args
           missing_ref_config ["First"] ["Third"] "Second" fresh_world).
  - reflexivity.
  - by split.
  - reflexivity.
  - reflexivity.
  - vm_compute. reflexivity.
Defined.

Lemma provider_fetch_skipped_when_present_witness :
  let w' := after (_fetch_from_provider env_all_404 dojo_args dojo_config
                     "Dojo" "1.7.1" "github" checkout_world) fresh_world in
  tree w' = tree checkout_world
  ∧ linkinfo w' = linkinfo checkout_world
  ∧ trace w'
    = (trace checkout_world
       ++ (if very_quiet dojo_args then []
           else [EPrint (Path.join "/ext/https___github_com_dojo_dojo" "1.7.1"
                         +:+ " already exists")])
       ++ [EChdir "/ext/https___github_com_dojo_dojo"])%list.
Proof.
  apply (Fetch.provider_fetch_skipped_when_present env_all_404 dojo_args
           dojo_config "Dojo" "1.7.1" "github").
  - vm_compute. reflexivity.
  - vm_compute. reflexivity.
  - reflexivity.
  - vm_compute. reflexivity.
Defined.

Lemma provider_fetch_prefers_tarball_witness :
  let w1 := (outcome (_ensure_dir env_no_status dojo_args dojo_config
                        "Dojo" "1.7.1" fresh_world) (false, fresh_world)).2 in
  ∃ w',
    _fetch_from_provider env_no_status dojo_args dojo_config
      "Dojo" "1.7.1" "github" fresh_world = Ok w'
    ∧ trace w'
      = (trace w1
         ++ [EUrlopen "https://github.com/dojo/dojo/tarball/1.7.1"]
         ++ [EPrint "Fetching tarball dojo/dojo/1.7.1 from Github"]
         ++ [ESystem
               ("curl --progress  --insecure --location "
                +:+ "https://github.com/dojo/dojo/tarball/1.7.1"
                +:+ " | tar zxf - -C 1.7.1 --strip-components 1")])%list.
Proof.
  pose proof (Fetch.provider_fetch_prefers_tarball env_no_status dojo_args
                dojo_config "Dojo" "1.7.1" "github" "dojo/dojo"
                "/tarball/%s" "https://github.com/dojo/dojo/tarball/1.7.1"
                {| path_prefix := "https://github.com/%s";
                   tarball_path := Some "/tarball/%s";
                   zipball_path := Some "/zipball/%s";
                   auth := None |}
                fresh_world
                (outcome (_ensure_dir env_no_status dojo_args dojo_config
                            "Dojo" "1.7.1" fresh_world) (false, fresh_world)).2
                (emit (EUrlopen "https://github.com/dojo/dojo/tarball/1.7.1")
                   (outcome (_ensure_dir env_no_status dojo_args dojo_config
                               "Dojo" "1.7.1" fresh_world)
                      (false, fresh_world)).2)) as H.
  apply H; vm_compute; reflexivity.
Defined.

(* ===================================================================== *)
(* Decimal numerals: str and int                                         *)
(* ===================================================================== *)
Module Numerals.

Lemma code_digit_char (d : nat) : d < 10 → Str.code (Str.digit_char d) = 48 + d.
Proof.
  intros H. unfold Str.code, Str.digit_char. apply nat_ascii_embedding. lia.
Qed.

Lemma is_digit_digit_char (d : nat) :
  d < 10 → Str.is_digit (Str.digit_char d) = true.
Proof.
  intros H. unfold Str.is_digit. rewrite code_digit_char by done.
  apply andb_true_iff. split; apply Nat.leb_le; lia.
Qed.

Lemma to_N_acc_app (s1 s2 : string) (a : N) :
  Str.to_N_acc (s1 +:+ s2) a = Str.to_N_acc s2 (Str.to_N_acc s1 a).
Proof.
  revert a. induction s1 as [|c s1 IH]; intros a; [done|].
  change (String c s1 +:+ s2) with (String c (s1 +:+ s2)). simpl. apply IH.
Qed.

Lemma of_nat_fuel_acc (fuel n : nat) (acc : string) :
  Str.of_nat_fuel fuel n acc = Str.of_nat_fuel fuel n "" +:+ acc.
Proof.
  revert n acc. induction fuel as [|fuel IH]; intros n acc; [done|].
  cbn [Str.of_nat_fuel]. destruct (n <? 10); [done|].
  rewrite (IH _ (String _ acc)), (IH _ (String _ "")).
  by rewrite str_app_assoc.
Qed.

Lemma of_nat_fuel_unfold (fuel n : nat) :
  Str.of_nat_fuel (S fuel) n ""
  = if n <? 10 then String (Str.digit_char n) ""
    else Str.of_nat_fuel fuel (n / 10) ""
         +:+ String (Str.digit_char (n mod 10)) "".
Proof.
  cbn [Str.of_nat_fuel]. destruct (n <? 10) eqn:E.
  - apply Nat.ltb_lt in E. by rewrite Nat.mod_small.
  - apply of_nat_fuel_acc.
Qed.

(* int(str(n)) == n *)
Lemma to_N_of_nat_fuel (fuel n : nat) :
  n < fuel → Str.to_N (Str.of_nat_fuel fuel n "") = N.of_nat n.
Proof.
  revert n. induction fuel as [|fuel IH]; intros n Hn; [lia|].
  rewrite of_nat_fuel_unfold. destruct (n <? 10) eqn:E.
  - apply Nat.ltb_lt in E. unfold Str.to_N. cbn [Str.to_N_acc].
    rewrite code_digit_char by done. lia.
  - apply Nat.ltb_ge in E. unfold Str.to_N in *.
    rewrite to_N_acc_app, IH.
    + cbn [Str.to_N_acc].
      rewrite code_digit_char by (apply Nat.mod_upper_bound; lia).
      pose proof (Nat.div_mod_eq n 10) as Hdm.
      set (q := n / 10) in *. set (r := n mod 10) in *. lia.
    + assert (n / 10 < n) by (apply Nat.div_lt; lia). lia.
Qed.

Lemma to_N_of_nat (n : nat) : Str.to_N (Str.of_nat n) = N.of_nat n.
Proof. apply to_N_of_nat_fuel. lia. Qed.

Lemma of_nat_inj (n m : nat) : Str.of_nat n = Str.of_nat m → n = m.
Proof.
  intros H. apply (f_equal Str.to_N) in H. rewrite !to_N_of_nat in H. lia.
Qed.

Lemma all_digits_app (s1 s2 : string) :
  all_digits (s1 +:+ s2) = all_digits s1 && all_digits s2.
Proof.
  induction s1 as [|c s1 IH]; [done|].
  change (String c s1 +:+ s2) with (String c (s1 +:+ s2)). simpl.
  by rewrite IH, andb_assoc.
Qed.

Lemma all_digits_of_nat_fuel (fuel n : nat) :
  all_digits (Str.of_nat_fuel fuel n "") = true.
Proof.
  revert n. induction fuel as [|fuel IH]; intros n; [done|].
  rewrite of_nat_fuel_unfold. destruct (n <? 10) eqn:E.
  - apply Nat.ltb_lt in E. cbn [all_digits]. by rewrite is_digit_digit_char.
  - rewrite all_digits_app, IH. cbn [all_digits andb].
    rewrite is_digit_digit_char; [done|]. apply Nat.mod_upper_bound. lia.
Qed.

Lemma lower_digits (s : string) : all_digits s = true → Str.lower s = s.
Proof.
  induction s as [|c s IH]; [done|]. cbn [all_digits Str.lower].
  intros H. apply andb_true_iff in H as [Hc Hs]. rewrite (IH Hs).
  unfold Str.lower_char, Str.is_upper. unfold Str.is_digit in Hc.
  apply andb_true_iff in Hc as [H1 H2]. apply Nat.leb_le in H1, H2.
  destruct (65 <=? Str.code c) eqn:E; [|done].
  apply Nat.leb_le in E. lia.
Qed.

(* a number's numeral is its own option name *)
Lemma optionxform_of_nat (n : nat) :
  Config.optionxform (Str.of_nat n) = Str.of_nat n.
Proof. apply lower_digits, all_digits_of_nat_fuel. Qed.

End Numerals.

(* ===================================================================== *)
(* What the link pass writes into the registry                           *)
(* ===================================================================== *)
Module Registry.
Import Numerals LinkPass.

Lemma isabs_cons (c : ascii) (s : string) :
  Path.isabs (String c s) = bool_decide (c = "/"%char).
Proof.
  unfold Path.isabs, Str.startswith. simpl.
  case_decide; case_bool_decide; congruence.
Qed.

Lemma normpath_absolute (q : string) :
  Path.isabs q = true → Path.isabs (Path.normpath q) = true.
Proof.
  intros Hq. unfold Path.normpath.
  assert (q ≠ "") as Hne by (by intros ->).
  rewrite bool_decide_eq_false_2 by done.
  unfold Path.isabs in Hq. rewrite Hq.
  destruct (_ && _); by case_bool_decide.
Qed.

Lemma abspath_absolute (c : list string) (p : string) :
  Path.isabs (FS.abspath c p) = true.
Proof.
  unfold FS.abspath. apply normpath_absolute.
  destruct (Path.isabs p) eqn:Hp; [done|].
  unfold Path.join. unfold Path.isabs in Hp. rewrite Hp.
  by destruct (_ || _).
Qed.

(* the name of the registry section is never empty and never DEFAULT *)
Lemma abspath_section_name (c : list string) (p : string) :
  section_name (FS.abspath c p).
Proof.
  pose proof (abspath_absolute c p) as H.
  split; intros E; by rewrite E in H.
Qed.

Lemma numbered_from_app (k : nat) (vs : list string) (v : string) :
  numbered_from k (vs ++ [v])
  = (numbered_from k vs ++ [(Str.of_nat (k + List.length vs), v)])%list.
Proof.
  revert k. induction vs as [|x vs IH]; intros k; simpl.
  - by rewrite Nat.add_0_r.
  - rewrite IH. by replace (S k + List.length vs) with (k + S (List.length vs)) by lia.
Qed.

Lemma numbered_from_length (k : nat) (vs : list string) :
  List.length (numbered_from k vs) = List.length vs.
Proof. revert k. induction vs as [|x vs IH]; intros k; simpl; [done|]. by rewrite IH. Qed.

Lemma numbered_from_fresh (k n : nat) (vs : list string) :
  k + List.length vs ≤ n →
  Config.assoc (Str.of_nat n) (numbered_from k vs) = None.
Proof.
  revert k. induction vs as [|x vs IH]; intros k Hn; simpl; [done|].
  simpl in Hn. rewrite decide_False.
  - apply IH. lia.
  - intros E. apply of_nat_inj in E. lia.
Qed.

Lemma dict_set_fresh {V} (k : string) (v : V) (l : list (string * V)) :
  Config.assoc k l = None → Config.dict_set k v l = (l ++ [(k, v)])%list.
Proof.
  induction l as [|[k' v'] l IH]; simpl; [done|].
  case_decide; [done|]. intros Hl. by rewrite IH.
Qed.

Lemma assoc_dict_set {V} (k k' : string) (v : V) (l : list (string * V)) :
  Config.assoc k' (Config.dict_set k v l)
  = if decide (k = k') then Some v else Config.assoc k' l.
Proof.
  induction l as [|[k0 v0] l IH]; simpl.
  - by case_decide.
  - destruct (decide (k0 = k)) as [->|Hk]; simpl.
    + by destruct (decide (k = k')).
    + rewrite IH. destruct (decide (k0 = k')) as [->|]; [|done].
      by rewrite decide_False.
Qed.

Lemma assoc_app_none {V} (k : string) (l1 l2 : list (string * V)) :
  Config.assoc k l1 = None → Config.assoc k (l1 ++ l2) = Config.assoc k l2.
Proof.
  induction l1 as [|[k' v'] l1 IH]; simpl; [done|]. by case_decide.
Qed.

Lemma assoc_app_ne {V} (k k' : string) (v : V) (l : list (string * V)) :
  k' ≠ k → Config.assoc k' (l ++ [(k, v)]) = Config.assoc k' l.
Proof.
  intros Hne. induction l as [|[k0 v0] l IH]; simpl.
  - by rewrite decide_False.
  - by case_decide.
Qed.

Lemma set_in_section (cfg cfg' : Config.t) (s k v : string)
    (d : Config.options_t) :
  section_name s →
  Config.assoc s (Config.sections_ cfg) = Some d →
  Config.set cfg s k v = Ok cfg' →
  cfg' = Config.mk (Config.defaults cfg)
           (Config.dict_set s (Config.dict_set (Config.optionxform k) v d)
              (Config.sections_ cfg)).
Proof.
  intros [Hne Hnd] Hd. unfold Config.set.
  destruct (Str.contains_char _ _); [done|].
  rewrite !bool_decide_eq_false_2 by done. simpl. rewrite Hd.
  by intros [= <-].
Qed.

Section Tracking.

Variable args : Args.
Variable c : list string.
Variable reg0 : Config.t.

Let sect := FS.abspath c (libroot args).

(* the registry before the record of one more destination is made: the  *)
(* count of options and the section as it stands                         *)
Lemma registry_count (vals : list string) (reg : Config.t) :
  registered reg0 sect vals reg →
  ∃ li,
    match Config.options reg sect with
    | Ok opts => Ok (List.length opts, reg)
    | Raise (NoSectionError _) => Ok (0, Config.add_section reg sect)
    | Raise e => Raise e
    end = Ok (List.length vals, li)
    ∧ Config.defaults li = []
    ∧ Config.assoc sect (Config.sections_ li) = Some (numbered_from 1 vals)
    ∧ ∀ s, s ≠ sect →
        Config.assoc s (Config.sections_ li) = Config.assoc s (Config.sections_ reg0).
Proof.
  intros (Hdef & Hsec & Hoth). unfold Config.options. rewrite Hsec.
  destruct vals as [|v0 vals0].
  - eexists. split; [reflexivity|]. simpl. split; [done|]. split.
    + rewrite assoc_app_none by done. simpl. by rewrite decide_True.
    + intros s Hs. rewrite assoc_app_ne by done. by apply Hoth.
  - eexists. split; [|split; [done|split; [done|done]]].
    rewrite Hdef. simpl filter. rewrite app_nil_r, length_map.
    by rewrite numbered_from_length.
Qed.

(* one more destination in the registry *)
Lemma record_link_registered (lt : string) (vals : list string) (w w' : World) :
  cwd w = c →
  registered reg0 sect vals (linkinfo w) →
  record_link args lt w = Ok w' →
  registered reg0 sect (vals ++ [FS.abspath c lt]) (linkinfo w')
  ∧ cwd w' = c ∧ tree w' = tree w.
Proof.
  intros Hc Hreg. unfold record_link. rewrite Hc. fold sect.
  destruct (registry_count vals _ Hreg) as (li & -> & Hdef & Hsec & Hoth).
  cbn.
  destruct (Config.set li sect _ _) as [li'|] eqn:Hset; cbn; [|done].
  intros [= <-]. simpl. split; [|done].
  apply (set_in_section _ _ _ _ _ _ (abspath_section_name c (libroot args)) Hsec)
    in Hset.
  subst li'. split; [done|]. simpl. split.
  - rewrite assoc_dict_set. destruct (decide _) as [_|Hne]; [|by destruct Hne].
    rewrite optionxform_of_nat, dict_set_fresh
      by (apply numbered_from_fresh; lia).
    rewrite numbered_from_app, (Nat.add_comm (List.length vals) 1).
    by destruct vals.
  - intros s Hs. rewrite assoc_dict_set, decide_False by done. by apply Hoth.
Qed.

(* the calls before the record is made leave the registry and the       *)
(* working directory alone                                               *)
Lemma step_keeps_registry (b : bool) (op : World → result World)
    (w w' : World) :
  (∀ v v', op v = Ok v' → linkinfo v' = linkinfo v ∧ cwd v' = cwd v) →
  (if b then op w else Ok w) = Ok w' →
  linkinfo w' = linkinfo w ∧ cwd w' = cwd w.
Proof. intros Hop. destruct b; [apply Hop|]. by intros [= <-]. Qed.

Lemma makedirs_keeps_registry (name : string) (v v' : World) :
  makedirs name v = Ok v' → linkinfo v' = linkinfo v ∧ cwd v' = cwd v.
Proof.
  unfold makedirs. simpl. destruct (FS.makedirs _ _ _) as [t [[]|e]]; [|done].
  by intros [= <-].
Qed.

Lemma unlink_keeps_registry (p : string) (v v' : World) :
  unlink p v = Ok v' → linkinfo v' = linkinfo v ∧ cwd v' = cwd v.
Proof.
  unfold unlink. simpl. destruct (FS.unlink _ _ _); cbn; [|done].
  by intros [= <-].
Qed.

Lemma symlink_keeps_registry (src dst : string) (v v' : World) :
  symlink src dst v = Ok v' → linkinfo v' = linkinfo v ∧ cwd v' = cwd v.
Proof.
  unfold symlink. simpl. destruct (FS.symlink _ _ _ _); cbn; [|done].
  by intros [= <-].
Qed.

Lemma link_at_registered (lf lt : string) (vals : list string) (w w' : World) :
  cwd w = c →
  registered reg0 sect vals (linkinfo w) →
  link_at args lf lt w = Ok w' →
  registered reg0 sect (vals ++ [FS.abspath c lt]) (linkinfo w') ∧ cwd w' = c.
Proof.
  intros Hc Hreg. unfold link_at.
  destruct (if negb _ then _ else _) as [wa|] eqn:Ha; cbn; [|done].
  apply (step_keeps_registry _ _ _ _ (makedirs_keeps_registry _)) in Ha
    as [Hla Hca].
  set (wb := _message args _ wa).
  assert (linkinfo wb = linkinfo w ∧ cwd wb = c) as [Hlb Hcb].
  { unfold wb. rewrite message_linkinfo, message_cwd. split; congruence. }
  destruct (if FS.islink _ _ _ then _ else _) as [wc|] eqn:Hcc; cbn; [|done].
  apply (step_keeps_registry _ _ _ _ (unlink_keeps_registry _)) in Hcc
    as [Hlc Hcc].
  destruct (if negb (FS.exists_ _ _ _) then _ else _) as [wd|] eqn:Hd;
    cbn; [|done].
  apply (step_keeps_registry _ _ _ _ (symlink_keeps_registry _ _)) in Hd
    as [Hld Hcd].
  intros H.
  assert (cwd wd = c) as Hcwd by congruence.
  assert (registered reg0 sect vals (linkinfo wd)) as Hregd
    by (by rewrite Hld, Hlc, Hlb).
  destruct (record_link_registered lt vals wd w' Hcwd Hregd H) as (? & ? & _).
  done.
Qed.

Lemma link_pairs_registered (config : Config.t) (library : string)
    (links : list (string * string)) (vals : list string) (w w' : World) :
  cwd w = c →
  registered reg0 sect vals (linkinfo w) →
  for_each (link_pair args config library) links w = Ok w' →
  ∃ dests,
    collect (λ keys, p ← link_endpoints args config library keys; Ok [p.2])
      links = Ok dests
    ∧ registered reg0 sect (vals ++ map (FS.abspath c) dests) (linkinfo w')
    ∧ cwd w' = c.
Proof.
  revert vals w. induction links as [|keys links IH]; intros vals w Hc Hreg.
  - simpl. intros [= <-]. exists []. simpl. by rewrite app_nil_r.
  - simpl. rewrite link_pair_split.
    destruct (link_endpoints args config library keys) as [[lf lt]|]; cbn;
      [|done].
    destruct (link_at args lf lt w) as [w1|] eqn:H1; cbn; [|done].
    destruct (link_at_registered lf lt vals w w1 Hc Hreg H1) as [Hr1 Hc1].
    intros H2. destruct (IH _ _ Hc1 Hr1 H2) as (dests & -> & Hr & Hc2).
    cbn. eexists. split; [done|]. simpl. by rewrite <- app_assoc in Hr.
Qed.

Lemma link_library_registered (config : Config.t) (library : string)
    (vals : list string) (w w' : World) :
  cwd w = c →
  registered reg0 sect vals (linkinfo w) →
  link_library args config library w = Ok w' →
  ∃ dests,
    library_destinations args config library = Ok dests
    ∧ registered reg0 sect (vals ++ map (FS.abspath c) dests) (linkinfo w')
    ∧ cwd w' = c.
Proof.
  intros Hc Hreg. unfold link_library, library_destinations.
  destruct (_get_links config library) as [links|]; cbn; [|done].
  by apply link_pairs_registered.
Qed.

Lemma link_libraries_registered (config : Config.t) (libraries : list string)
    (vals : list string) (w w' : World) :
  cwd w = c →
  registered reg0 sect vals (linkinfo w) →
  for_each (link_library args config) libraries w = Ok w' →
  ∃ dests,
    collect (library_destinations args config) libraries = Ok dests
    ∧ registered reg0 sect (vals ++ map (FS.abspath c) dests) (linkinfo w')
    ∧ cwd w' = c.
Proof.
  revert vals w. induction libraries as [|library libraries IH];
    intros vals w Hc Hreg.
  - simpl. intros [= <-]. exists []. simpl. by rewrite app_nil_r.
  - simpl. destruct (link_library args config library w) as [w1|] eqn:H1;
      cbn; [|done].
    destruct (link_library_registered _ _ _ _ _ Hc Hreg H1)
      as (d1 & -> & Hr1 & Hc1).
    intros H2. destruct (IH _ _ Hc1 Hr1 H2) as (d2 & -> & Hr & Hc2).
    cbn. eexists. split; [done|]. split; [|done].
    by rewrite map_app, app_assoc.
Qed.

End Tracking.

(** X11: the registry after the link pass. If the section of the library
    root holds the values vals under the options 1, 2, ... (no section
    when there is none) and the registry has no DEFAULT options, then a
    link pass that returns has added one option for each link pair of
    the configuration, in the order of the libraries and of their pairs,
    numbered on from where the section stood, each with the absolute
    path of the destination; the other sections are untouched. In
    particular every destination of the configuration can be computed:
    a pass that returns has met no missing option. *)
Theorem link_pass_registers_destinations
    (args : Args) (config reg0 : Config.t) (vals : list string)
    (w w' : World) :
  registered reg0 (FS.abspath (cwd w) (libroot args)) vals (linkinfo w) →
  _do_link args config w = Ok w' →
  ∃ dests,
    link_destinations args config = Ok dests
    ∧ registered reg0 (FS.abspath (cwd w) (libroot args))
        (vals ++ map (FS.abspath (cwd w)) dests) (linkinfo w').
Proof.
  intros Hreg H.
  destruct (link_libraries_registered args (cwd w) reg0 config _ vals w w'
              eq_refl Hreg H) as (dests & Hd & Hr & _).
  by exists dests.
Qed.

End Registry.

Lemma link_pass_registers_destinations_witness :
  ∃ dests,
    link_destinations dojo_args nested_config = Ok dests
    ∧ registered (linkinfo fresh_world)
        (FS.abspath (cwd fresh_world) (libroot dojo_args))
        ([] ++ map (FS.abspath (cwd fresh_world)) dests)
        (linkinfo (after (_do_link dojo_args nested_config fresh_world)
                     fresh_world)).
Proof.
  apply (Registry.link_pass_registers_destinations dojo_args nested_config
           (linkinfo fresh_world) [] fresh_world).
  - split; [reflexivity|]. split; [vm_compute; reflexivity|]. done.
  - vm_compute. reflexivity.
Defined.

(* ===================================================================== *)
(* A whole run                                                           *)
(* ===================================================================== *)
Module Run.
Import UpdatePass UnlinkPass Registry.

Lemma absolute_app (a b : string) :
  Path.isabs a = true → Path.isabs (a +:+ b) = true.
Proof.
  destruct a as [|c a]; [done|]. intros H.
  change (Path.isabs (String c (a +:+ b)) = true). by rewrite isabs_cons in *.
Qed.

Lemma join_absolute (a b : string) :
  Path.isabs a = true → Path.isabs (Path.join a b) = true.
Proof.
  intros Ha. unfold Path.join.
  destruct (Str.startswith b "/") eqn:Hb; [done|].
  destruct (_ || _); by apply absolute_app.
Qed.

(* the absolute form of an absolute path does not depend on where the    *)
(* process is                                                            *)
Lemma abspath_of_absolute (c c' : list string) (p : string) :
  Path.isabs p = true → FS.abspath c p = FS.abspath c' p.
Proof. intros Hp. unfold FS.abspath. by rewrite Hp. Qed.

Lemma collect_Forall {A B} (P : B → Prop) (f : A → result (list B))
    (l : list A) (ys : list B) :
  (∀ x zs, f x = Ok zs → Forall P zs) → collect f l = Ok ys → Forall P ys.
Proof.
  intros Hf. revert ys. induction l as [|x l IH]; intros ys; simpl.
  - intros [= <-]. constructor.
  - destruct (f x) as [zs|] eqn:Hx; cbn; [|done].
    destruct (collect f l) as [zs'|]; cbn; [|done]. intros [= <-].
    apply Forall_app. split; [by eapply Hf|by apply IH].
Qed.

Lemma link_endpoints_under_libroot (args : Args) (config : Config.t)
    (library : string) (keys : string * string) (p : string * string) :
  Path.isabs (libroot args) = true →
  link_endpoints args config library keys = Ok p → Path.isabs p.2 = true.
Proof.
  intros Ha. unfold link_endpoints.
  destruct (_extdir_from_library _ _ _); cbn; [|done].
  destruct (_tag_or_branch _ _); cbn; [|done].
  destruct (Config.get config library keys.1); cbn; [|done].
  destruct (Config.get config library keys.2); cbn; [|done].
  intros [= <-]. by apply join_absolute.
Qed.

Lemma destinations_absolute (args : Args) (config : Config.t)
    (dests : list string) :
  Path.isabs (libroot args) = true →
  link_destinations args config = Ok dests →
  Forall (λ p, Path.isabs p = true) dests.
Proof.
  intros Ha. unfold link_destinations. apply collect_Forall.
  intros library zs. unfold library_destinations.
  destruct (_get_links config library) as [links|]; cbn; [|done].
  apply collect_Forall. intros keys ys.
  destruct (link_endpoints args config library keys) as [p|] eqn:Hp; cbn;
    [|done].
  intros [= <-]. constructor; [|constructor].
  by eapply link_endpoints_under_libroot.
Qed.

Lemma map_abspath_absolute (c c' : list string) (dests : list string) :
  Forall (λ p, Path.isabs p = true) dests →
  map (FS.abspath c) dests = map (FS.abspath c') dests.
Proof.
  induction 1 as [|p dests Hp _ IH]; simpl; [done|].
  by rewrite IH, (abspath_of_absolute c c' p).
Qed.

Lemma update_keeps_linkinfo (env : Env) (args : Args) (config : Config.t)
    (w w' : World) :
  (if update args then _do_update env args config w else Ok w) = Ok w' →
  linkinfo w' = linkinfo w.
Proof.
  destruct (update args); [|by intros [= <-]].
  intros H. by apply do_update_kept in H as [? _].
Qed.

(** X12: a run that links rewrites the section of the library root from
    scratch. With an absolute library root, a registry without DEFAULT
    options and values free of percent signs in that section, a run that
    returns leaves in the section exactly the destinations of the
    configuration, in order, under the options 1, 2, ... (no section if
    there is none), whatever the section held before and whether or not
    the update pass ran and moved the process; the other sections of the
    registry are as they were. *)
Theorem run_rewrites_registry
    (env : Env) (args : Args) (config : Config.t) (w w' : World) :
  link args = true →
  Path.isabs (libroot args) = true →
  Config.defaults (linkinfo w) = [] →
  plain_items (linkinfo w) (FS.abspath (cwd w) (libroot args)) = true →
  run env args config w = Ok w' →
  ∃ dests,
    link_destinations args config = Ok dests
    ∧ registered (linkinfo w) (FS.abspath (cwd w) (libroot args))
        (map (FS.abspath (cwd w)) dests) (linkinfo w').
Proof.
  intros Hlink Habs Hdef _. unfold run. rewrite Hlink.
  destruct (if update args then _ else _) as [w1|] eqn:H1; cbn; [|done].
  apply update_keeps_linkinfo in H1 as Hl1.
  destruct (do_unlink_spec args w1)
    as (w2 & -> & _ & Hc2 & Hd2 & Hs2 & Ho2 & _). cbn.
  intros H3.
  assert (registered (linkinfo w) (FS.abspath (cwd w2) (libroot args)) []
            (linkinfo w2)) as Hreg.
  { rewrite Hc2. split; [congruence|]. split; [done|].
    intros s Hs. rewrite Ho2 by done. by rewrite Hl1. }
  destruct (link_libraries_registered args (cwd w2) (linkinfo w) config _ []
              w2 w' eq_refl Hreg H3) as (dests & Hd & Hr & _).
  exists dests. split; [done|].
  rewrite (abspath_of_absolute (cwd w) (cwd w2)) by done.
  rewrite (map_abspath_absolute (cwd w) (cwd w2))
    by (by eapply destinations_absolute).
  done.
Qed.

End Run.

Lemma run_rewrites_registry_witness :
  ∃ dests,
    link_destinations dojo_args dojo_config = Ok dests
    ∧ registered (linkinfo linked_world)
        (FS.abspath (cwd linked_world) (libroot dojo_args))
        (map (FS.abspath (cwd linked_world)) dests)
        (linkinfo (after (run env_no_status dojo_args dojo_config linked_world)
                     fresh_world)).
Proof.
  apply (Run.run_rewrites_registry env_no_status dojo_args dojo_config
           linked_world).
  - reflexivity.
  - reflexivity.
  - vm_compute. reflexivity.
  - vm_compute. reflexivity.
  - vm_compute. reflexivity.
Defined.

(* ===================================================================== *)
(* Destinations the registry cannot hold                                 *)
(* ===================================================================== *)
Module Percent.
Import Tame LinkPass Registry.

(* a loop that returns has run its body, and returned from it, for every *)
(* element, on a world in which what the bodies preserve holds           *)
Lemma for_each_reaches {A} (body : A → World → result World)
    (I : World → Prop) (l : list A) (x : A) (w w' : World) :
  (∀ y v v', I v → body y v = Ok v' → I v') →
  I w → for_each body l w = Ok w' → x ∈ l →
  ∃ v v', I v ∧ body x v = Ok v'.
Proof.
  intros Hb. revert w. induction l as [|y l IH]; intros w Hw; simpl.
  - intros _ Hx. by apply elem_of_nil in Hx.
  - destruct (body y w) as [w1|] eqn:H1; cbn; [|done]. intros H2 Hx.
    apply elem_of_cons in Hx as [->|Hx]; [by exists w, w1|].
    apply (IH w1); [by eapply Hb|done|done].
Qed.

Lemma link_pair_cwd (args : Args) (config : Config.t) (library : string)
    (keys : string * string) (v v' : World) :
  link_pair args config library keys v = Ok v' → cwd v' = cwd v.
Proof.
  rewrite link_pair_split.
  destruct (link_endpoints args config library keys) as [[lf lt]|]; cbn;
    [|done].
  intros H. by destruct (link_at_tame args lf lt _ _ H) as [Hc _].
Qed.

Lemma link_library_cwd (args : Args) (config : Config.t) (library : string)
    (v v' : World) :
  link_library args config library v = Ok v' → cwd v' = cwd v.
Proof.
  unfold link_library.
  destruct (_get_links config library) as [links|]; cbn; [|done].
  revert v. induction links as [|keys links IH]; intros v; simpl.
  - by intros [= <-].
  - destruct (link_pair args config library keys v) as [v1|] eqn:H1; cbn;
      [|done].
    intros H2. rewrite (IH _ H2). by eapply link_pair_cwd.
Qed.

(* the parser takes no refused value *)
Lemma set_accepts (cfg cfg' : Config.t) (s k v : string) :
  Config.set cfg s k v = Ok cfg' → refused_value v = false.
Proof.
  unfold Config.set, refused_value.
  by destruct (Str.contains_char _ _).
Qed.

Lemma record_link_accepts (args : Args) (lt : string) (v v' : World) :
  record_link args lt v = Ok v' →
  refused_value (FS.abspath (cwd v) lt) = false.
Proof.
  unfold record_link.
  destruct (match Config.options _ _ with Ok _ => _ | Raise _ => _ end)
    as [[count li]|]; cbn; [|done].
  destruct (Config.set _ _ _ _) as [li'|] eqn:Hset; cbn; [|done].
  intros _. by eapply set_accepts.
Qed.

Lemma link_at_accepts (args : Args) (lf lt : string) (v v' : World) :
  link_at args lf lt v = Ok v' →
  refused_value (FS.abspath (cwd v) lt) = false.
Proof.
  unfold link_at.
  destruct (if negb _ then _ else _) as [wa|] eqn:Ha; cbn; [|done].
  apply (step_keeps_registry _ _ _ _ (makedirs_keeps_registry _)) in Ha
    as [_ Hca].
  set (wb := _message args _ wa).
  assert (cwd wb = cwd v) as Hcb by (unfold wb; by rewrite message_cwd).
  destruct (if FS.islink _ _ _ then _ else _) as [wc|] eqn:Hc; cbn; [|done].
  apply (step_keeps_registry _ _ _ _ (unlink_keeps_registry _)) in Hc
    as [_ Hcc].
  destruct (if negb (FS.exists_ _ _ _) then _ else _) as [wd|] eqn:Hd;
    cbn; [|done].
  apply (step_keeps_registry _ _ _ _ (symlink_keeps_registry _ _)) in Hd
    as [_ Hcd].
  intros H. apply record_link_accepts in H.
  replace (cwd v) with (cwd wd) by congruence. done.
Qed.

(** X13: a destination the registry cannot hold stops the link pass. If
    the absolute path of some destination of the configuration holds a
    percent sign that is neither doubled nor the start of a reference of
    the form %(name)s, the link pass does not return: when everything
    before goes well, the record of that link in the registry is refused
    by the parser, and the pass raises. *)
Theorem link_pass_stops_at_refused_destination
    (args : Args) (config : Config.t) (library : string)
    (links : list (string * string)) (keys : string * string)
    (lf lt : string) (w : World) :
  library ∈ Config.sections config →
  _get_links config library = Ok links →
  keys ∈ links →
  link_endpoints args config library keys = Ok (lf, lt) →
  refused_value (FS.abspath (cwd w) lt) = true →
  ∃ e, _do_link args config w = Raise e.
Proof.
  intros Hlib Hlinks Hkeys Hends Href.
  destruct (_do_link args config w) as [w'|e] eqn:H; [|by exists e].
  exfalso. unfold _do_link in H.
  destruct (for_each_reaches (link_library args config)
              (λ v, cwd v = cwd w) (Config.sections config) library w w')
    as (v & v' & Hv & Hbody); [|done|done|done|].
  { intros y u u' Hu Hy. rewrite <- Hu. by eapply link_library_cwd. }
  unfold link_library in Hbody. rewrite Hlinks in Hbody. cbn in Hbody.
  destruct (for_each_reaches (link_pair args config library)
              (λ u, cwd u = cwd w) links keys v v')
    as (u & u' & Hu & Hpair); [|done|done|done|].
  { intros y u u' Hu Hy. rewrite <- Hu. by eapply link_pair_cwd. }
  rewrite link_pair_split, Hends in Hpair. cbn in Hpair.
  apply link_at_accepts in Hpair. rewrite Hu in Hpair. congruence.
Qed.

End Percent.

Lemma link_pass_stops_at_refused_destination_witness :
  ∃ e, _do_link dojo_args percent_config fresh_world = Raise e.
Proof.
  apply (Percent.link_pass_stops_at_refused_destination dojo_args
           percent_config "Lib" [("link_from", "link_to")]
           ("link_from", "link_to") "/ext/u/t/x" "/proj/100%" fresh_world).
  - apply elem_of_cons. by left.
  - vm_compute. reflexivity.
  - apply elem_of_cons. by left.
  - vm_compute. reflexivity.
  - vm_compute. reflexivity.
Defined.

(* ===================================================================== *)
(* The update pass returns to where it started                           *)
(* ===================================================================== *)
Module Home.
Import Resolve PathFacts LinkPass UpdatePass.

Lemma ordinary_name_inv (x : string) :
  ordinary_name x = true →
  x ≠ "" ∧ x ≠ "." ∧ x ≠ ".." ∧ Str.contains_char "/" x = false.
Proof.
  unfold ordinary_name, FS.special. intros H.
  apply andb_true_iff in H as [Hs Hc].
  apply negb_true_iff in Hs, Hc.
  apply orb_false_iff in Hs as [Hs H2]. apply orb_false_iff in Hs as [H0 H1].
  repeat split; [by intros ->..|done].
Qed.

Lemma components_slash_join (x : string) (names : list string) :
  forallb ordinary_name (x :: names) = true →
  Path.components (Path.slash_join (x :: names)) = x :: names.
Proof.
  revert x. induction names as [|y names IH]; intros x H.
  - simpl in *. apply andb_true_iff in H as [H _].
    apply ordinary_name_inv in H as (_ & _ & _ & H).
    by apply components_noslash.
  - apply andb_true_iff in H as [Hx H].
    change (Path.slash_join (x :: y :: names))
      with (x +:+ String "/" (Path.slash_join (y :: names))).
    rewrite components_app_slash, (IH y H).
    apply ordinary_name_inv in Hx as (_ & _ & _ & Hx).
    by rewrite (components_noslash x Hx).
Qed.

Lemma directories_from_names (t : FS.files) (cur names : list string) :
  directories_from t cur names = true → forallb ordinary_name names = true.
Proof.
  revert cur. induction names as [|x names IH]; intros cur; simpl; [done|].
  intros H. apply andb_true_iff in H as [H Hr].
  apply andb_true_iff in H as [Hx _]. rewrite Hx. simpl. by eapply IH.
Qed.

(* the walk down a chain of directories follows the names *)
Lemma walk_directories (t : FS.files) (b : nat) (cur names : list string) :
  FS.kind t cur = Some FS.Dir →
  directories_from t cur names = true →
  FS.walk t b cur names = Ok (b, (cur ++ names)%list)
  ∧ FS.kind t (cur ++ names)%list = Some FS.Dir.
Proof.
  revert cur. induction names as [|x names IH]; intros cur Hk H.
  - rewrite walk_nil, app_nil_r. done.
  - simpl in H. apply andb_true_iff in H as [H Hr].
    apply andb_true_iff in H as [Hx Hd]. apply bool_decide_eq_true in Hd.
    apply ordinary_name_inv in Hx as (H0 & H1 & H2 & _).
    rewrite walk_cons, Hk.
    rewrite !bool_decide_eq_false_2 by done. simpl. rewrite Hd.
    replace (cur ++ x :: names)%list with ((cur ++ [x]) ++ names)%list
      by (by rewrite <- app_assoc).
    apply IH; [|done]. unfold FS.kind.
    destruct (cur ++ [x])%list eqn:E; [|done].
    by apply app_eq_nil in E as [_ ?].
Qed.

(* os.chdir(os.getcwd()) stays where the process is *)
Lemma chdir_getcwd (t : FS.files) (c0 c : list string) :
  directories_from t [] c = true → FS.chdir t c0 (FS.getcwd c) = Ok c.
Proof.
  intros H. unfold FS.chdir, FS.stat, FS.getcwd.
  change ("/" +:+ Path.slash_join c) with (String "/" (Path.slash_join c)).
  rewrite bool_decide_eq_false_2 by done.
  assert (FS.start c0 (String "/" (Path.slash_join c)) = []) as -> by done.
  assert (FS.walk t FS.MAXSYMLINKS []
            (Path.components (String "/" (Path.slash_join c)))
          = Ok (FS.MAXSYMLINKS, c)
          ∧ FS.kind t c = Some FS.Dir) as [-> Hk].
  { change (Path.components (String "/" (Path.slash_join c)))
      with ("" :: Path.components (Path.slash_join c)).
    rewrite walk_cons. simpl FS.kind. rewrite bool_decide_eq_true_2 by done.
    simpl orb. cbv iota.
    destruct c as [|x names].
    - simpl Path.slash_join. simpl Path.components.
      rewrite walk_cons. simpl FS.kind. rewrite bool_decide_eq_true_2 by done.
      simpl. by rewrite walk_nil.
    - rewrite components_slash_join by (by eapply directories_from_names).
      by apply (walk_directories t FS.MAXSYMLINKS [] (x :: names)). }
  cbn. by rewrite Hk.
Qed.

Lemma directories_from_kept (t t' : FS.files) (cur names : list string) :
  (∀ p, t !! p = Some FS.Dir → t' !! p = Some FS.Dir) →
  directories_from t cur names = true → directories_from t' cur names = true.
Proof.
  intros Ht. revert cur. induction names as [|x names IH]; intros cur; simpl;
    [done|].
  intros H. apply andb_true_iff in H as [H Hr].
  apply andb_true_iff in H as [Hx Hd]. apply bool_decide_eq_true in Hd.
  rewrite Hx, (IH _ Hr), bool_decide_eq_true_2; [done|]. by apply Ht.
Qed.

Lemma update_loop_keeps_directories (env : Env) (args : Args)
    (config : Config.t) (w w' : World) :
  keeps_directories env →
  for_each (update_library env args config) (Config.sections config) w
    = Ok w' →
  directories_kept w w'.
Proof.
  intros Henv. apply (update_loop_step env directories_kept).
  - by intros v p.
  - intros w1 w2 w3 H1 H2 p Hp. by apply H2, H1.
  - by intros m v p.
  - by intros u v p.
  - intros cmd v p Hp. simpl. by apply Henv.
  - intros name v v' H p Hp. apply makedirs_world in H as (Hs & _).
    exact (lookup_weaken (tree v) (tree v') p FS.Dir Hp Hs).
  - intros path v v'. unfold chdir. simpl.
    destruct (FS.chdir _ _ _); cbn; [|done]. by intros [= <-] p.
Qed.

(** X14: the update pass returns to where it started. If the process
    starts in a directory that the tree holds, reached from the root
    through directories only, and no command of the shell removes or
    replaces a directory, then an update pass that returns leaves the
    process in the directory in which it found it, wherever the
    libraries' fetches moved it in between. *)
Theorem update_pass_returns_home
    (env : Env) (args : Args) (config : Config.t) (w w' : World) :
  keeps_directories env →
  directories_from (tree w) [] (cwd w) = true →
  _do_update env args config w = Ok w' →
  cwd w' = cwd w.
Proof.
  intros Henv Hhome. unfold _do_update.
  destruct (for_each _ _ w) as [w1|] eqn:H1; cbn; [|done].
  apply (update_loop_keeps_directories env args config w w1 Henv) in H1.
  unfold chdir. simpl.
  rewrite (chdir_getcwd (tree w1) (cwd w1) (cwd w))
    by (by eapply directories_from_kept).
  cbn. by intros [= <-].
Qed.

End Home.

Lemma update_pass_returns_home_witness :
  cwd (after (_do_update env_no_status dojo_args dojo_config project_world)
         fresh_world)
  = cwd project_world.
Proof.
  apply (Home.update_pass_returns_home env_no_status dojo_args dojo_config).
  - by intros cmd t c p.
  - vm_compute. reflexivity.
  - vm_compute. reflexivity.
Defined.

(* ===================================================================== *)
(* Fetching from a repository                                            *)
(* ===================================================================== *)
Module RepoFetch.
Import UpdatePass.

Lemma grows_by_refl (allowed : event → bool) (w : World) :
  grows_by allowed w w.
Proof. exists []. by rewrite app_nil_r. Qed.

Lemma grows_by_trans (allowed : event → bool) (w1 w2 w3 : World) :
  grows_by allowed w1 w2 → grows_by allowed w2 w3 → grows_by allowed w1 w3.
Proof.
  intros (d1 & Hd1 & He1) (d2 & Hd2 & He2).
  exists (d1 ++ d2)%list. rewrite Hd2, Hd1, app_assoc. split; [done|].
  by rewrite forallb_app, He1, He2.
Qed.

Lemma grows_by_emit (allowed : event → bool) (e : event) (w : World) :
  allowed e = true → grows_by allowed w (emit e w).
Proof. intros He. exists [e]. simpl. by rewrite He. Qed.

Lemma ensure_dir_local (env : Env) (args : Args) (config : Config.t)
    (library subdir : string) (w w' : World) (created : bool) :
  _ensure_dir env args config library subdir w = Ok (created, w') →
  grows_by local_event w w'.
Proof.
  apply (ensure_dir_step env (grows_by local_event)
           (grows_by_refl local_event) (grows_by_trans local_event)).
  - intros m v. by apply grows_by_emit.
  - intros cmd v. by exists [ESystem cmd].
  - intros name v v'. unfold makedirs. simpl.
    destruct (FS.makedirs _ _ _) as [t [[]|e]]; [|done].
    intros [= <-]. by exists [EMakedirs name].
  - intros path v v'. unfold chdir. simpl.
    destruct (FS.chdir _ _ _); cbn; [|done].
    intros [= <-]. by exists [EChdir path].
Qed.

(** X15: a fetch from a repository that returns has always run git: the
    command is never empty, so the message about a missing URL cannot
    come from a repository library. The command is the last thing done;
    it is a clone when the version directory was made and a fetch inside
    it otherwise, and before it no URL was opened and no link was
    touched. *)
Theorem repo_fetch_runs_git
    (env : Env) (args : Args) (config : Config.t) (library tag : string)
    (w w' : World) :
  _fetch_from_repo env args config library tag w = Ok w' →
  ∃ created w1 d cmd,
    _ensure_dir env args config library tag w = Ok (created, w1)
    ∧ trace w' = (trace w ++ d ++ [ESystem cmd])%list
    ∧ forallb local_event d = true
    ∧ Str.startswith cmd
        (if created then "git clone "
         else "cd " +:+ tag +:+ " && git fetch -t ") = true.
Proof.
  unfold _fetch_from_repo.
  destruct (Config.get config library "url") as [url|]; [|done]. cbn.
  destruct (_ensure_dir _ _ _ _ _ _) as [[created w1]|] eqn:He; cbn; [|done].
  destruct (ensure_dir_local _ _ _ _ _ _ _ _ He) as (d1 & Hd1 & He1).
  assert (∀ cmd msg, cmd ≠ "" →
            trace (_check_and_run_cmd env args cmd msg w1)
            = (trace w
               ++ (d1 ++ if very_quiet args then [] else [EPrint msg])
               ++ [ESystem cmd])%list
            ∧ forallb local_event
                (d1 ++ if very_quiet args then [] else [EPrint msg]) = true)
    as Hrun.
  { intros cmd msg Hne. unfold _check_and_run_cmd.
    rewrite bool_decide_eq_false_2 by done. simpl.
    rewrite message_trace, Hd1, <- !app_assoc. split; [done|].
    rewrite forallb_app, He1. by destruct (very_quiet args). }
  destruct created; intros [= <-];
    match goal with
    | |- context [_check_and_run_cmd env args ?cmd ?msg w1] =>
        destruct (Hrun cmd msg) as [Ht Hl]; [done|]
    end.
  - exists true, w1. eexists _, _.
    split; [done|]. split; [exact Ht|]. split; [exact Hl|].
    apply Helpers.startswith_app.
  - exists false, w1. eexists _, _.
    split; [done|]. split; [exact Ht|]. split; [exact Hl|].
    rewrite <- (str_app_assoc "cd " tag), <- str_app_assoc.
    apply Helpers.startswith_app.
Qed.

End RepoFetch.

Lemma repo_fetch_runs_git_witness :
  ∃ created w1 d cmd,
    _ensure_dir env_rm_rf dojo_args branch_only_config "Lib" "master"
      fresh_world = Ok (created, w1)
    ∧ trace (after (_fetch_from_repo env_rm_rf dojo_args branch_only_config
                      "Lib" "master" fresh_world) fresh_world)
      = (trace fresh_world ++ d ++ [ESystem cmd])%list
    ∧ forallb local_event d = true
    ∧ Str.startswith cmd
        (if created then "git clone "
         else "cd " +:+ "master" +:+ " && git fetch -t ") = true.
Proof.
  apply (RepoFetch.repo_fetch_runs_git env_rm_rf dojo_args branch_only_config
           "Lib" "master" fresh_world).
  vm_compute. reflexivity.
Defined.
